(** * MicroPsi theano engine: the per-partition compute core

    A shallow embedding of [micropsi_core/nodenet/theano_engine/theano_partition.py]
    (class [TheanoPartition]) together with the properties its specification
    states about it.

    Conventions of the embedding.
    - Activations, weights and gate parameters are float32 in the source; here
      they are rationals in canonical form ([Qc]), so that equal numbers are
      equal terms.  Comparisons are the exact ones, the literals [0.1] and
      [0.2] are [lit 1 10] and [lit 1 5].
    - [T.nnet.sigmoid] and [T.tanh] are parameters ([sigmoid], [tanh]) of the
      definitions that use them.
    - Integer arrays (int8/int16/int32 in the source) are lists of [Z].
    - The attributes of a partition object are kept in stores indexed by the
      attribute's name (module [V]); [getf p V.a] reads [self.a].
    - Python exceptions are outcomes of a state-and-error monad [M]; the state
      that comes with [Raise] is the state at the moment of the raise.
    - The shifted views [a_shifted] and [g_theta_shifted] are strided views
      that reach behind their buffers; what the program finds there is a
      parameter ([Memory]) of the definitions that read the views.
    - Native modules (user supplied Python nodes) are outside the model. *)

From Stdlib Require Import String.
From Stdlib Require Import List ZArith QArith Qcanon Qcabs Bool Lia.
Import ListNotations.
Local Open Scope Z_scope.

Set Implicit Arguments.

(** ** Attribute names *)

Module V.

(** float vectors (theano shared variables of dtype floatX) *)
Inductive fvar : Set :=
  | a | a_in | a_prev
  | g_theta | g_factor | g_threshold | g_amplification | g_min | g_max
  | g_expect.

(** integer vectors *)
Inductive ivar : Set :=
  | allocated_nodes | nodes_last_changed | allocated_node_offsets
  | allocated_elements_to_nodes | allocated_node_parents
  | allocated_nodespaces | nodespaces_last_changed
  | nodespaces_contents_last_changed
  | allocated_nodespaces_por_activators | allocated_nodespaces_ret_activators
  | allocated_nodespaces_sub_activators | allocated_nodespaces_sur_activators
  | allocated_nodespaces_cat_activators | allocated_nodespaces_exp_activators
  | allocated_nodespaces_sampling_activators
  | allocated_elements_to_activators
  | sensor_indices | actuator_indices
  | g_function_selector | g_countdown | g_wait
  | n_function_selector | n_node_porlinked | n_node_retlinked.

(** integer scalars *)
Inductive svar : Set :=
  | pid | NoN | NoE | NoNS | t
  | last_allocated_node | last_allocated_offset | last_allocated_nodespace.

(** booleans *)
Inductive bvar : Set :=
  | sparse
  | has_new_usages | has_pipes | has_lstms
  | has_directional_activators | has_sampling_activators
  | has_gatefunction_absolute | has_gatefunction_sigmoid
  | has_gatefunction_tanh | has_gatefunction_rect
  | has_gatefunction_one_over_x
  | por_ret_dirty.

End V.

Scheme Equality for V.fvar.
Scheme Equality for V.ivar.
Scheme Equality for V.svar.
Scheme Equality for V.bvar.

(** ** Constants of [theano_definitions.py] *)

Module Defs.

(** Modelled from the spec: [theano_definitions.py] is not among the
    sources.  Gate and slot positions inside a node follow the element order
    of section 3 (Pipe: gen, por, ret, sub, sur, cat, exp; LSTM: gen, por,
    gin, gou, gfg). *)
Definition GEN : Z := 0.
Definition POR : Z := 1.
Definition RET : Z := 2.
Definition SUB : Z := 3.
Definition SUR : Z := 4.
Definition CAT : Z := 5.
Definition EXP : Z := 6.
Definition GIN : Z := 2.
Definition GOU : Z := 3.
Definition GFG : Z := 4.

(** Modelled from the spec: gate function selector values of section 6,
    [IDENTITY=0, ABSOLUTE, SIGMOID, TANH, RECT, DIST]. *)
Definition GATE_FUNCTION_IDENTITY : Z := 0.
Definition GATE_FUNCTION_ABSOLUTE : Z := 1.
Definition GATE_FUNCTION_SIGMOID : Z := 2.
Definition GATE_FUNCTION_TANH : Z := 3.
Definition GATE_FUNCTION_RECT : Z := 4.
Definition GATE_FUNCTION_DIST : Z := 5.

(** Modelled from the spec: node function selector values of section 6,
    [NONE=0, PIPE_GEN, ..., PIPE_EXP, LSTM_GEN, ..., LSTM_GFG]. *)
Definition NFPG_PIPE_NON : Z := 0.
Definition NFPG_PIPE_GEN : Z := 1.
Definition NFPG_PIPE_POR : Z := 2.
Definition NFPG_PIPE_RET : Z := 3.
Definition NFPG_PIPE_SUB : Z := 4.
Definition NFPG_PIPE_SUR : Z := 5.
Definition NFPG_PIPE_CAT : Z := 6.
Definition NFPG_PIPE_EXP : Z := 7.
Definition NFPG_LSTM_GEN : Z := 8.
Definition NFPG_LSTM_POR : Z := 9.
Definition NFPG_LSTM_GIN : Z := 10.
Definition NFPG_LSTM_GOU : Z := 11.
Definition NFPG_LSTM_GFG : Z := 12.

(** Modelled from the spec: numeric codes of the standard node types.  The
    spec fixes no values; the code only needs them distinct and different
    from [0], which marks a free id. *)
Definition REGISTER : Z := 1.
Definition SENSOR : Z := 2.
Definition ACTUATOR : Z := 3.
Definition ACTIVATOR : Z := 4.
Definition CONCEPT : Z := 5.
Definition PIPE : Z := 7.
Definition COMMENT : Z := 8.
Definition LSTM : Z := 9.
Definition MAX_STD_NODETYPE : Z := LSTM.

(** Modelled from the spec: [get_numerical_node_type] for the standard
    types of section 3 (native modules are outside the model); [None] is
    the [ValueError] of an unknown type name. *)
Definition get_numerical_node_type (nodetype : string) : option Z :=
  if String.eqb nodetype "Register"%string then Some REGISTER
  else if String.eqb nodetype "Sensor"%string then Some SENSOR
  else if String.eqb nodetype "Actuator"%string then Some ACTUATOR
  else if String.eqb nodetype "Activator"%string then Some ACTIVATOR
  else if String.eqb nodetype "Concept"%string then Some CONCEPT
  else if String.eqb nodetype "Pipe"%string then Some PIPE
  else if String.eqb nodetype "Comment"%string then Some COMMENT
  else if String.eqb nodetype "LSTM"%string then Some LSTM
  else None.

(** Modelled from the spec: elements per standard type (section 3):
    Register 1, Sensor 1, Actuator 1, Concept 7, Pipe 7, LSTM 5,
    Activator 1, Comment 0. *)
Definition get_elements_per_type (type : Z) : option Z :=
  if type =? REGISTER then Some 1
  else if type =? SENSOR then Some 1
  else if type =? ACTUATOR then Some 1
  else if type =? ACTIVATOR then Some 1
  else if type =? CONCEPT then Some 7
  else if type =? PIPE then Some 7
  else if type =? COMMENT then Some 0
  else if type =? LSTM then Some 5
  else None.

(** Modelled from the spec: gates and slots are paired one-to-one with a
    node's elements (glossary), so a standard type has as many gates and
    as many slots as elements. *)
Definition get_gates_per_type (type : Z) : option Z := get_elements_per_type type.
Definition get_slots_per_type (type : Z) : option Z := get_elements_per_type type.

(** Modelled from the spec: position of a gate (or slot) name inside a
    standard node; [None] is the [ValueError] of an unknown name. *)
Definition get_numerical_gate_type (gate_type : string) : option Z :=
  if String.eqb gate_type "gen"%string then Some GEN
  else if String.eqb gate_type "por"%string then Some POR
  else if String.eqb gate_type "ret"%string then Some RET
  else if String.eqb gate_type "sub"%string then Some SUB
  else if String.eqb gate_type "sur"%string then Some SUR
  else if String.eqb gate_type "cat"%string then Some CAT
  else if String.eqb gate_type "exp"%string then Some EXP
  else if String.eqb gate_type "gin"%string then Some GIN
  else if String.eqb gate_type "gou"%string then Some GOU
  else if String.eqb gate_type "gfg"%string then Some GFG
  else None.

Definition get_numerical_slot_type (slot_type : string) : option Z :=
  get_numerical_gate_type slot_type.

(** Modelled from the spec: names of the transfer functions of section 4.3
    mapped to the selector values above. *)
Definition get_numerical_gatefunction_type (name : string) : option Z :=
  if String.eqb name "identity"%string then Some GATE_FUNCTION_IDENTITY
  else if String.eqb name "absolute"%string then Some GATE_FUNCTION_ABSOLUTE
  else if String.eqb name "sigmoid"%string then Some GATE_FUNCTION_SIGMOID
  else if String.eqb name "tanh"%string then Some GATE_FUNCTION_TANH
  else if String.eqb name "rect"%string then Some GATE_FUNCTION_RECT
  else if String.eqb name "one_over_x"%string then Some GATE_FUNCTION_DIST
  else None.

End Defs.
Import Defs.

(** ** numpy and theano primitives *)

(** A theano boolean is a number: [1] for true, [0] for false. *)
Definition b2q (b : bool) : Qc := if b then 1%Qc else 0%Qc.

(** the literal [n/d] *)
Definition lit (n : Z) (d : positive) : Qc := Q2Qc (n # d).

Definition Qc_leb (x y : Qc) : bool := Qle_bool x y.
Definition Qc_ltb (x y : Qc) : bool := negb (Qle_bool y x).
Definition Qc_eqb (x y : Qc) : bool := Qeq_bool x y.

Definition T_gt (x y : Qc) : Qc := b2q (Qc_ltb y x).
Definition T_lt (x y : Qc) : Qc := b2q (Qc_ltb x y).
Definition T_ge (x y : Qc) : Qc := b2q (Qc_leb y x).
Definition T_le (x y : Qc) : Qc := b2q (Qc_leb x y).
Definition T_eq (x y : Qc) : Qc := b2q (Qc_eqb x y).
Definition T_neq (x y : Qc) : Qc := b2q (negb (Qc_eqb x y)).

(** comparisons of integer tensors *)
Definition T_leZ (x y : Z) : Qc := b2q (x <=? y).
Definition T_eqZ (x y : Z) : Qc := b2q (x =? y).

(** [T.switch(cond, ift, iff)]: [ift] where [cond] is non-zero. *)
Definition T_switch {A : Type} (cond : Qc) (ift iff : A) : A :=
  if Qc_eqb cond 0%Qc then iff else ift.

(** [T.clip(x, min, max)] *)
Definition T_clip (x lo hi : Qc) : Qc :=
  if Qc_ltb x lo then lo else if Qc_ltb hi x then hi else x.

(** int16 arithmetic wraps around *)
Definition wrap16 (z : Z) : Z := (z + 32768) mod 65536 - 32768.

Definition T_maximumZ (x y : Z) : Z := Z.max x y.

(** [range(lo, hi)] *)
Definition range (lo hi : Z) : list Z :=
  map (fun k => lo + Z.of_nat k) (seq 0 (Z.to_nat (hi - lo))).

(** Python and numpy indexing: [-len <= i < 0] counts from the end,
    anything else outside [0, len) is an [IndexError] ([None]). *)
Definition py_index (len : nat) (i : Z) : option nat :=
  if (0 <=? i) && (i <? Z.of_nat len) then Some (Z.to_nat i)
  else if (- Z.of_nat len <=? i) && (i <? 0) then Some (Z.to_nat (Z.of_nat len + i))
  else None.

Fixpoint set_nth {A : Type} (n : nat) (x : A) (l : list A) : list A :=
  match l, n with
  | [], _ => []
  | _ :: tl, O => x :: tl
  | y :: tl, S n' => y :: set_nth n' x tl
  end.

Definition zeros (n : nat) : list Qc := repeat 0%Qc n.
Definition ones (n : nat) : list Qc := repeat 1%Qc n.
Definition zerosZ (n : nat) : list Z := repeat 0 n.
Definition onesZ (n : nat) : list Z := repeat 1 n.

(** [np.zeros(n); new[0:len(old)] = old] and its variant starting from ones:
    the growth pattern of every vector. *)
Definition grow_vec {A : Type} (fill : A) (new_len : nat) (old : list A) : list A :=
  firstn new_len old ++ repeat fill (new_len - length old).

Fixpoint zip_with {A B C : Type} (f : A -> B -> C) (l : list A) (l' : list B) : list C :=
  match l, l' with
  | x :: tl, y :: tl' => f x y :: zip_with f tl tl'
  | _, _ => []
  end.

Definition vadd (x y : list Qc) : list Qc := zip_with Qcplus x y.

(** inner product of two vectors *)
Fixpoint dot (row v : list Qc) : Qc :=
  match row, v with
  | x :: tl, y :: tl' => (x * y + dot tl tl')%Qc
  | _, _ => 0%Qc
  end.

(** [T.dot(w, v)] for a matrix [w] given by its rows *)
Definition mdot (w : list (list Qc)) (v : list Qc) : list Qc :=
  map (fun row => dot row v) w.

(** [x[indices]] for an index array: [None] is the [IndexError]. *)
Fixpoint gather {A : Type} (d : A) (x : list A) (indices : list Z) : option (list A) :=
  match indices with
  | [] => Some []
  | i :: tl =>
      match py_index (length x) i, gather d x tl with
      | Some n, Some r => Some (nth n x d :: r)
      | _, _ => None
      end
  end.

(** [np.roll(x, shift)] *)
Definition np_roll {A : Type} (x : list A) (shift : nat) : list A :=
  let n := length x in
  match n with
  | O => []
  | _ => let k := (n - shift mod n)%nat in skipn k x ++ firstn k x
  end.

(** [np.lib.stride_tricks.as_strided(x, shape=(rows, cols), strides=(s, s))]
    for the item size [s]: entry [(i, k)] of the view is item [i + k] of the
    buffer of [x].  Nothing checks the shape against the buffer, so the last
    rows of the view reach behind it, and what the program reads there is
    whatever the memory after the buffer holds.  The model keeps the part of
    the view that lies in the buffer: row [i] holds the entries [(i, k)] with
    [i + k < length x]. *)
Definition as_strided (x : list Qc) (rows cols : nat) : list (list Qc) :=
  map (fun i => firstn cols (skipn i x)) (seq 0 rows).

(** The memory the program finds where a view leaves its buffer:
    [behind V.a j] is what it reads as item [j] of the buffer of [a_shifted],
    for [j] past the end of the buffer, [behind V.g_theta j] likewise for
    [g_theta_shifted].  It is not part of the partition; whatever reads a
    view takes it as a parameter, and a statement that holds of the program
    holds for every such memory. *)
Definition Memory : Type := V.fvar -> nat -> Qc.

(** [m[:, k]] at row [i] of a view over the vector [v]: item [i + k], from
    the buffer or from behind it.  (The graph reads the columns 0 to 13 of
    the views, which [rebuild_shifted] builds with 14 columns before every
    run of a graph that reads them.) *)
Definition view_at (behind : Memory) (v : V.fvar) (m : list (list Qc)) (i k : nat) : Qc :=
  match nth_error (nth i m []) k with
  | Some x => x
  | None => behind v (i + k)%nat
  end.

(** ** The partition object *)

Inductive exn : Set := ValueError | KeyError | IndexError | AttributeError | Diverged.

Inductive outcome (A : Type) : Type :=
| Ok (x : A)
| Raise (e : exn).
Arguments Ok {A} x.
Arguments Raise {A} e.

(** One block of inter-partition links: [(from_elements, to_elements, weights)]
    with [weights] of shape [(len(to_elements), len(from_elements))]. *)
Record Inlink : Type := mkInlink {
  from_elements : list Z;
  to_elements : list Z;
  weights : list (list Qc)
}.

(** The capability flags a compiled [calculate_nodes] was built with. *)
Record Usages : Type := mkUsages {
  u_pipes : bool;
  u_lstms : bool;
  u_directional_activators : bool;
  u_sampling_activators : bool;
  u_absolute : bool;
  u_sigmoid : bool;
  u_tanh : bool;
  u_rect : bool;
  u_one_over_x : bool
}.

(** The boolean attributes of a partition: the [sparse] switch, the
    capability flags and [por_ret_dirty]. *)
Record Flags : Type := mkFlags {
  f_sparse : bool;
  f_has_new_usages : bool;
  f_has_pipes : bool;
  f_has_lstms : bool;
  f_has_directional_activators : bool;
  f_has_sampling_activators : bool;
  f_has_gatefunction_absolute : bool;
  f_has_gatefunction_sigmoid : bool;
  f_has_gatefunction_tanh : bool;
  f_has_gatefunction_rect : bool;
  f_has_gatefunction_one_over_x : bool;
  f_por_ret_dirty : bool
}.

Definition get_flag (v : V.bvar) (f : Flags) : bool :=
  match v with
  | V.sparse => f_sparse f
  | V.has_new_usages => f_has_new_usages f
  | V.has_pipes => f_has_pipes f
  | V.has_lstms => f_has_lstms f
  | V.has_directional_activators => f_has_directional_activators f
  | V.has_sampling_activators => f_has_sampling_activators f
  | V.has_gatefunction_absolute => f_has_gatefunction_absolute f
  | V.has_gatefunction_sigmoid => f_has_gatefunction_sigmoid f
  | V.has_gatefunction_tanh => f_has_gatefunction_tanh f
  | V.has_gatefunction_rect => f_has_gatefunction_rect f
  | V.has_gatefunction_one_over_x => f_has_gatefunction_one_over_x f
  | V.por_ret_dirty => f_por_ret_dirty f
  end.

Definition set_flag (v : V.bvar) (x : bool) (f : Flags) : Flags :=
  match v with
  | V.sparse =>
      mkFlags x (f_has_new_usages f) (f_has_pipes f) (f_has_lstms f)
        (f_has_directional_activators f) (f_has_sampling_activators f)
        (f_has_gatefunction_absolute f) (f_has_gatefunction_sigmoid f)
        (f_has_gatefunction_tanh f) (f_has_gatefunction_rect f)
        (f_has_gatefunction_one_over_x f) (f_por_ret_dirty f)
  | V.has_new_usages =>
      mkFlags (f_sparse f) x (f_has_pipes f) (f_has_lstms f)
        (f_has_directional_activators f) (f_has_sampling_activators f)
        (f_has_gatefunction_absolute f) (f_has_gatefunction_sigmoid f)
        (f_has_gatefunction_tanh f) (f_has_gatefunction_rect f)
        (f_has_gatefunction_one_over_x f) (f_por_ret_dirty f)
  | V.has_pipes =>
      mkFlags (f_sparse f) (f_has_new_usages f) x (f_has_lstms f)
        (f_has_directional_activators f) (f_has_sampling_activators f)
        (f_has_gatefunction_absolute f) (f_has_gatefunction_sigmoid f)
        (f_has_gatefunction_tanh f) (f_has_gatefunction_rect f)
        (f_has_gatefunction_one_over_x f) (f_por_ret_dirty f)
  | V.has_lstms =>
      mkFlags (f_sparse f) (f_has_new_usages f) (f_has_pipes f) x
        (f_has_directional_activators f) (f_has_sampling_activators f)
        (f_has_gatefunction_absolute f) (f_has_gatefunction_sigmoid f)
        (f_has_gatefunction_tanh f) (f_has_gatefunction_rect f)
        (f_has_gatefunction_one_over_x f) (f_por_ret_dirty f)
  | V.has_directional_activators =>
      mkFlags (f_sparse f) (f_has_new_usages f) (f_has_pipes f) (f_has_lstms f) x
        (f_has_sampling_activators f) (f_has_gatefunction_absolute f)
        (f_has_gatefunction_sigmoid f) (f_has_gatefunction_tanh f)
        (f_has_gatefunction_rect f) (f_has_gatefunction_one_over_x f)
        (f_por_ret_dirty f)
  | V.has_sampling_activators =>
      mkFlags (f_sparse f) (f_has_new_usages f) (f_has_pipes f) (f_has_lstms f)
        (f_has_directional_activators f) x (f_has_gatefunction_absolute f)
        (f_has_gatefunction_sigmoid f) (f_has_gatefunction_tanh f)
        (f_has_gatefunction_rect f) (f_has_gatefunction_one_over_x f)
        (f_por_ret_dirty f)
  | V.has_gatefunction_absolute =>
      mkFlags (f_sparse f) (f_has_new_usages f) (f_has_pipes f) (f_has_lstms f)
        (f_has_directional_activators f) (f_has_sampling_activators f) x
        (f_has_gatefunction_sigmoid f) (f_has_gatefunction_tanh f)
        (f_has_gatefunction_rect f) (f_has_gatefunction_one_over_x f)
        (f_por_ret_dirty f)
  | V.has_gatefunction_sigmoid =>
      mkFlags (f_sparse f) (f_has_new_usages f) (f_has_pipes f) (f_has_lstms f)
        (f_has_directional_activators f) (f_has_sampling_activators f)
        (f_has_gatefunction_absolute f) x (f_has_gatefunction_tanh f)
        (f_has_gatefunction_rect f) (f_has_gatefunction_one_over_x f)
        (f_por_ret_dirty f)
  | V.has_gatefunction_tanh =>
      mkFlags (f_sparse f) (f_has_new_usages f) (f_has_pipes f) (f_has_lstms f)
        (f_has_directional_activators f) (f_has_sampling_activators f)
        (f_has_gatefunction_absolute f) (f_has_gatefunction_sigmoid f) x
        (f_has_gatefunction_rect f) (f_has_gatefunction_one_over_x f)
        (f_por_ret_dirty f)
  | V.has_gatefunction_rect =>
      mkFlags (f_sparse f) (f_has_new_usages f) (f_has_pipes f) (f_has_lstms f)
        (f_has_directional_activators f) (f_has_sampling_activators f)
        (f_has_gatefunction_absolute f) (f_has_gatefunction_sigmoid f)
        (f_has_gatefunction_tanh f) x (f_has_gatefunction_one_over_x f)
        (f_por_ret_dirty f)
  | V.has_gatefunction_one_over_x =>
      mkFlags (f_sparse f) (f_has_new_usages f) (f_has_pipes f) (f_has_lstms f)
        (f_has_directional_activators f) (f_has_sampling_activators f)
        (f_has_gatefunction_absolute f) (f_has_gatefunction_sigmoid f)
        (f_has_gatefunction_tanh f) (f_has_gatefunction_rect f) x (f_por_ret_dirty f)
  | V.por_ret_dirty =>
      mkFlags (f_sparse f) (f_has_new_usages f) (f_has_pipes f) (f_has_lstms f)
        (f_has_directional_activators f) (f_has_sampling_activators f)
        (f_has_gatefunction_absolute f) (f_has_gatefunction_sigmoid f)
        (f_has_gatefunction_tanh f) (f_has_gatefunction_rect f)
        (f_has_gatefunction_one_over_x f) x
  end.

Record Partition : Type := mkPartition {
  fv : V.fvar -> list Qc;
  iv : V.ivar -> list Z;
  sv : V.svar -> Z;
  bv : Flags;
  w : list (list Qc);                       (* row = slot, column = gate *)
  a_shifted : list (list Qc);
  g_theta_shifted : list (list Qc);
  nodegroups : list (string * list (string * list Z));
  inlinks : list (Z * Inlink);
  calculate_nodes_usages : option Usages   (* None: not compiled yet *)
}.

Definition getf (p : Partition) (v : V.fvar) : list Qc := fv p v.
Definition geti (p : Partition) (v : V.ivar) : list Z := iv p v.
Definition gets (p : Partition) (v : V.svar) : Z := sv p v.
Definition getb (p : Partition) (v : V.bvar) : bool := get_flag v (bv p).

Definition upd {K A : Type} (eqb : K -> K -> bool) (f : K -> A) (k : K) (x : A) : K -> A :=
  fun k' => if eqb k k' then x else f k'.

Definition setf (v : V.fvar) (x : list Qc) (p : Partition) : Partition :=
  mkPartition (upd fvar_beq (fv p) v x) (iv p) (sv p) (bv p) (w p)
    (a_shifted p) (g_theta_shifted p) (nodegroups p) (inlinks p)
    (calculate_nodes_usages p).
Definition seti (v : V.ivar) (x : list Z) (p : Partition) : Partition :=
  mkPartition (fv p) (upd ivar_beq (iv p) v x) (sv p) (bv p) (w p)
    (a_shifted p) (g_theta_shifted p) (nodegroups p) (inlinks p)
    (calculate_nodes_usages p).
Definition sets (v : V.svar) (x : Z) (p : Partition) : Partition :=
  mkPartition (fv p) (iv p) (upd svar_beq (sv p) v x) (bv p) (w p)
    (a_shifted p) (g_theta_shifted p) (nodegroups p) (inlinks p)
    (calculate_nodes_usages p).
Definition setb (v : V.bvar) (x : bool) (p : Partition) : Partition :=
  mkPartition (fv p) (iv p) (sv p) (set_flag v x (bv p)) (w p)
    (a_shifted p) (g_theta_shifted p) (nodegroups p) (inlinks p)
    (calculate_nodes_usages p).
Definition set_w (x : list (list Qc)) (p : Partition) : Partition :=
  mkPartition (fv p) (iv p) (sv p) (bv p) x
    (a_shifted p) (g_theta_shifted p) (nodegroups p) (inlinks p)
    (calculate_nodes_usages p).
Definition set_a_shifted (x : list (list Qc)) (p : Partition) : Partition :=
  mkPartition (fv p) (iv p) (sv p) (bv p) (w p)
    x (g_theta_shifted p) (nodegroups p) (inlinks p)
    (calculate_nodes_usages p).
Definition set_g_theta_shifted (x : list (list Qc)) (p : Partition) : Partition :=
  mkPartition (fv p) (iv p) (sv p) (bv p) (w p)
    (a_shifted p) x (nodegroups p) (inlinks p)
    (calculate_nodes_usages p).
Definition set_nodegroups (x : list (string * list (string * list Z))) (p : Partition) : Partition :=
  mkPartition (fv p) (iv p) (sv p) (bv p) (w p)
    (a_shifted p) (g_theta_shifted p) x (inlinks p)
    (calculate_nodes_usages p).
Definition set_inlinks (x : list (Z * Inlink)) (p : Partition) : Partition :=
  mkPartition (fv p) (iv p) (sv p) (bv p) (w p)
    (a_shifted p) (g_theta_shifted p) (nodegroups p) x
    (calculate_nodes_usages p).
Definition set_calculate_nodes_usages (x : option Usages) (p : Partition) : Partition :=
  mkPartition (fv p) (iv p) (sv p) (bv p) (w p)
    (a_shifted p) (g_theta_shifted p) (nodegroups p) (inlinks p) x.

(** ** The state-and-error monad *)

Definition M (A : Type) : Type := Partition -> outcome A * Partition.

Definition ret {A : Type} (x : A) : M A := fun p => (Ok x, p).
Definition raise {A : Type} (e : exn) : M A := fun p => (Raise e, p).
Definition bind {A B : Type} (m : M A) (k : A -> M B) : M B :=
  fun p => match m p with
           | (Ok x, p') => k x p'
           | (Raise e, p') => (Raise e, p')
           end.

Declare Scope monad_scope.
Delimit Scope monad_scope with monad.
Notation "x <- m ;; k" := (bind m (fun x => k))
  (at level 61, m at next level, right associativity) : monad_scope.
Notation "m ;; k" := (bind m (fun _ => k))
  (at level 61, right associativity) : monad_scope.
Local Open Scope monad_scope.

Definition modify (f : Partition -> Partition) : M unit := fun p => (Ok tt, f p).
Definition read {A : Type} (f : Partition -> A) : M A := fun p => (Ok (f p), p).

Definition of_option {A : Type} (e : exn) (o : option A) : M A :=
  match o with Some x => ret x | None => raise e end.

(** [self.v[i]] *)
Definition geti_at (v : V.ivar) (i : Z) : M Z :=
  fun p => match py_index (length (geti p v)) i with
           | Some n => (Ok (nth n (geti p v) 0), p)
           | None => (Raise IndexError, p)
           end.

(** [self.v[i] = x] *)
Definition seti_at (v : V.ivar) (i : Z) (x : Z) : M unit :=
  fun p => match py_index (length (geti p v)) i with
           | Some n => (Ok tt, seti v (set_nth n x (geti p v)) p)
           | None => (Raise IndexError, p)
           end.

Definition getf_at (v : V.fvar) (i : Z) : M Qc :=
  fun p => match py_index (length (getf p v)) i with
           | Some n => (Ok (nth n (getf p v) 0%Qc), p)
           | None => (Raise IndexError, p)
           end.

Definition setf_at (v : V.fvar) (i : Z) (x : Qc) : M unit :=
  fun p => match py_index (length (getf p v)) i with
           | Some n => (Ok tt, setf v (set_nth n x (getf p v)) p)
           | None => (Raise IndexError, p)
           end.

(** [for x in l: body(x)] *)
Fixpoint forM {A : Type} (l : list A) (body : A -> M unit) : M unit :=
  match l with
  | [] => ret tt
  | x :: tl => body x ;; forM tl body
  end.

Definition when (b : bool) (m : M unit) : M unit := if b then m else ret tt.

(** ** [__init__] *)

Definition init_fv (NoE : nat) (v : V.fvar) : list Qc :=
  match v with
  | V.g_factor | V.g_amplification | V.g_max | V.g_expect => ones NoE
  | _ => zeros NoE
  end.

Definition init_iv (NoN NoE NoNS : nat) (v : V.ivar) : list Z :=
  match v with
  | V.allocated_nodes | V.allocated_node_offsets | V.allocated_node_parents => zerosZ NoN
  | V.nodes_last_changed => repeat (-1) NoN
  | V.allocated_nodespaces
  | V.allocated_nodespaces_por_activators | V.allocated_nodespaces_ret_activators
  | V.allocated_nodespaces_sub_activators | V.allocated_nodespaces_sur_activators
  | V.allocated_nodespaces_cat_activators | V.allocated_nodespaces_exp_activators
  | V.allocated_nodespaces_sampling_activators => zerosZ NoNS
  | V.nodespaces_last_changed | V.nodespaces_contents_last_changed => repeat (-1) NoNS
  | V.sensor_indices | V.actuator_indices => []
  | V.g_wait => onesZ NoE
  | _ => zerosZ NoE
  end.

Definition init_sv (pid : Z) (NoN NoE NoNS : nat) (v : V.svar) : Z :=
  match v with
  | V.pid => pid
  | V.NoN => Z.of_nat NoN
  | V.NoE => Z.of_nat NoE
  | V.NoNS => Z.of_nat NoNS
  | _ => 0
  end.

Definition init_bv (sparse : bool) : Flags :=
  mkFlags sparse true false false false false false false false false false true.

(** [TheanoPartition(nodenet, pid, sparse, initial_number_of_nodes,
    average_elements_per_node_assumption, initial_number_of_nodespaces)] *)
Definition init (pid : Z) (sparse : bool) (initial_number_of_nodes
    average_elements_per_node_assumption initial_number_of_nodespaces : nat) : Partition :=
  let NoN := initial_number_of_nodes in
  let NoE := (initial_number_of_nodes * average_elements_per_node_assumption)%nat in
  let NoNS := initial_number_of_nodespaces in
  mkPartition (init_fv NoE) (init_iv NoN NoE NoNS) (init_sv pid NoN NoE NoNS)
    (init_bv sparse)
    (repeat (zeros NoE) NoE)
    (as_strided (zeros NoE) NoE 7)
    (as_strided (zeros NoE) NoE 7)
    [] [] None.

(** ** [compile_propagate] *)

(** [theano.function([], None, updates=...)]: every right-hand side is
    evaluated in the state before the call, then all are stored. *)
Inductive update : Type :=
| UpdF (v : V.fvar) (e : Partition -> list Qc)
| UpdI (v : V.ivar) (e : Partition -> list Z).

Definition store_update (old : Partition) (u : update) (p : Partition) : Partition :=
  match u with
  | UpdF v e => setf v (e old) p
  | UpdI v e => seti v (e old) p
  end.

Definition theano_function (updates : list update) (p : Partition) : Partition :=
  fold_left (fun acc u => store_update p u acc) updates p.

Definition zeros_like (x : list Qc) : list Qc := zeros (length x).

(** The sparse and the dense branch build the same updates ([ST.dot] and
    [T.dot] are the same product). *)
Definition propagate_updates : list update :=
  [ UpdF V.a_prev (fun p => getf p V.a);
    UpdF V.a (fun p => vadd (getf p V.a_in) (mdot (w p) (getf p V.a)));
    UpdF V.a_in (fun p => zeros_like (getf p V.a_in)) ].

Definition propagate (p : Partition) : Partition :=
  theano_function propagate_updates p.

(** ** [compile_calculate_nodes] *)

Definition elf (p : Partition) (v : V.fvar) (i : nat) : Qc := nth i (getf p v) 0%Qc.
Definition eli (p : Partition) (v : V.ivar) (i : nat) : Z := nth i (geti p v) 0.

Section NodeFunctions.

Local Open Scope Qc_scope.

(** [T.nnet.sigmoid] and [T.tanh] *)
Variables sigmoid tanh : Qc -> Qc.

(** One row of [a_shifted] and of [g_theta_shifted], and the entries of the
    other vectors for the same element. *)
Variables slots biases : nat -> Qc.
Variables countdown g_wait por_linked ret_linked : Z.
Variable g_expect : Qc.

(** *** pipe logic
    <<
    0   1   2   3   4   5   6   7   8   9   10  11  12  13
    gen                               gen por ret sub sur cat exp
    por                           gen por ret sub sur cat exp
    ret                       gen por ret sub sur cat exp
    sub                   gen por ret sub sur cat exp
    sur               gen por ret sub sur cat exp
    cat           gen por ret sub sur cat exp
    exp       gen por ret sub sur cat exp
    >> *)

(** gen plumbing *)
Definition pipe_gen_sur_exp : Qc :=
  let pipe_gen_sur_exp := slots 11 + slots 13 in
  T_switch (T_lt pipe_gen_sur_exp g_expect * T_gt pipe_gen_sur_exp 0) 0 pipe_gen_sur_exp.

Definition pipe_gen : Qc :=
  let pipe_gen := slots 7 * slots 10 in
  let pipe_gen := T_switch (T_gt (Qcabs pipe_gen) (lit 1 10)) pipe_gen pipe_gen_sur_exp in
  T_switch (T_eq (slots 8) 0 * T_eqZ por_linked 1) pipe_gen_sur_exp pipe_gen.

(** por plumbing *)
Definition cdrc_por : Qc :=
  T_le (slots 9) 0 + (T_eqZ por_linked 1 * T_le (slots 7) 0).

Definition pipe_por_cond : Qc :=
  let pipe_por_cond := T_switch (T_eqZ por_linked 1) (T_gt (slots 7) 0) 1 in
  pipe_por_cond * T_gt (slots 9) 0.

(** start with sur, add gen-loop 1 *)
Definition pipe_por_base : Qc :=
  let pipe_por := slots 10 in
  pipe_por + T_gt (slots 6) (lit 1 10).

Definition pipe_por : Qc :=
  let pipe_por := pipe_por_base in
  let pipe_por := T_switch (T_leZ countdown 0 * T_lt pipe_por g_expect) (Qcopp 1) pipe_por in
  let pipe_por := pipe_por * pipe_por_cond in
  pipe_por + (slots 7 * T_eq (slots 9) 0 * T_eq (slots 10) 0).

Definition countdown_por : Z :=
  let countdown_por :=
  T_switch cdrc_por g_wait (T_maximumZ (wrap16 (countdown - 1)%Z) (-1)%Z) in
  T_switch (T_ge pipe_por g_expect) g_wait countdown_por.

(** ret plumbing *)
Definition pipe_ret : Qc :=
  let pipe_ret := T_lt (slots 6) 0 in
  pipe_ret + (slots 7 * T_eq (slots 8) 0 * T_eq (slots 9) 0).

(** sub plumbing *)
Definition pipe_sub_cond : Qc :=
  let pipe_sub_cond := T_switch (T_eqZ por_linked 1) (T_gt (slots 5) 0) 1 in
  pipe_sub_cond * T_eq (slots 4) 0.

Definition pipe_sub : Qc :=
  let pipe_sub := slots 7 in
  let pipe_sub := pipe_sub + slots 9 in
  pipe_sub * pipe_sub_cond.

(** sur plumbing *)
Definition cd_reset_cond : Qc :=
  T_le (slots 6) 0 + (T_eqZ por_linked 1 * T_le (slots 4) 0).

Definition pipe_sur_cond : Qc :=
  let pipe_sur_cond := T_eqZ por_linked 0 + T_gt (slots 4) 0 in
  T_gt pipe_sur_cond 0.

(** start with sur, add gen-loop 1, add exp * sub *)
Definition pipe_sur_base : Qc :=
  let pipe_sur := slots 7 in
  let pipe_sur := pipe_sur + T_gt (slots 3) (lit 1 5) in
  pipe_sur + (slots 9 * slots 6).

(** the value that decides the countdown reset *)
Definition pipe_sur_confirm : Qc :=
  let pipe_sur := pipe_sur_base in
  let pipe_sur := T_switch (T_lt pipe_sur g_expect * T_gt pipe_sur 0) 0 pipe_sur in
  T_switch (T_leZ countdown 0 * T_lt pipe_sur g_expect) (Qcopp 1) pipe_sur.

Definition countdown_sur : Z :=
  let countdown_sur :=
  T_switch cd_reset_cond g_wait (T_maximumZ (wrap16 (countdown - 1)%Z) (-1)%Z) in
  T_switch (T_ge pipe_sur_confirm g_expect) g_wait countdown_sur.

Definition pipe_sur : Qc :=
  let pipe_sur := pipe_sur_confirm in
  let pipe_sur := pipe_sur * T_switch (T_eqZ ret_linked 1) (slots 5) 1 in
  pipe_sur * pipe_sur_cond.

(** cat plumbing *)
Definition pipe_cat_cond : Qc :=
  let pipe_cat_cond := T_switch (T_eqZ por_linked 1) (T_gt (slots 3) 0) 1 in
  pipe_cat_cond * T_eq (slots 2) 0.

Definition pipe_cat : Qc :=
  let pipe_cat := T_clip (slots 6) 0 1 in
  let pipe_cat := pipe_cat + slots 5 in
  let pipe_cat := pipe_cat + slots 7 in
  let pipe_cat := pipe_cat * pipe_cat_cond in
  pipe_cat + (slots 7 * T_eq (slots 5) 0 * T_eq (slots 6) 0).

(** exp plumbing *)
Definition pipe_exp : Qc :=
  let pipe_exp := slots 5 in
  let pipe_exp := pipe_exp + slots 7 in
  pipe_exp + T_gt (slots 1 * slots 4) (lit 1 5).

(** *** lstm logic
    <<
    0   1   2   3   4   5   6   7   8   9   10  11  12  13
    gen                               gen por gin gou gfg
    por                           gen por gin gou gfg
    gin                       gen por gin gou gfg
    gou                   gen por gin gou gfg
    gfg               gen por gin gou gfg
    >> *)

Variables (t : Z) (a_prev g_factor : Qc).

Definition sample (has_sampling_activators : bool) : Qc :=
  let sample := T_eqZ (t mod 3)%Z 0%Z in
  if has_sampling_activators then sample * T_gt g_factor (lit 99 100) else sample.

Definition lstm_gen (sample : Qc) : Qc :=
  let s := slots 7 in
  let net_c := slots 8 + biases 8 in
  let net_in := slots 9 + biases 9 in
  let net_phi := slots 11 + biases 11 in
  let y_in := sigmoid net_in in
  let y_phi := sigmoid net_phi in
  let g := lit 4 1 * sigmoid net_c - lit 2 1 in
  let lstm_gen := s * y_phi + g * y_in in
  T_switch sample lstm_gen a_prev.

Definition lstm_por (sample : Qc) : Qc :=
  let s := slots 6 in
  let net_c := slots 7 + biases 7 in
  let net_in := slots 8 + biases 8 in
  let net_out := slots 9 + biases 9 in
  let net_phi := slots 10 + biases 10 in
  let y_in := sigmoid net_in in
  let y_out := sigmoid net_out in
  let y_phi := sigmoid net_phi in
  let g := lit 4 1 * sigmoid net_c - lit 2 1 in
  let s := s * y_phi + g * y_in in
  let h := lit 2 1 * sigmoid s - 1 in
  let lstm_por := h * y_out in
  T_switch sample lstm_por a_prev.

Definition lstm_gin (sample : Qc) : Qc :=
  T_switch sample (sigmoid (slots 7 + biases 7)) a_prev.
Definition lstm_gou (sample : Qc) : Qc :=
  T_switch sample (sigmoid (slots 7 + biases 7)) a_prev.
Definition lstm_gfg (sample : Qc) : Qc :=
  T_switch sample (sigmoid (slots 7 + biases 7)) a_prev.

(** *** dispatch on the node function selector *)

Variable u : Usages.
Variables (a_i : Qc) (n_function_selector : Z).

Definition nodefunctions : Qc :=
  let nodefunctions := a_i in
  let sel c := T_eqZ n_function_selector c in
  let nodefunctions :=
  if u_pipes u then
  if u_directional_activators u then
  let nodefunctions := T_switch (sel NFPG_PIPE_GEN) pipe_gen nodefunctions in
  let nodefunctions := T_switch (sel NFPG_PIPE_POR) (pipe_por * g_factor) nodefunctions in
  let nodefunctions := T_switch (sel NFPG_PIPE_RET) (pipe_ret * g_factor) nodefunctions in
  let nodefunctions := T_switch (sel NFPG_PIPE_SUB) (pipe_sub * g_factor) nodefunctions in
  let nodefunctions := T_switch (sel NFPG_PIPE_SUR) (pipe_sur * g_factor) nodefunctions in
  let nodefunctions := T_switch (sel NFPG_PIPE_CAT) (pipe_cat * g_factor) nodefunctions in
  T_switch (sel NFPG_PIPE_EXP) (pipe_exp * g_factor) nodefunctions
  else
  let nodefunctions := T_switch (sel NFPG_PIPE_GEN) pipe_gen nodefunctions in
  let nodefunctions := T_switch (sel NFPG_PIPE_POR) pipe_por nodefunctions in
  let nodefunctions := T_switch (sel NFPG_PIPE_RET) pipe_ret nodefunctions in
  let nodefunctions := T_switch (sel NFPG_PIPE_SUB) pipe_sub nodefunctions in
  let nodefunctions := T_switch (sel NFPG_PIPE_SUR) pipe_sur nodefunctions in
  let nodefunctions := T_switch (sel NFPG_PIPE_CAT) pipe_cat nodefunctions in
  T_switch (sel NFPG_PIPE_EXP) pipe_exp nodefunctions
  else nodefunctions in
  let sample := sample (u_sampling_activators u) in
  if u_lstms u then
  let nodefunctions := T_switch (sel NFPG_LSTM_GEN) (lstm_gen sample) nodefunctions in
  let nodefunctions := T_switch (sel NFPG_LSTM_POR) (lstm_por sample) nodefunctions in
  let nodefunctions := T_switch (sel NFPG_LSTM_GIN) (lstm_gin sample) nodefunctions in
  let nodefunctions := T_switch (sel NFPG_LSTM_GOU) (lstm_gou sample) nodefunctions in
  T_switch (sel NFPG_LSTM_GFG) (lstm_gfg sample) nodefunctions
  else nodefunctions.

(** the countdown update, part of the graph when [has_pipes] *)
Definition countdown_next : Z :=
  let sel c := T_eqZ n_function_selector c in
  let countdown' := T_switch (sel NFPG_PIPE_POR) countdown_por countdown in
  T_switch (sel NFPG_PIPE_SUR) countdown_sur countdown'.

(** *** gate logic *)

Variables (g_function_selector : Z).
Variables (g_theta g_threshold g_amplification g_min g_max : Qc).

(** apply actual gate functions *)
Definition gate_function_output (nodefunctions : Qc) : Qc :=
  let gsel c := T_eqZ g_function_selector c in
  let gate_function_output := nodefunctions in
  let gate_function_output :=
  if u_absolute u then
  T_switch (gsel GATE_FUNCTION_ABSOLUTE) (Qcabs gate_function_output) gate_function_output
  else gate_function_output in
  let gate_function_output :=
  if u_sigmoid u then
  T_switch (gsel GATE_FUNCTION_SIGMOID) (sigmoid (gate_function_output + g_theta))
  gate_function_output
  else gate_function_output in
  let gate_function_output :=
  if u_tanh u then
  T_switch (gsel GATE_FUNCTION_TANH) (tanh (gate_function_output + g_theta))
  gate_function_output
  else gate_function_output in
  let gate_function_output :=
  if u_rect u then
  T_switch (gsel GATE_FUNCTION_RECT)
  (T_switch (T_gt (gate_function_output + g_theta) 0) (gate_function_output - g_theta) 0)
  gate_function_output
  else gate_function_output in
  if u_one_over_x u then
  T_switch (gsel GATE_FUNCTION_DIST)
  (T_switch (T_neq 0 gate_function_output) (1 / gate_function_output) 0)
  gate_function_output
  else gate_function_output.

(** apply threshold *)
Definition thresholded_gate_function_output (gate_function_output : Qc) : Qc :=
  T_switch (T_ge gate_function_output g_threshold) gate_function_output 0.

(** apply amplification *)
Definition amplified_gate_function_output (thresholded : Qc) : Qc :=
  thresholded * g_amplification.

(** apply minimum and maximum *)
Definition limited_gate_function_output (amplified : Qc) : Qc :=
  T_clip amplified g_min g_max.

Definition gatefunctions (nodefunctions : Qc) : Qc :=
  limited_gate_function_output
  (amplified_gate_function_output
   (thresholded_gate_function_output
  (gate_function_output nodefunctions))).

End NodeFunctions.

Section CalculateNodes.

Variables sigmoid tanh : Qc -> Qc.

(** the memory behind the buffers of the two shifted views, as it is when
    the compiled function runs *)
Variable behind : Memory.

(** the node function output of element [i] *)
Definition nodefunctions_at (u : Usages) (p : Partition) (i : nat) : Qc :=
  nodefunctions sigmoid
  (view_at behind V.a (a_shifted p) i) (view_at behind V.g_theta (g_theta_shifted p) i)
  (eli p V.g_countdown i) (eli p V.n_node_porlinked i) (eli p V.n_node_retlinked i)
  (elf p V.g_expect i)
  (gets p V.t) (elf p V.a_prev i) (elf p V.g_factor i)
  u (elf p V.a i) (eli p V.n_function_selector i).

Definition gatefunctions_at (u : Usages) (p : Partition) (i : nat) : Qc :=
  gatefunctions sigmoid tanh u
  (eli p V.g_function_selector i)
  (elf p V.g_theta i) (elf p V.g_threshold i) (elf p V.g_amplification i)
  (elf p V.g_min i) (elf p V.g_max i)
  (nodefunctions_at u p i).

Definition countdown_at (p : Partition) (i : nat) : Z :=
  countdown_next
  (view_at behind V.a (a_shifted p) i)
  (eli p V.g_countdown i) (eli p V.g_wait i)
  (eli p V.n_node_porlinked i)
  (elf p V.g_expect i) (eli p V.n_function_selector i).

(** the updates of the compiled function *)
Definition calculate_nodes_updates (u : Usages) : list update :=
  if u_pipes u then
  [ UpdF V.a (fun p => map (gatefunctions_at u p) (seq 0 (length (getf p V.a))));
  UpdI V.g_countdown
  (fun p => map (countdown_at p) (seq 0 (length (geti p V.g_countdown)))) ]
  else
  [ UpdF V.a (fun p => map (gatefunctions_at u p) (seq 0 (length (getf p V.a)))) ].

(** [self.calculate_nodes()]: the function compiled last *)
Definition calculate_nodes : M unit :=
  fun p => match calculate_nodes_usages p with
   | Some u => (Ok tt, theano_function (calculate_nodes_updates u) p)
   | None => (Raise AttributeError, p)
   end.

End CalculateNodes.

Definition current_usages (p : Partition) : Usages :=
  mkUsages (getb p V.has_pipes) (getb p V.has_lstms)
    (getb p V.has_directional_activators) (getb p V.has_sampling_activators)
    (getb p V.has_gatefunction_absolute) (getb p V.has_gatefunction_sigmoid)
    (getb p V.has_gatefunction_tanh) (getb p V.has_gatefunction_rect)
    (getb p V.has_gatefunction_one_over_x).

(** The graph is pruned by the capability flags as they are when it is
    built. *)
Definition compile_calculate_nodes : M unit :=
  modify (fun p => set_calculate_nodes_usages (Some (current_usages p)) p).

(** [propagate] does not depend on any flag but [sparse], and both branches
    compile the same updates. *)
Definition compile_propagate : M unit := ret tt.

(** The setters of the [has_*] properties. *)
Definition set_has (v : V.bvar) (value : bool) : M unit :=
  modify (fun p =>
    if Bool.eqb value (getb p v) then p
    else setb v value (setb V.has_new_usages true p)).

(** ** [calculate] and its helpers *)

(** [a = self.a.get_value(borrow=True); a[0] = 1.;
    g_factor = a[self.allocated_elements_to_activators]] *)
Definition calculate_g_factors : M unit :=
  setf_at V.a 0 1%Qc ;;
  a <- read (fun p => getf p V.a) ;;
  idx <- read (fun p => geti p V.allocated_elements_to_activators) ;;
  g_factor <- of_option IndexError (gather 0%Qc a idx) ;;
  modify (setf V.g_factor g_factor).

(** [__rebuild_shifted]: both views have [NoE] rows and 14 columns over the
    [NoE] items of the rolled vector, so the rows [i] with [i + 13 >= NoE]
    reach behind the buffer (see [as_strided]). *)
Definition rebuild_shifted : M unit :=
  modify (fun p =>
    let NoE := Z.to_nat (gets p V.NoE) in
    let p := set_a_shifted (as_strided (np_roll (getf p V.a) 7) NoE 14) p in
    set_g_theta_shifted (as_strided (np_roll (getf p V.g_theta) 7) NoE 14) p).

(** [np.where(x == c)[0]] *)
Fixpoint np_where_eq (c : Z) (x : list Z) (i : Z) : list Z :=
  match x with
  | [] => []
  | y :: tl => if y =? c then i :: np_where_eq c tl (i + 1) else np_where_eq c tl (i + 1)
  end.

(** [np.any(row)] as 0/1; the sparse branch marks the rows that hold a
    non-zero entry, which is the same flag. *)
Definition any_nonzero (row : list Qc) : Z :=
  if existsb (fun x => negb (Qc_eqb x 0%Qc)) row then 1 else 0.

(** [arr[indices + delta] = values] on a local array; [None] is the
    [IndexError]. *)
Fixpoint scatter (arr : list Z) (indices : list Z) (delta : Z) (values : list Z)
  : option (list Z) :=
  match indices, values with
  | i :: tl, x :: tl' =>
      match py_index (length arr) (i + delta) with
      | Some n => scatter (set_nth n x arr) tl delta tl'
      | None => None
      end
  | _, _ => Some arr
  end.

(** [w_matrix[indices, :]] *)
Definition rows_of (w : list (list Qc)) (indices : list Z) : option (list (list Qc)) :=
  gather [] w indices.

Definition scatter_all (arr : list Z) (indices : list Z) (deltas : list Z) (values : list Z)
  : option (list Z) :=
  fold_left (fun acc delta =>
               match acc with
               | Some arr => scatter arr indices delta values
               | None => None
               end) deltas (Some arr).

Definition rebuild_por_linked : M unit :=
  n_node_porlinked_array <- read (fun p => zerosZ (Z.to_nat (gets p V.NoE))) ;;
  n_function_selector_array <- read (fun p => geti p V.n_function_selector) ;;
  w_matrix <- read w ;;
  let por_indices := np_where_eq NFPG_PIPE_POR n_function_selector_array 0 in
  slotrows <- of_option IndexError (rows_of w_matrix por_indices) ;;
  let linkedflags := map any_nonzero slotrows in
  n_node_porlinked_array <-
    of_option IndexError
      (scatter_all n_node_porlinked_array por_indices [-1; 0; 1; 2; 3; 4; 5] linkedflags) ;;
  modify (seti V.n_node_porlinked n_node_porlinked_array).

Definition rebuild_ret_linked : M unit :=
  n_node_retlinked_array <- read (fun p => zerosZ (Z.to_nat (gets p V.NoE))) ;;
  n_function_selector_array <- read (fun p => geti p V.n_function_selector) ;;
  w_matrix <- read w ;;
  let ret_indices := np_where_eq NFPG_PIPE_RET n_function_selector_array 0 in
  slotrows <- of_option IndexError (rows_of w_matrix ret_indices) ;;
  let linkedflags := map any_nonzero slotrows in
  n_node_retlinked_array <-
    of_option IndexError
      (scatter_all n_node_retlinked_array ret_indices [-2; -1; 0; 1; 2; 3; 4] linkedflags) ;;
  modify (seti V.n_node_retlinked n_node_retlinked_array).

Section Calculate.

Variables sigmoid tanh : Qc -> Qc.

(** the memory behind the shifted views at each step *)
Variable behind : Z -> Memory.

(** [calculate], at the step [current_step] of the node net *)
Definition calculate (current_step : Z) : M unit :=
  modify (sets V.t current_step) ;;
  has_new_usages <- read (fun p => getb p V.has_new_usages) ;;
  when has_new_usages
  (compile_propagate ;;
   compile_calculate_nodes ;;
   modify (setb V.has_new_usages false)) ;;
  por_ret_dirty <- read (fun p => getb p V.por_ret_dirty) ;;
  when por_ret_dirty
  (rebuild_por_linked ;;
   rebuild_ret_linked ;;
   modify (setb V.por_ret_dirty false)) ;;
  pipes_or_lstms <- read (fun p => getb p V.has_pipes || getb p V.has_lstms) ;;
  when pipes_or_lstms rebuild_shifted ;;
  activators <- read (fun p => getb p V.has_directional_activators
                       || getb p V.has_sampling_activators) ;;
  when activators calculate_g_factors ;;
  calculate_nodes sigmoid tanh (behind current_step).

End Calculate.

(** ** The node net a partition belongs to *)

(** What the partition reads from [self.nodenet]: the step counter, the node
    type definitions ([get_nodetype]) and the parsing of nodespace uids. *)
Record Nodetype : Type := mkNodetype {
  gatetypes : list string;
  gate_defaults : list (string * list (string * Qc));
  parameter_defaults_expectation : option Qc;
  parameter_defaults_wait : option Z
}.

Record Nodenet : Type := mkNodenet {
  current_step : Z;
  get_nodetype : string -> Nodetype;
  nodespace_from_id : string -> Z
}.

(** ** Growth *)

Definition grow_i (v : V.ivar) (fill : Z) (new_len : nat) (p : Partition) : Partition :=
  seti v (grow_vec fill new_len (geti p v)) p.
Definition grow_f (v : V.fvar) (fill : Qc) (new_len : nat) (p : Partition) : Partition :=
  setf v (grow_vec fill new_len (getf p v)) p.

Definition grow_number_of_nodes (growby : Z) : M unit :=
  modify (fun p =>
    let new_NoN := gets p V.NoN + growby in
    let n := Z.to_nat new_NoN in
    let p := grow_i V.allocated_nodes 0 n p in
    let p := grow_i V.allocated_node_parents 0 n p in
    let p := grow_i V.allocated_node_offsets 0 n p in
    let p := grow_i V.nodes_last_changed 0 n p in
    sets V.NoN new_NoN p) ;;
  modify (setb V.has_new_usages true).

Definition grow_number_of_nodespaces (growby : Z) : M unit :=
  modify (fun p =>
    let new_NoNS := gets p V.NoNS + growby in
    let n := Z.to_nat new_NoNS in
    let p := grow_i V.allocated_nodespaces 0 n p in
    let p := grow_i V.allocated_nodespaces_por_activators 0 n p in
    let p := grow_i V.allocated_nodespaces_ret_activators 0 n p in
    let p := grow_i V.allocated_nodespaces_sub_activators 0 n p in
    let p := grow_i V.allocated_nodespaces_sur_activators 0 n p in
    let p := grow_i V.allocated_nodespaces_cat_activators 0 n p in
    let p := grow_i V.allocated_nodespaces_exp_activators 0 n p in
    let p := grow_i V.allocated_nodespaces_sampling_activators 0 n p in
    let p := grow_i V.nodespaces_last_changed 0 n p in
    let p := grow_i V.nodespaces_contents_last_changed 0 n p in
    setb V.has_new_usages true p) ;;
  modify (fun p => sets V.NoNS (gets p V.NoNS + growby) p).

(** [new_w = zeros((n, n)); new_w[0:NoE, 0:NoE] = w] *)
Definition grow_matrix (n : nat) (w : list (list Qc)) : list (list Qc) :=
  grow_vec (zeros n) n (map (grow_vec 0%Qc n) w).

Definition grow_number_of_elements (growby : Z) : M unit :=
  modify (fun p =>
    let old_NoE := Z.to_nat (gets p V.NoE) in
    let new_NoE := gets p V.NoE + growby in
    let n := Z.to_nat new_NoE in
    let p := grow_i V.allocated_elements_to_nodes 0 n p in
    let p := grow_i V.allocated_elements_to_activators 0 n p in
    let p := set_w (grow_matrix n (w p)) p in
    let p := grow_f V.a 0%Qc n p in
    let p := set_a_shifted (as_strided (getf p V.a) n 7) p in
    let p := grow_f V.a_in 0%Qc n p in
    let p := grow_f V.a_prev 0%Qc n p in
    let p := grow_f V.g_theta 0%Qc n p in
    let p := set_g_theta_shifted (as_strided (getf p V.g_theta) old_NoE 7) p in
    let p := grow_f V.g_factor 1%Qc n p in
    let p := grow_f V.g_threshold 0%Qc n p in
    let p := grow_f V.g_amplification 1%Qc n p in
    let p := grow_f V.g_min 0%Qc n p in
    let p := grow_f V.g_max 1%Qc n p in
    let p := grow_i V.g_function_selector 0 n p in
    let p := grow_f V.g_expect 1%Qc n p in
    let p := grow_i V.g_countdown 0 n p in
    let p := grow_i V.g_wait 1 n p in
    let p := grow_i V.n_function_selector 0 n p in
    let p := seti V.n_node_porlinked (zerosZ n) p in
    let p := seti V.n_node_retlinked (zerosZ n) p in
    let p := sets V.NoE new_NoE p in
    setb V.has_new_usages true p) ;;
  has_pipes <- read (fun p => getb p V.has_pipes) ;;
  when has_pipes (modify (setb V.por_ret_dirty true)).

(** [np.count_nonzero] *)
Definition count_nonzero (x : list Z) : Z :=
  Z.of_nat (length (filter (fun y => negb (y =? 0)) x)).

Definition announce_nodes (number_of_nodes average_elements_per_node : Z) : M unit :=
  free_nodes <- read (fun p => gets p V.NoN - count_nonzero (geti p V.allocated_nodes)) ;;
  free_elements <- read (fun p => gets p V.NoE
                                  - count_nonzero (geti p V.allocated_elements_to_nodes)) ;;
  when (number_of_nodes >? free_nodes)
    (let gap := number_of_nodes - free_nodes in
     let growby := gap + gap / 3 in
     grow_number_of_nodes growby) ;;
  let number_of_elements := number_of_nodes * average_elements_per_node in
  when (number_of_elements >? free_elements)
    (let gap := number_of_elements - free_elements in
     grow_number_of_elements (gap + gap / 3)).

(** ** Gate parameters, gate functions, activators *)

Definition set_node_gate_parameter (id : Z) (gate_type parameter : string) (value : Qc)
  : M unit :=
  numerical_node_type <- geti_at V.allocated_nodes id ;;
  offset <- geti_at V.allocated_node_offsets id ;;
  gate <- of_option ValueError (get_numerical_gate_type gate_type) ;;
  let elementindex := offset + gate in
  if String.eqb parameter "threshold" then setf_at V.g_threshold elementindex value
  else if String.eqb parameter "amplification" then setf_at V.g_amplification elementindex value
  else if String.eqb parameter "minimum" then setf_at V.g_min elementindex value
  else if String.eqb parameter "maximum" then setf_at V.g_max elementindex value
  else if String.eqb parameter "theta" then setf_at V.g_theta elementindex value
  else ret tt.

Definition set_node_gatefunction_name (id : Z) (gate_type gatefunction_name : string)
  : M unit :=
  numerical_node_type <- geti_at V.allocated_nodes id ;;
  offset <- geti_at V.allocated_node_offsets id ;;
  gate <- of_option ValueError (get_numerical_gate_type gate_type) ;;
  let elementindex := offset + gate in
  selector <- of_option ValueError (get_numerical_gatefunction_type gatefunction_name) ;;
  seti_at V.g_function_selector elementindex selector ;;
  if selector =? GATE_FUNCTION_ABSOLUTE then set_has V.has_gatefunction_absolute true
  else if selector =? GATE_FUNCTION_SIGMOID then set_has V.has_gatefunction_sigmoid true
  else if selector =? GATE_FUNCTION_TANH then set_has V.has_gatefunction_tanh true
  else if selector =? GATE_FUNCTION_RECT then set_has V.has_gatefunction_rect true
  else if selector =? GATE_FUNCTION_DIST then set_has V.has_gatefunction_one_over_x true
  else ret tt.

Definition set_nodespace_gatetype_activator (nodespace_id : Z) (gate_type : string)
    (activator_id : Z) : M unit :=
  (if String.eqb gate_type "por" then
     seti_at V.allocated_nodespaces_por_activators nodespace_id activator_id ;;
     set_has V.has_directional_activators true
   else if String.eqb gate_type "ret" then
     seti_at V.allocated_nodespaces_ret_activators nodespace_id activator_id ;;
     set_has V.has_directional_activators true
   else if String.eqb gate_type "sub" then
     seti_at V.allocated_nodespaces_sub_activators nodespace_id activator_id ;;
     set_has V.has_directional_activators true
   else if String.eqb gate_type "sur" then
     seti_at V.allocated_nodespaces_sur_activators nodespace_id activator_id ;;
     set_has V.has_directional_activators true
   else if String.eqb gate_type "cat" then
     seti_at V.allocated_nodespaces_cat_activators nodespace_id activator_id ;;
     set_has V.has_directional_activators true
   else if String.eqb gate_type "exp" then
     seti_at V.allocated_nodespaces_exp_activators nodespace_id activator_id ;;
     set_has V.has_directional_activators true
   else ret tt) ;;
  nodes_in_nodespace <-
    read (fun p => np_where_eq nodespace_id (geti p V.allocated_node_parents) 0) ;;
  forM nodes_in_nodespace (fun nid =>
    type <- geti_at V.allocated_nodes nid ;;
    when (type =? PIPE)
      (activator_offset <- geti_at V.allocated_node_offsets activator_id ;;
       offset <- geti_at V.allocated_node_offsets nid ;;
       gate <- of_option ValueError (get_numerical_gate_type gate_type) ;;
       seti_at V.allocated_elements_to_activators (offset + gate) activator_offset)).

Definition set_nodespace_sampling_activator (nodespace_id activator_id : Z) : M unit :=
  seti_at V.allocated_nodespaces_sampling_activators nodespace_id activator_id ;;
  set_has V.has_sampling_activators true ;;
  nodes_in_nodespace <-
    read (fun p => np_where_eq nodespace_id (geti p V.allocated_node_parents) 0) ;;
  forM nodes_in_nodespace (fun nid =>
    type <- geti_at V.allocated_nodes nid ;;
    when (type =? LSTM)
      (forM [GEN; POR; GIN; GOU; GFG] (fun gate =>
         activator_offset <- geti_at V.allocated_node_offsets activator_id ;;
         offset <- geti_at V.allocated_node_offsets nid ;;
         seti_at V.allocated_elements_to_activators (offset + gate) activator_offset))).

(** ** Allocation of nodes and nodespaces *)

(** [id = default; for i in indices: if self.v[i] == 0: id = i; break] *)
Fixpoint scan_free (v : V.ivar) (default : Z) (indices : list Z) : M Z :=
  match indices with
  | [] => ret default
  | i :: tl =>
      x <- geti_at v i ;;
      if x =? 0 then ret i else scan_free v default tl
  end.

(** The choice of the id when [create_node] is called without one. *)
Definition allocate_node_id : M Z :=
  last_allocated_node <- read (fun p => gets p V.last_allocated_node) ;;
  NoN <- read (fun p => gets p V.NoN) ;;
  id <- scan_free V.allocated_nodes 0 (range (last_allocated_node + 1) NoN) ;;
  id <- (if id <? 1
         then scan_free V.allocated_nodes id (range 0 (last_allocated_node - 1))
         else ret id) ;;
  if id <? 1 then
    let growby := NoN / 2 in
    let id := NoN in
    grow_number_of_nodes growby ;;
    ret id
  else ret id.

(** The inner [for j in range(0, number_of_elements)] of the offset search:
    the number of free elements in a row from [i] on, at most
    [number_of_elements]. *)
Fixpoint freecount_from (aen : list Z) (i : Z) (number_of_elements : nat) : Z :=
  match number_of_elements with
  | O => 0
  | S n =>
      if (i <? Z.of_nat (length aen)) && (nth (Z.to_nat i) aen 0 =? 0)
      then 1 + freecount_from aen (i + 1) n
      else 0
  end.

(** [while offset < 1: ...], one iteration per unit of [fuel] *)
Fixpoint find_offset (fuel : nat) (number_of_elements : Z) (i : Z)
    (has_restarted_from_zero : bool) : M Z :=
  match fuel with
  | O => raise Diverged
  | S fuel' =>
      aen <- read (fun p => geti p V.allocated_elements_to_nodes) ;;
      let freecount := freecount_from aen i (Z.to_nat number_of_elements) in
      if freecount >=? number_of_elements then ret i
      else
        let i := i + (freecount + 1) in
        NoE <- read (fun p => gets p V.NoE) ;;
        if i >=? NoE then
          if negb has_restarted_from_zero then
            find_offset fuel' number_of_elements 0 true
          else
            let growby := Z.max (number_of_elements + 1) (NoE / 2) in
            let offset := NoE in
            grow_number_of_elements growby ;;
            if offset <? 1
            then find_offset fuel' number_of_elements i has_restarted_from_zero
            else ret offset
        else find_offset fuel' number_of_elements i has_restarted_from_zero
  end.

(** enough iterations for two passes over the element vector and a growth *)
Definition find_offset_fuel (p : Partition) : nat := Z.to_nat (2 * gets p V.NoE + 8).

Definition lookup {A : Type} (key : string) (d : list (string * A)) : option A :=
  match find (fun kv => String.eqb (fst kv) key) d with
  | Some kv => Some (snd kv)
  | None => None
  end.

Definition in_strings (x : string) (l : list string) : bool :=
  existsb (String.eqb x) l.

Definition truthy (x : option Qc) : bool :=
  match x with Some q => negb (Qc_eqb q 0%Qc) | None => false end.
Definition truthyZ (x : option Z) : bool :=
  match x with Some z => negb (z =? 0) | None => false end.

(** [for gate, parameters in gate_parameters.items(): if gate in nto.gatetypes:
      for gate_parameter in parameters: self.set_node_gate_parameter(...)] *)
Definition apply_gate_parameters (nto : Nodetype) (id : Z)
    (gate_parameters : list (string * list (string * Qc))) : M unit :=
  forM gate_parameters (fun gp =>
    when (in_strings (fst gp) (gatetypes nto))
      (forM (snd gp) (fun kv =>
         set_node_gate_parameter id (fst gp) (fst kv) (snd kv)))).

Definition create_node (nodenet : Nodenet) (nodetype : string) (nodespace_id : Z)
    (id : option Z) (parameters : option (list (string * string)))
    (gate_parameters : option (list (string * list (string * Qc))))
    (gate_functions : option (list (string * string))) : M Z :=
  (* find a free ID / index in the allocated_nodes vector to hold the node type *)
  id <- match id with
        | None => allocate_node_id
        | Some id =>
            NoN <- read (fun p => gets p V.NoN) ;;
            when (id >? NoN) (grow_number_of_nodes (id - (NoN - 2))) ;;
            ret id
        end ;;
  (* now find a range of free elements to be used by this node *)
  type <- of_option ValueError (get_numerical_node_type nodetype) ;;
  number_of_elements <- of_option ValueError (get_elements_per_type type) ;;
  last_allocated_offset <- read (fun p => gets p V.last_allocated_offset) ;;
  fuel <- read find_offset_fuel ;;
  offset <- find_offset fuel number_of_elements (last_allocated_offset + 1) false ;;
  modify (sets V.last_allocated_node id) ;;
  modify (sets V.last_allocated_offset offset) ;;
  seti_at V.allocated_nodes id type ;;
  seti_at V.nodes_last_changed id (current_step nodenet) ;;
  seti_at V.allocated_node_parents id nodespace_id ;;
  seti_at V.allocated_node_offsets id offset ;;
  len <- read (fun p => Z.of_nat (length (geti p V.nodespaces_contents_last_changed))) ;;
  when (nodespace_id <? len)
    (seti_at V.nodespaces_contents_last_changed nodespace_id (current_step nodenet)) ;;
  forM (range 0 number_of_elements) (fun element =>
    seti_at V.allocated_elements_to_nodes (offset + element) id) ;;
  let parameters := match parameters with Some d => d | None => [] end in
  let nto := get_nodetype nodenet nodetype in
  (if String.eqb nodetype "Pipe" then
     set_has V.has_pipes true ;;
     seti_at V.n_function_selector (offset + GEN) NFPG_PIPE_GEN ;;
     seti_at V.n_function_selector (offset + POR) NFPG_PIPE_POR ;;
     seti_at V.n_function_selector (offset + RET) NFPG_PIPE_RET ;;
     seti_at V.n_function_selector (offset + SUB) NFPG_PIPE_SUB ;;
     seti_at V.n_function_selector (offset + SUR) NFPG_PIPE_SUR ;;
     seti_at V.n_function_selector (offset + CAT) NFPG_PIPE_CAT ;;
     seti_at V.n_function_selector (offset + EXP) NFPG_PIPE_EXP ;;
     forM [ (POR, V.allocated_nodespaces_por_activators);
            (RET, V.allocated_nodespaces_ret_activators);
            (SUB, V.allocated_nodespaces_sub_activators);
            (SUR, V.allocated_nodespaces_sur_activators);
            (CAT, V.allocated_nodespaces_cat_activators);
            (EXP, V.allocated_nodespaces_exp_activators) ]
       (fun ga =>
          activator <- geti_at (snd ga) nodespace_id ;;
          activator_offset <- geti_at V.allocated_node_offsets activator ;;
          seti_at V.allocated_elements_to_activators (offset + fst ga) activator_offset) ;;
     when (truthy (parameter_defaults_expectation nto))
       (let value := match parameter_defaults_expectation nto with
                     | Some q => q | None => 0%Qc end in
        setf_at V.g_expect (offset + GEN) value ;;
        setf_at V.g_expect (offset + SUR) value ;;
        setf_at V.g_expect (offset + POR) value) ;;
     when (truthyZ (parameter_defaults_wait nto))
       (let value := match parameter_defaults_wait nto with
                     | Some z => z | None => 0 end in
        seti_at V.g_wait (offset + SUR) (Z.min value 128) ;;
        seti_at V.g_wait (offset + POR) (Z.min value 128))
   else if String.eqb nodetype "LSTM" then
     set_has V.has_lstms true ;;
     seti_at V.n_function_selector (offset + GEN) NFPG_LSTM_GEN ;;
     seti_at V.n_function_selector (offset + POR) NFPG_LSTM_POR ;;
     seti_at V.n_function_selector (offset + GIN) NFPG_LSTM_GIN ;;
     seti_at V.n_function_selector (offset + GOU) NFPG_LSTM_GOU ;;
     seti_at V.n_function_selector (offset + GFG) NFPG_LSTM_GFG ;;
     forM [GEN; POR; GIN; GOU; GFG] (fun gate =>
       activator <- geti_at V.allocated_nodespaces_sampling_activators nodespace_id ;;
       activator_offset <- geti_at V.allocated_node_offsets activator ;;
       seti_at V.allocated_elements_to_activators (offset + gate) activator_offset)
   else if String.eqb nodetype "Activator" then
     set_has V.has_directional_activators true ;;
     match lookup "type" parameters with
     | Some activator_type =>
         when (negb (String.eqb activator_type ""))
           (if negb (String.eqb activator_type "sampling")
            then set_nodespace_gatetype_activator nodespace_id activator_type id
            else set_nodespace_sampling_activator nodespace_id id)
     | None => ret tt
     end
   else ret tt) ;;
  (* comments and native modules keep their instances in the node net *)
  apply_gate_parameters nto id (gate_defaults nto) ;;
  match gate_parameters with
  | Some gate_parameters => apply_gate_parameters nto id gate_parameters
  | None => ret tt
  end ;;
  match gate_functions with
  | Some gate_functions =>
      forM gate_functions (fun gf =>
        when (in_strings (fst gf) (gatetypes nto))
          (set_node_gatefunction_name id (fst gf) (snd gf)))
  | None => ret tt
  end ;;
  (* initialize activation to zero *)
  forM (range 0 number_of_elements) (fun element =>
    setf_at V.a (offset + element) 0%Qc) ;;
  ret id.

(** [self.v[indices] = x] for an index array and a scalar: all indices are
    checked before anything is written. *)
Definition assign_all (v : V.ivar) (indices : list Z) (x : Z) : M unit :=
  fun p =>
    match scatter (geti p v) indices 0 (map (fun _ => x) indices) with
    | Some arr => (Ok tt, seti v arr p)
    | None => (Raise IndexError, p)
    end.

(** [m[lo:hi]] *)
Definition slice {A : Type} (l : list A) (lo hi : Z) : list A :=
  firstn (Z.to_nat (Z.max 0 hi) - Z.to_nat (Z.max 0 lo)) (skipn (Z.to_nat (Z.max 0 lo)) l).

(** column indices of the non-zero entries of a block of rows *)
Definition nonzero_columns (rows : list (list Qc)) : list Z :=
  flat_map (fun row => np_where_eq 1 (map (fun x => if Qc_eqb x 0%Qc then 0 else 1) row) 0) rows.

(** indices of the rows with a non-zero entry in the columns [lo:hi] *)
Definition nonzero_rows (w : list (list Qc)) (lo hi : Z) : list Z :=
  np_where_eq 1 (map (fun row => any_nonzero (slice row lo hi)) w) 0.

Definition in_range (lo hi i : Z) : bool := (lo <=? i) && (i <? hi).
Definition memZ (i : Z) (l : list Z) : bool := existsb (Z.eqb i) l.

(** [w[rows, cols] = 0] where the entry is selected by a predicate on its
    indices *)
Definition zero_where (sel : Z -> Z -> bool) (w : list (list Qc)) : list (list Qc) :=
  map (fun ir =>
         map (fun jx => if sel (Z.of_nat (fst ir)) (Z.of_nat (fst jx)) then 0%Qc else snd jx)
             (combine (seq 0 (length (snd ir))) (snd ir)))
      (combine (seq 0 (length w)) w).

Definition unlink_node_completely (nodenet : Nodenet) (node_id : Z) : M unit :=
  type <- geti_at V.allocated_nodes node_id ;;
  offset <- geti_at V.allocated_node_offsets node_id ;;
  w_matrix <- read w ;;
  number_of_elements <- of_option ValueError (get_elements_per_type type) ;;
  let connecting_elements :=
    nonzero_columns (slice w_matrix offset (offset + number_of_elements)) in
  let connected_elements := nonzero_rows w_matrix offset (offset + number_of_elements) in
  let w_matrix :=
    zero_where (fun i j => in_range offset (offset + number_of_elements) i
                           && memZ j connecting_elements) w_matrix in
  let w_matrix :=
    zero_where (fun i j => memZ i connected_elements
                           && in_range offset (offset + number_of_elements) j) w_matrix in
  modify (set_w w_matrix) ;;
  aen <- read (fun p => geti p V.allocated_elements_to_nodes) ;;
  connecting_nodes <- of_option IndexError (gather 0 aen connecting_elements) ;;
  connected_nodes <- of_option IndexError (gather 0 aen connected_elements) ;;
  (* update all involved elements' changed-steps *)
  seti_at V.nodes_last_changed node_id (current_step nodenet) ;;
  assign_all V.nodes_last_changed connected_nodes (current_step nodenet) ;;
  assign_all V.nodes_last_changed connecting_nodes (current_step nodenet) ;;
  (* update all involved elements' parents' changed-steps *)
  parent <- geti_at V.allocated_node_parents node_id ;;
  seti_at V.nodespaces_contents_last_changed parent (current_step nodenet) ;;
  parents <- read (fun p => geti p V.allocated_node_parents) ;;
  connected_parents <- of_option IndexError (gather 0 parents connected_nodes) ;;
  assign_all V.nodespaces_contents_last_changed connected_parents (current_step nodenet) ;;
  connecting_parents <- of_option IndexError (gather 0 parents connecting_nodes) ;;
  assign_all V.nodespaces_contents_last_changed connecting_parents (current_step nodenet).

Definition delete_node (nodenet : Nodenet) (node_id : Z) : M unit :=
  type <- geti_at V.allocated_nodes node_id ;;
  offset <- geti_at V.allocated_node_offsets node_id ;;
  parent <- geti_at V.allocated_node_parents node_id ;;
  unlink_node_completely nodenet node_id ;;
  parent' <- geti_at V.allocated_node_parents node_id ;;
  seti_at V.nodespaces_contents_last_changed parent' (current_step nodenet) ;;
  (* forget *)
  seti_at V.allocated_nodes node_id 0 ;;
  seti_at V.allocated_node_offsets node_id 0 ;;
  seti_at V.allocated_node_parents node_id 0 ;;
  number_of_elements <- of_option ValueError (get_elements_per_type type) ;;
  forM (range 0 number_of_elements) (fun element =>
    seti_at V.allocated_elements_to_nodes (offset + element) 0 ;;
    seti_at V.g_function_selector (offset + element) 0) ;;
  still <- read (fun p => np_where_eq node_id (geti p V.allocated_elements_to_nodes) 0) ;;
  assign_all V.allocated_elements_to_nodes still 0 ;;
  when (type =? SENSOR)
    (sensor_index <- read (fun p => np_where_eq node_id (geti p V.sensor_indices) 0) ;;
     assign_all V.sensor_indices sensor_index 0) ;;
  when (type =? ACTUATOR)
    (actuator_index <- read (fun p => np_where_eq node_id (geti p V.actuator_indices) 0) ;;
     assign_all V.actuator_indices actuator_index 0) ;;
  when (type =? PIPE)
    (forM [GEN; POR; RET; SUB; SUR; CAT; EXP] (fun gate =>
       seti_at V.n_function_selector (offset + gate) NFPG_PIPE_NON)) ;;
  when (type =? LSTM)
    (forM [GEN; POR; GIN; GOU; GFG] (fun gate =>
       seti_at V.n_function_selector (offset + gate) NFPG_PIPE_NON)) ;;
  (* hint at the free ID *)
  modify (sets V.last_allocated_node (node_id - 1)) ;;
  (* clear activator usage if there should be one *)
  used_as_activator_by <-
    read (fun p => np_where_eq offset (geti p V.allocated_elements_to_activators) 0) ;;
  assign_all V.allocated_elements_to_activators used_as_activator_by 0 ;;
  por <- geti_at V.allocated_nodespaces_por_activators parent ;;
  (if por =? node_id then seti_at V.allocated_nodespaces_por_activators parent 0 else
   ret_ <- geti_at V.allocated_nodespaces_ret_activators parent ;;
   if ret_ =? node_id then seti_at V.allocated_nodespaces_ret_activators parent 0 else
   sub <- geti_at V.allocated_nodespaces_sub_activators parent ;;
   if sub =? node_id then seti_at V.allocated_nodespaces_sub_activators parent 0 else
   sur <- geti_at V.allocated_nodespaces_sur_activators parent ;;
   if sur =? node_id then seti_at V.allocated_nodespaces_sur_activators parent 0 else
   cat <- geti_at V.allocated_nodespaces_cat_activators parent ;;
   if cat =? node_id then seti_at V.allocated_nodespaces_cat_activators parent 0 else
   exp <- geti_at V.allocated_nodespaces_exp_activators parent ;;
   if exp =? node_id then seti_at V.allocated_nodespaces_exp_activators parent 0 else
   ret tt) ;;
  sampling <- geti_at V.allocated_nodespaces_sampling_activators parent ;;
  when (sampling =? node_id)
    (seti_at V.allocated_nodespaces_sampling_activators parent 0).

(** The choice of the id when [create_nodespace] is called without one. *)
Definition allocate_nodespace_id : M Z :=
  last_allocated_nodespace <- read (fun p => gets p V.last_allocated_nodespace) ;;
  NoNS <- read (fun p => gets p V.NoNS) ;;
  id <- scan_free V.allocated_nodespaces 0 (range (last_allocated_nodespace + 1) NoNS) ;;
  id <- (if id <? 1
         then scan_free V.allocated_nodespaces id (range 0 (last_allocated_nodespace - 1))
         else ret id) ;;
  if id <? 1 then
    let growby := if NoNS / 2 =? 0 then 1 else NoNS / 2 in
    let id := NoNS in
    grow_number_of_nodespaces growby ;;
    ret id
  else ret id.

Definition create_nodespace (nodenet : Nodenet) (parent_id : Z) (id : option Z) : M Z :=
  id <- match id with
        | None => allocate_nodespace_id
        | Some id => ret id
        end ;;
  modify (sets V.last_allocated_nodespace id) ;;
  seti_at V.allocated_nodespaces id parent_id ;;
  seti_at V.nodespaces_last_changed id (current_step nodenet) ;;
  seti_at V.nodespaces_contents_last_changed parent_id (current_step nodenet) ;;
  ret id.

(** [delete_nodespace] first asks the node net to delete the child nodespaces
    and the member nodes; the node net (not among the sources) does so through
    [delete_nodespace] and [delete_node] of the partition, which are steps of
    their own here.  What follows is the partition's own part. *)
Definition delete_nodespace (nodenet : Nodenet) (nodespace_id : Z) : M unit :=
  seti_at V.allocated_nodespaces nodespace_id 0 ;;
  modify (sets V.last_allocated_nodespace nodespace_id) ;;
  parent <- geti_at V.allocated_nodespaces nodespace_id ;;
  seti_at V.nodespaces_contents_last_changed parent (current_step nodenet).

(** ** Links *)

(** [w_matrix[x, y] = weight]; [None] is the [IndexError]. *)
Definition mset (w : list (list Qc)) (x y : Z) (weight : Qc) : option (list (list Qc)) :=
  match py_index (length w) x with
  | Some i =>
      let row := nth i w [] in
      match py_index (length row) y with
      | Some j => Some (set_nth i (set_nth j weight row) w)
      | None => None
      end
  | None => None
  end.

Definition set_link_weight (nodenet : Nodenet) (source_node_id : Z) (gate_type : string)
    (target_node_id : Z) (slot_type : string) (weight : Qc) : M unit :=
  source_type <- geti_at V.allocated_nodes source_node_id ;;
  target_type <- geti_at V.allocated_nodes target_node_id ;;
  ngt <- of_option ValueError (get_numerical_gate_type gate_type) ;;
  nst <- of_option ValueError (get_numerical_slot_type slot_type) ;;
  gates <- of_option ValueError (get_gates_per_type source_type) ;;
  (if ngt >? gates then raise ValueError else ret tt) ;;
  slots <- of_option ValueError (get_slots_per_type target_type) ;;
  (if nst >? slots then raise ValueError else ret tt) ;;
  w_matrix <- read w ;;
  target_offset <- geti_at V.allocated_node_offsets target_node_id ;;
  let x := target_offset + nst in
  source_offset <- geti_at V.allocated_node_offsets source_node_id ;;
  let y := source_offset + ngt in
  w_matrix <- of_option IndexError (mset w_matrix x y weight) ;;
  modify (set_w w_matrix) ;;
  seti_at V.nodes_last_changed source_node_id (current_step nodenet) ;;
  seti_at V.nodes_last_changed target_node_id (current_step nodenet) ;;
  source_parent <- geti_at V.allocated_node_parents source_node_id ;;
  seti_at V.nodespaces_contents_last_changed source_parent (current_step nodenet) ;;
  target_parent <- geti_at V.allocated_node_parents target_node_id ;;
  seti_at V.nodespaces_contents_last_changed target_parent (current_step nodenet) ;;
  target_type <- geti_at V.allocated_nodes target_node_id ;;
  when (String.eqb slot_type "por" && (target_type =? PIPE))
    (forM (range 0 7) (fun g =>
       offset <- geti_at V.allocated_node_offsets target_node_id ;;
       seti_at V.n_node_porlinked (offset + g) (if Qc_eqb weight 0%Qc then 0 else 1))) ;;
  target_type <- geti_at V.allocated_nodes target_node_id ;;
  when (String.eqb slot_type "ret" && (target_type =? PIPE))
    (forM (range 0 7) (fun g =>
       offset <- geti_at V.allocated_node_offsets target_node_id ;;
       seti_at V.n_node_retlinked (offset + g) (if Qc_eqb weight 0%Qc then 0 else 1))).

(** ** Groups and the bulk interface *)

(** [d[key] = value] on a dict *)
Fixpoint dict_set {A : Type} (key : string) (value : A) (d : list (string * A))
  : list (string * A) :=
  match d with
  | [] => [(key, value)]
  | kv :: tl => if String.eqb (fst kv) key then (key, value) :: tl
                else kv :: dict_set key value tl
  end.

(** [self.nodegroups[nodespace_uid][group]]; [None] when either key is
    missing *)
Definition lookup_group (p : Partition) (nodespace_uid group : string) : option (list Z) :=
  match lookup nodespace_uid (nodegroups p) with
  | Some groups => lookup group groups
  | None => None
  end.

Definition group_nodes_by_ids (nodenet : Nodenet) (nodespace_uid : string) (ids : list Z)
    (group_name : string) (gatetype : string) : M unit :=
  modify (fun p =>
    match lookup nodespace_uid (nodegroups p) with
    | Some _ => p
    | None => set_nodegroups (dict_set nodespace_uid [] (nodegroups p)) p
    end) ;;
  let parent_id := nodespace_from_id nodenet nodespace_uid in
  parents <- read (fun p => geti p V.allocated_node_parents) ;;
  parents_of_ids <- of_option IndexError (gather 0 parents ids) ;;
  (if existsb (fun x => negb (x =? parent_id)) parents_of_ids
   then raise ValueError else ret tt) ;;
  gate <- of_option ValueError (get_numerical_gate_type gatetype) ;;
  offsets <- read (fun p => geti p V.allocated_node_offsets) ;;
  offsets_of_ids <- of_option IndexError (gather 0 offsets ids) ;;
  modify (fun p =>
    let groups := match lookup nodespace_uid (nodegroups p) with
                  | Some g => g | None => [] end in
    set_nodegroups
      (dict_set nodespace_uid
         (dict_set group_name (map (fun o => o + gate) offsets_of_ids) groups)
         (nodegroups p)) p).

(** [arr[indices] = values] of numpy for one-dimensional arrays: the indices
    are checked, a value array of the same length is stored item by item, one
    of length [1] is broadcast, any other length is a [ValueError]. *)
Definition np_assign {A : Type} (arr : list A) (indices : list Z) (values : list A)
  : outcome (list A) :=
  if forallb (fun i => match py_index (length arr) i with Some _ => true | None => false end)
       indices
  then
    let store vals :=
      fold_left (fun acc iv => match py_index (length arr) (fst iv) with
                               | Some n => set_nth n (snd iv) acc
                               | None => acc
                               end) (combine indices vals) arr in
    if Nat.eqb (length values) (length indices) then Ok (store values)
    else match values with
         | x :: nil => Ok (store (map (fun _ => x) indices))
         | _ => Raise ValueError
         end
  else Raise IndexError.

Definition of_outcome {A : Type} (o : outcome A) : M A :=
  match o with Ok x => ret x | Raise e => raise e end.

Definition get_activations (nodespace_uid group : string) : M (list Qc) :=
  g <- read (fun p => lookup_group p nodespace_uid group) ;;
  match g with
  | None => raise ValueError
  | Some indices =>
      a_array <- read (fun p => getf p V.a) ;;
      of_option IndexError (gather 0%Qc a_array indices)
  end.

Definition set_activations (nodespace_uid group : string) (new_activations : list Qc)
  : M unit :=
  g <- read (fun p => lookup_group p nodespace_uid group) ;;
  match g with
  | None => raise ValueError
  | Some indices =>
      a_array <- read (fun p => getf p V.a) ;;
      a_array <- of_outcome (np_assign a_array indices new_activations) ;;
      modify (setf V.a a_array)
  end.

Definition get_thetas (nodespace_uid group : string) : M (list Qc) :=
  g <- read (fun p => lookup_group p nodespace_uid group) ;;
  match g with
  | None => raise ValueError
  | Some indices =>
      g_theta_array <- read (fun p => getf p V.g_theta) ;;
      of_option IndexError (gather 0%Qc g_theta_array indices)
  end.

Definition set_thetas (nodespace_uid group : string) (thetas : list Qc) : M unit :=
  g <- read (fun p => lookup_group p nodespace_uid group) ;;
  match g with
  | None => raise ValueError
  | Some indices =>
      g_theta_array <- read (fun p => getf p V.g_theta) ;;
      g_theta_array <- of_outcome (np_assign g_theta_array indices thetas) ;;
      modify (setf V.g_theta g_theta_array)
  end.

(** [w_matrix[rows, cols]] for [cols, rows = np.meshgrid(grp_from, grp_to)] *)
Definition get_block (w : list (list Qc)) (grp_from grp_to : list Z)
  : option (list (list Qc)) :=
  match rows_of w grp_to with
  | Some rows =>
      fold_right (fun row acc =>
                    match gather 0%Qc row grp_from, acc with
                    | Some r, Some rs => Some (r :: rs)
                    | _, _ => None
                    end) (Some []) rows
  | None => None
  end.

(** numpy broadcasting of a two-dimensional value to the shape [(R, C)] *)
Definition broadcast2 (R C : nat) (new_w : list (list Qc)) : option (list (list Qc)) :=
  let fit_row row :=
    if Nat.eqb (length row) C then Some row
    else match row with
         | x :: nil => Some (repeat x C)
         | _ => None
         end in
  let rows := map fit_row new_w in
  if forallb (fun r => match r with Some _ => true | None => false end) rows then
    let rows := map (fun r => match r with Some r => r | None => [] end) rows in
    if Nat.eqb (length rows) R then Some rows
    else match rows with
         | r :: nil => Some (repeat r R)
         | _ => None
         end
  else None.

(** [w_matrix[rows, cols] = new_w] *)
Definition set_block (w : list (list Qc)) (grp_from grp_to : list Z)
    (new_w : list (list Qc)) : outcome (list (list Qc)) :=
  match get_block w grp_from grp_to with
  | None => Raise IndexError
  | Some _ =>
      match broadcast2 (length grp_to) (length grp_from) new_w with
      | None => Raise ValueError
      | Some block =>
          Ok (fold_left
                (fun acc xr =>
                   fold_left (fun acc yv =>
                                match mset acc (fst xr) (fst yv) (snd yv) with
                                | Some w' => w'
                                | None => acc
                                end) (combine grp_from (snd xr)) acc)
                (combine grp_to block) w)
      end
  end.

Definition get_link_weights (nodespace_from_uid group_from nodespace_to_uid group_to : string)
  : M (list (list Qc)) :=
  gf <- read (fun p => lookup_group p nodespace_from_uid group_from) ;;
  match gf with
  | None => raise ValueError
  | Some grp_from =>
      gt <- read (fun p => lookup_group p nodespace_to_uid group_to) ;;
      match gt with
      | None => raise ValueError
      | Some grp_to =>
          w_matrix <- read w ;;
          of_option IndexError (get_block w_matrix grp_from grp_to)
      end
  end.

(** The group checks of this function are commented out in the source: a
    missing group is the [KeyError] of the dict lookup. *)
Definition set_link_weights (nodenet : Nodenet)
    (nodespace_from_uid group_from nodespace_to_uid group_to : string)
    (new_w : list (list Qc)) : M unit :=
  w_matrix <- read w ;;
  gf <- read (fun p => lookup_group p nodespace_from_uid group_from) ;;
  grp_from <- of_option KeyError gf ;;
  gt <- read (fun p => lookup_group p nodespace_to_uid group_to) ;;
  grp_to <- of_option KeyError gt ;;
  w_matrix <- of_outcome (set_block w_matrix grp_from grp_to new_w) ;;
  modify (set_w w_matrix) ;;
  let cstep := current_step nodenet in
  aen <- read (fun p => geti p V.allocated_elements_to_nodes) ;;
  from_nodes <- of_option IndexError (gather 0 aen grp_from) ;;
  assign_all V.nodes_last_changed from_nodes cstep ;;
  parents <- read (fun p => geti p V.allocated_node_parents) ;;
  from_parents <- of_option IndexError (gather 0 parents from_nodes) ;;
  assign_all V.nodespaces_contents_last_changed from_parents cstep ;;
  to_nodes <- of_option IndexError (gather 0 aen grp_to) ;;
  assign_all V.nodes_last_changed to_nodes cstep ;;
  to_parents <- of_option IndexError (gather 0 parents to_nodes) ;;
  assign_all V.nodespaces_contents_last_changed to_parents cstep ;;
  modify (fun p => setb V.por_ret_dirty (getb p V.has_pipes) p).

Definition ungroup_nodes (nodespace_uid group : string) : M unit :=
  modify (fun p =>
    match lookup nodespace_uid (nodegroups p) with
    | Some groups =>
        set_nodegroups
          (dict_set nodespace_uid
             (filter (fun kv => negb (String.eqb (fst kv) group)) groups)
             (nodegroups p)) p
    | None => p
    end).

(** ** Inter-partition links *)

(** insertion into a sorted list without duplicates *)
Fixpoint insert_sorted (x : Z) (l : list Z) : list Z :=
  match l with
  | [] => [x]
  | y :: tl => if x <? y then x :: l
               else if x =? y then l
               else y :: insert_sorted x tl
  end.

(** [np.union1d]: the sorted union without duplicates *)
Definition np_union1d (x y : list Z) : list Z :=
  fold_left (fun acc z => insert_sorted z acc) (x ++ y) [].

(** [np.searchsorted(a, v)] for one value: the number of items below [v] *)
Definition searchsorted1 (a : list Z) (v : Z) : Z :=
  Z.of_nat (length (filter (fun y => y <? v) a)).
Definition np_searchsorted (a v : list Z) : list Z := map (searchsorted1 a) v.

Definition lookupZ {A : Type} (key : Z) (d : list (Z * A)) : option A :=
  match find (fun kv => fst kv =? key) d with
  | Some kv => Some (snd kv)
  | None => None
  end.

Fixpoint dict_setZ {A : Type} (key : Z) (value : A) (d : list (Z * A)) : list (Z * A) :=
  match d with
  | [] => [(key, value)]
  | kv :: tl => if fst kv =? key then (key, value) :: tl
                else kv :: dict_setZ key value tl
  end.

(** The part of [set_inlink_weights] that works on the partition the links
    lead to.  The source partition is named by its [pid]. *)
Definition set_inlink_weights (nodenet : Nodenet) (partition_from_pid : Z)
    (new_from_elements new_to_elements : list Z) (new_weights : list (list Qc)) : M unit :=
  old <- read (fun p => match lookupZ partition_from_pid (inlinks p) with
                        | Some blk => blk
                        | None => mkInlink [] [] []
                        end) ;;
  let old_from_elements := from_elements old in
  let old_to_elements := to_elements old in
  let old_weights := weights old in
  let from_elements := np_union1d old_from_elements new_from_elements in
  let to_elements := np_union1d old_to_elements new_to_elements in
  let weights := repeat (zeros (length from_elements)) (length to_elements) in
  let old_from_indices := np_searchsorted from_elements old_from_elements in
  let old_to_indices := np_searchsorted to_elements old_to_elements in
  weights <- of_outcome (set_block weights old_from_indices old_to_indices old_weights) ;;
  let new_from_indices := np_searchsorted from_elements new_from_elements in
  let new_to_indices := np_searchsorted to_elements new_to_elements in
  weights <- of_outcome (set_block weights new_from_indices new_to_indices new_weights) ;;
  aen <- read (fun p => geti p V.allocated_elements_to_nodes) ;;
  to_nodes <- of_option IndexError (gather 0 aen to_elements) ;;
  forM to_nodes (fun id =>
    seti_at V.nodes_last_changed id (current_step nodenet) ;;
    parent <- geti_at V.allocated_node_parents id ;;
    seti_at V.nodespaces_contents_last_changed parent (current_step nodenet)) ;;
  modify (fun p =>
    set_inlinks (dict_setZ partition_from_pid (mkInlink from_elements to_elements weights)
                   (inlinks p)) p).

(** The part of [set_inlink_weights] that marks the nodes of the source
    partition as changed; it runs on the source partition. *)
Definition set_inlink_weights_from (nodenet : Nodenet) (from_elements : list Z) : M unit :=
  aen <- read (fun p => geti p V.allocated_elements_to_nodes) ;;
  from_nodes <- of_option IndexError (gather 0 aen from_elements) ;;
  forM from_nodes (fun id =>
    seti_at V.nodes_last_changed id (current_step nodenet) ;;
    parent <- geti_at V.allocated_node_parents id ;;
    seti_at V.nodespaces_contents_last_changed parent (current_step nodenet)).

(** [T.inc_subtensor(x[indices], y)] *)
Fixpoint inc_subtensor (x : list Qc) (indices : list Z) (y : list Qc) : option (list Qc) :=
  match indices, y with
  | i :: tl, v :: tl' =>
      match py_index (length x) i with
      | Some n => inc_subtensor (set_nth n (nth n x 0%Qc + v)%Qc x) tl tl'
      | None => None
      end
  | _, _ => Some x
  end.

(** The function [get_compiled_propagate_inlinks] returns, for the block
    [blk] of links from [from_partition]:
    [propagated_a = T.dot(weights, from_partition.a[from_elements])],
    [a_in[to_elements] += propagated_a]. *)
Definition propagate_inlinks (from_partition : Partition) (blk : Inlink) : M unit :=
  from_a <- of_option IndexError
              (gather 0%Qc (getf from_partition V.a) (from_elements blk)) ;;
  let propagated_a := mdot (weights blk) from_a in
  a_in <- read (fun p => getf p V.a_in) ;;
  a_in <- of_option IndexError (inc_subtensor a_in (to_elements blk) propagated_a) ;;
  modify (setf V.a_in a_in).

(** ** Persistence *)

(** The keyed archive [np.savez] writes and [np.load] reads: an absent key is
    [None]. *)
Record Archive : Type := mkArchive {
  ar_i : V.ivar -> option (list Z);
  ar_f : V.fvar -> option (list Qc);
  ar_w_data : option (list Qc);
  ar_w_indices : option (list Z);
  ar_w_indptr : option (list Z);
  ar_sizeinformation : option (list Z);
  ar_inlink_pids : option (list Z);
  ar_inlink_from_lengths : option (list Z);
  ar_inlink_to_lengths : option (list Z);
  ar_inlink_from_elements : option (list Z);
  ar_inlink_to_elements : option (list Z);
  ar_inlink_weights : option (list Qc)
}.

(** *** compressed sparse rows *)

Definition row_data (row : list Qc) : list Qc :=
  filter (fun x => negb (Qc_eqb x 0%Qc)) row.

Fixpoint row_indices_from (j : Z) (row : list Qc) : list Z :=
  match row with
  | [] => []
  | x :: tl => if Qc_eqb x 0%Qc then row_indices_from (j + 1) tl
               else j :: row_indices_from (j + 1) tl
  end.
Definition row_indices (row : list Qc) : list Z := row_indices_from 0 row.

Fixpoint indptr_from (start : Z) (w : list (list Qc)) : list Z :=
  match w with
  | [] => [start]
  | row :: tl => start :: indptr_from (start + Z.of_nat (length (row_data row))) tl
  end.

(** [sp.csr_matrix(w)]: [(data, indices, indptr)] *)
Definition csr_of_dense (w : list (list Qc)) : list Qc * list Z * list Z :=
  (flat_map row_data w, flat_map row_indices w, indptr_from 0 w).

(** one row of [csr_matrix((data, indices, indptr), shape)] made dense *)
Fixpoint dense_row (ncols : nat) (data : list Qc) (indices : list Z) : list Qc :=
  match data, indices with
  | x :: tl, j :: tl' => set_nth (Z.to_nat j) x (dense_row ncols tl tl')
  | _, _ => zeros ncols
  end.

Fixpoint dense_rows (ncols : nat) (data : list Qc) (indices indptr : list Z)
  : list (list Qc) :=
  match indptr with
  | lo :: ((hi :: _) as tl) =>
      dense_row ncols (slice data lo hi) (slice indices lo hi)
      :: dense_rows ncols data indices tl
  | _ => []
  end.

(** [sp.csr_matrix((data, indices, indptr), shape=(n, n))] made dense; the
    shape checks of scipy are the [ValueError]. *)
Definition dense_of_csr (n : nat) (data : list Qc) (indices indptr : list Z)
  : outcome (list (list Qc)) :=
  if Nat.eqb (length indptr) (S n)
     && Nat.eqb (length data) (length indices)
     && forallb (fun j => (0 <=? j) && (j <? Z.of_nat n)) indices
  then Ok (dense_rows n data indices indptr)
  else Raise ValueError.

(** *** [save] *)

Definition saved_ivars : list V.ivar :=
  [ V.allocated_nodes; V.allocated_node_offsets; V.allocated_elements_to_nodes;
    V.allocated_node_parents; V.allocated_nodespaces;
    V.g_function_selector; V.g_countdown; V.g_wait; V.n_function_selector;
    V.allocated_elements_to_activators;
    V.allocated_nodespaces_por_activators; V.allocated_nodespaces_ret_activators;
    V.allocated_nodespaces_sub_activators; V.allocated_nodespaces_sur_activators;
    V.allocated_nodespaces_cat_activators; V.allocated_nodespaces_exp_activators;
    V.allocated_nodespaces_sampling_activators ].

Definition saved_fvars : list V.fvar :=
  [ V.a; V.g_theta; V.g_factor; V.g_threshold; V.g_amplification; V.g_min; V.g_max;
    V.g_expect ].

Definition mem_ivar (v : V.ivar) (l : list V.ivar) : bool := existsb (ivar_beq v) l.
Definition mem_fvar (v : V.fvar) (l : list V.fvar) : bool := existsb (fvar_beq v) l.

(** [np.ravel] *)
Definition np_ravel {A : Type} (m : list (list A)) : list A := concat m.

Definition save (p : Partition) : Archive :=
  let '(w_data, w_indices, w_indptr) := csr_of_dense (w p) in
  let blocks := inlinks p in
  mkArchive
    (fun v => if mem_ivar v saved_ivars then Some (geti p v) else None)
    (fun v => if mem_fvar v saved_fvars then Some (getf p v) else None)
    (Some w_data) (Some w_indices) (Some w_indptr)
    (Some [gets p V.NoN; gets p V.NoE; gets p V.NoNS])
    (Some (map fst blocks))
    (Some (map (fun kb => Z.of_nat (length (from_elements (snd kb)))) blocks))
    (Some (map (fun kb => Z.of_nat (length (to_elements (snd kb)))) blocks))
    (Some (flat_map (fun kb => from_elements (snd kb)) blocks))
    (Some (flat_map (fun kb => to_elements (snd kb)) blocks))
    (Some (flat_map (fun kb => np_ravel (weights (snd kb))) blocks)).

(** *** [load_data] *)

Definition load_i (datafile : Archive) (v : V.ivar) : M unit :=
  match ar_i datafile v with
  | Some x => modify (seti v x)
  | None => ret tt
  end.

Definition load_f (datafile : Archive) (v : V.fvar) : M unit :=
  match ar_f datafile v with
  | Some x => modify (setf v x)
  | None => ret tt
  end.

Definition sumZ (x : list Z) : Z := fold_right Z.add 0 x.

Definition load_data (nodenet : Nodenet) (datafile : option Archive) : M unit :=
  match datafile with
  | None => ret tt
  | Some datafile =>
      match ar_sizeinformation datafile with
      | Some sizeinformation =>
          NoN <- of_option IndexError (nth_error sizeinformation 0) ;;
          modify (sets V.NoN NoN) ;;
          NoE <- of_option IndexError (nth_error sizeinformation 1) ;;
          modify (sets V.NoE NoE) ;;
          NoNS <- of_option IndexError (nth_error sizeinformation 2) ;;
          modify (sets V.NoNS NoNS) ;;
          (* rebuild the ephemerals *)
          modify (seti V.nodes_last_changed (repeat (-1) (Z.to_nat NoN))) ;;
          modify (seti V.nodespaces_last_changed (repeat (-1) (Z.to_nat NoNS))) ;;
          modify (seti V.nodespaces_contents_last_changed (repeat (-1) (Z.to_nat NoNS))) ;;
          modify (setf V.a_prev (zeros (Z.to_nat NoE)))
      | None => ret tt
      end ;;
      (* the load bulk data into numpy arrays *)
      load_i datafile V.allocated_nodes ;;
      load_i datafile V.allocated_node_offsets ;;
      load_i datafile V.allocated_elements_to_nodes ;;
      load_i datafile V.allocated_nodespaces ;;
      load_i datafile V.allocated_node_parents ;;
      load_i datafile V.allocated_elements_to_activators ;;
      load_i datafile V.allocated_nodespaces_por_activators ;;
      load_i datafile V.allocated_nodespaces_ret_activators ;;
      load_i datafile V.allocated_nodespaces_sub_activators ;;
      load_i datafile V.allocated_nodespaces_sur_activators ;;
      load_i datafile V.allocated_nodespaces_cat_activators ;;
      load_i datafile V.allocated_nodespaces_exp_activators ;;
      load_i datafile V.allocated_nodespaces_sampling_activators ;;
      match ar_w_data datafile, ar_w_indices datafile, ar_w_indptr datafile with
      | Some w_data, Some w_indices, Some w_indptr =>
          NoE <- read (fun p => gets p V.NoE) ;;
          w <- of_outcome (dense_of_csr (Z.to_nat NoE) w_data w_indices w_indptr) ;;
          modify (set_w w) ;;
          a <- of_option KeyError (ar_f datafile V.a) ;;
          modify (setf V.a a) ;;
          modify (setf V.a_in (zeros_like a))
      | _, _, _ => ret tt
      end ;;
      load_f datafile V.g_theta ;;
      load_f datafile V.g_factor ;;
      load_f datafile V.g_threshold ;;
      load_f datafile V.g_amplification ;;
      load_f datafile V.g_min ;;
      load_f datafile V.g_max ;;
      load_i datafile V.g_function_selector ;;
      load_f datafile V.g_expect ;;
      load_i datafile V.g_countdown ;;
      load_i datafile V.g_wait ;;
      load_i datafile V.n_function_selector ;;
      (* reconstruct other states *)
      modify (setb V.por_ret_dirty true) ;;
      match ar_i datafile V.g_function_selector with
      | Some g_function_selector =>
          modify (setb V.has_new_usages true) ;;
          allocated_nodes <- read (fun p => geti p V.allocated_nodes) ;;
          set_has V.has_pipes (memZ PIPE allocated_nodes) ;;
          set_has V.has_lstms (memZ LSTM allocated_nodes) ;;
          directional <- read (fun p =>
            (sumZ (geti p V.allocated_nodespaces_por_activators) >? 0)
            || (sumZ (geti p V.allocated_nodespaces_ret_activators) >? 0)
            || (sumZ (geti p V.allocated_nodespaces_sub_activators) >? 0)
            || (sumZ (geti p V.allocated_nodespaces_sur_activators) >? 0)
            || (sumZ (geti p V.allocated_nodespaces_cat_activators) >? 0)
            || (sumZ (geti p V.allocated_nodespaces_exp_activators) >? 0)) ;;
          set_has V.has_directional_activators directional ;;
          sampling <- read (fun p =>
            sumZ (geti p V.allocated_nodespaces_sampling_activators) >? 0) ;;
          set_has V.has_sampling_activators sampling ;;
          set_has V.has_gatefunction_absolute (memZ GATE_FUNCTION_ABSOLUTE g_function_selector) ;;
          set_has V.has_gatefunction_sigmoid (memZ GATE_FUNCTION_SIGMOID g_function_selector) ;;
          set_has V.has_gatefunction_tanh (memZ GATE_FUNCTION_TANH g_function_selector) ;;
          set_has V.has_gatefunction_rect (memZ GATE_FUNCTION_RECT g_function_selector) ;;
          set_has V.has_gatefunction_one_over_x (memZ GATE_FUNCTION_DIST g_function_selector)
      | None => ret tt
      end ;;
      (* the instances of comments and native modules live in the node net *)
      (* initialize early *)
      modify (sets V.t (current_step nodenet)) ;;
      has_new_usages <- read (fun p => getb p V.has_new_usages) ;;
      when has_new_usages
        (compile_propagate ;;
         compile_calculate_nodes ;;
         modify (setb V.has_new_usages false)) ;;
      por_ret_dirty <- read (fun p => getb p V.por_ret_dirty) ;;
      when por_ret_dirty
        (rebuild_por_linked ;;
         rebuild_ret_linked ;;
         modify (setb V.por_ret_dirty false)) ;;
      pipes_or_lstms <- read (fun p => getb p V.has_pipes || getb p V.has_lstms) ;;
      when pipes_or_lstms rebuild_shifted ;;
      activators <- read (fun p => getb p V.has_directional_activators
                                   || getb p V.has_sampling_activators) ;;
      when activators calculate_g_factors
  end.

(** ** One tick of a partition and the scheduler *)

Section Tick.

Variables sigmoid tanh : Qc -> Qc.
Variable behind : Z -> Memory.

(** One tick of a single partition: linear propagation, then the
    non-linear update. *)
Definition tick (current_step : Z) : M unit :=
  modify propagate ;;
  calculate sigmoid tanh behind current_step.

(** [N] ticks, the step counter running from [current_step] *)
Fixpoint ticks (N : nat) (current_step : Z) : M unit :=
  match N with
  | O => ret tt
  | S n => tick current_step ;; ticks n (current_step + 1)
  end.

(** A node net: its partitions by [pid], and its step counter. *)
Record Net : Type := mkNet {
  partitions : list (Z * Partition);
  net_step : Z
  }.

Definition run_all (m : M unit) (ps : list (Z * Partition)) : list (Z * Partition) :=
  map (fun kp => (fst kp, snd (m (snd kp)))) ps.

Definition run_each (m : Z -> M unit) (ps : list (Z * Partition)) : list (Z * Partition) :=
  map (fun kp => (fst kp, snd (m (fst kp) (snd kp)))) ps.

(** the cross-partition contributions into one partition, read from the
    partitions [srcs] *)
Definition contributions (srcs : list (Z * Partition)) : M unit :=
  blocks <- read inlinks ;;
  forM blocks (fun kb =>
  match lookupZ (fst kb) srcs with
  | Some from_partition => propagate_inlinks from_partition (snd kb)
  | None => raise KeyError
  end).

(** Modelled from the spec: the scheduler is not among the sources.  One
    tick in the order of section 4.8: (2) every partition propagates, (3)
    every link block adds its contribution to the [a_in] of its destination,
    reading the source's [a] after step 2, (4) every partition runs the
    non-linear update, (6) the step counter is incremented.  Every
    partition has its own memory behind its views, [behind_of pid]. *)
Definition scheduler_tick (behind_of : Z -> Z -> Memory) (net : Net) : Net :=
  let ps := run_all (modify propagate) (partitions net) in
  let ps := run_all (contributions ps) ps in
  let ps := run_each (fun pid => calculate sigmoid tanh (behind_of pid) (net_step net)) ps in
  mkNet ps (net_step net + 1).

End Tick.

(** ** Example node net *)

(** A node net whose node types carry no gate defaults; Pipes expect [1] and
    wait [10] steps. *)
Definition example_nodetype (nodetype : string) : Nodetype :=
  if String.eqb nodetype "Pipe" then
    mkNodetype ["gen"; "por"; "ret"; "sub"; "sur"; "cat"; "exp"]%string []
      (Some 1%Qc) (Some 10)
  else if String.eqb nodetype "LSTM" then
    mkNodetype ["gen"; "por"; "gin"; "gou"; "gfg"]%string [] None None
  else mkNodetype ("gen"%string :: nil) [] None None.

Definition example_nodenet (step : Z) : Nodenet :=
  mkNodenet step example_nodetype (fun _ => 1).

Definition create_register : M Z :=
  create_node (example_nodenet 0) "Register" 1 None None None None.

Definition create_pipe : M Z :=
  create_node (example_nodenet 0) "Pipe" 1 None None None None.

(** * Properties *)

(** ** Stores, lists and the monad *)

Section StoreFacts.

Variable p : Partition.

Lemma getf_setf (v v' : V.fvar) (x : list Qc) :
  getf (setf v x p) v' = if fvar_beq v v' then x else getf p v'.
Proof. reflexivity. Qed.

Lemma geti_seti (v v' : V.ivar) (x : list Z) :
  geti (seti v x p) v' = if ivar_beq v v' then x else geti p v'.
Proof. reflexivity. Qed.

Lemma gets_sets (v v' : V.svar) (x : Z) :
  gets (sets v x p) v' = if svar_beq v v' then x else gets p v'.
Proof. reflexivity. Qed.

Lemma getb_setb (v v' : V.bvar) (x : bool) :
  getb (setb v x p) v' = if bvar_beq v v' then x else getb p v'.
Proof. destruct v, v'; reflexivity. Qed.

End StoreFacts.

Lemma fvar_beq_refl (v : V.fvar) : fvar_beq v v = true.
Proof. destruct v; reflexivity. Qed.

Lemma fvar_beq_neq (v v' : V.fvar) : v <> v' -> fvar_beq v v' = false.
Proof.
  intros H. destruct (fvar_beq v v') eqn:E; [|reflexivity].
  exfalso. apply H. apply internal_fvar_dec_bl. exact E.
Qed.

Lemma ivar_beq_refl (v : V.ivar) : ivar_beq v v = true.
Proof. destruct v; reflexivity. Qed.

Lemma ivar_beq_neq (v v' : V.ivar) : v <> v' -> ivar_beq v v' = false.
Proof.
  intros H. destruct (ivar_beq v v') eqn:E; [|reflexivity].
  exfalso. apply H. apply internal_ivar_dec_bl. exact E.
Qed.

Lemma nth_zip_with {A B C : Type} (f : A -> B -> C) (l : list A) (l' : list B)
    (i : nat) (da : A) (db : B) (dc : C) :
  (i < length l)%nat -> (i < length l')%nat ->
  nth i (zip_with f l l') dc = f (nth i l da) (nth i l' db).
Proof.
  revert l' i. induction l as [|x l IH]; intros [|y l'] i Hl Hl'; simpl in *; try lia.
  destruct i as [|i]; [reflexivity|]. apply IH; lia.
Qed.

Lemma nth_repeat_same {A : Type} (x : A) (n i : nat) : nth i (repeat x n) x = x.
Proof.
  revert i. induction n as [|n IH]; intros [|i]; simpl; auto.
Qed.

Lemma Qc_eqb_eq (x y : Qc) : Qc_eqb x y = true <-> x = y.
Proof.
  unfold Qc_eqb. rewrite Qeq_bool_iff. split.
  - apply Qc_is_canon.
  - intros ->. reflexivity.
Qed.

Lemma Qc_eqb_refl (x : Qc) : Qc_eqb x x = true.
Proof. apply Qc_eqb_eq. reflexivity. Qed.

(** ** Propagation *)

(** C1: one call of [propagate] stores the old [a] in [a_prev], stores
    [a_in + W.a], computed from the old [a], in [a], and sets [a_in] to the
    zero vector of the same length; no other attribute of the partition
    changes.  Entry [i] of the new [a] is [a_in[i]] plus the inner product of
    row [i] of [W] with the old [a], and every entry of the new [a_in] is
    [0]. *)
Theorem propagate_contract (p : Partition) :
  getf (propagate p) V.a_prev = getf p V.a
  /\ getf (propagate p) V.a = vadd (getf p V.a_in) (mdot (w p) (getf p V.a))
  /\ getf (propagate p) V.a_in = zeros (length (getf p V.a_in))
  /\ (forall i : nat, nth i (getf (propagate p) V.a_in) 0%Qc = 0%Qc)
  /\ (forall i : nat,
        (i < length (getf p V.a_in))%nat -> (i < length (w p))%nat ->
        nth i (getf (propagate p) V.a) 0%Qc
        = (nth i (getf p V.a_in) 0%Qc + dot (nth i (w p) []) (getf p V.a))%Qc)
  /\ (forall v : V.fvar,
        v <> V.a_prev -> v <> V.a -> v <> V.a_in -> getf (propagate p) v = getf p v)
  /\ iv (propagate p) = iv p
  /\ sv (propagate p) = sv p
  /\ bv (propagate p) = bv p
  /\ w (propagate p) = w p
  /\ a_shifted (propagate p) = a_shifted p
  /\ g_theta_shifted (propagate p) = g_theta_shifted p
  /\ nodegroups (propagate p) = nodegroups p
  /\ inlinks (propagate p) = inlinks p
  /\ calculate_nodes_usages (propagate p) = calculate_nodes_usages p.
Proof.
  repeat split; try reflexivity.
  - intros i. change (getf (propagate p) V.a_in) with (zeros (length (getf p V.a_in))).
    apply nth_repeat_same.
  - intros i Hi Hw.
    change (getf (propagate p) V.a)
      with (vadd (getf p V.a_in) (mdot (w p) (getf p V.a))).
    unfold vadd. rewrite (@nth_zip_with _ _ _ Qcplus _ _ i 0%Qc 0%Qc 0%Qc).
    + f_equal. unfold mdot.
      change 0%Qc with (dot [] (getf p V.a)) at 1.
      apply (map_nth (fun row => dot row (getf p V.a))).
    + exact Hi.
    + unfold mdot. rewrite length_map. exact Hw.
  - intros v H1 H2 H3. unfold propagate, theano_function, propagate_updates.
    cbn [fold_left store_update]. rewrite !getf_setf.
    rewrite (fvar_beq_neq (not_eq_sym H3)), (fvar_beq_neq (not_eq_sym H2)),
      (fvar_beq_neq (not_eq_sym H1)).
    reflexivity.
Qed.

(** ** The gate transfer stage *)

Lemma T_switch_b2q {A : Type} (b : bool) (x y : A) :
  T_switch (b2q b) x y = if b then x else y.
Proof. destruct b; reflexivity. Qed.

Lemma nth_map_seq {A : Type} (f : nat -> A) (n i : nat) (d : A) :
  (i < n)%nat -> nth i (map f (seq 0 n)) d = f i.
Proof.
  intros H. rewrite (nth_indep _ d (f 0%nat)) by (rewrite length_map, length_seq; exact H).
  rewrite (map_nth f (seq 0 n) 0%nat i). rewrite seq_nth by exact H. reflexivity.
Qed.

Lemma calculate_nodes_a (sigmoid tanh : Qc -> Qc) (behind : Memory) (u : Usages)
    (p : Partition) :
  getf (theano_function (calculate_nodes_updates sigmoid tanh behind u) p) V.a
  = map (gatefunctions_at sigmoid tanh behind u p) (seq 0 (length (getf p V.a))).
Proof.
  unfold calculate_nodes_updates, theano_function.
  destruct (u_pipes u); reflexivity.
Qed.

(** The transfer functions by selector, as the graph compiled for the flags
    [u] has them: a function belongs to the graph when its flag was set at
    the compilation, the identity is what remains. *)
Definition transfer_function (sigmoid tanh : Qc -> Qc) (u : Usages) (selector : Z)
    (theta x : Qc) : Qc :=
  if (selector =? GATE_FUNCTION_ABSOLUTE) && u_absolute u then Qcabs x
  else if (selector =? GATE_FUNCTION_SIGMOID) && u_sigmoid u then sigmoid (x + theta)%Qc
  else if (selector =? GATE_FUNCTION_TANH) && u_tanh u then tanh (x + theta)%Qc
  else if (selector =? GATE_FUNCTION_RECT) && u_rect u then
    if Qc_ltb 0%Qc (x + theta)%Qc then (x - theta)%Qc else 0%Qc
  else if (selector =? GATE_FUNCTION_DIST) && u_one_over_x u then
    if Qc_eqb 0%Qc x then 0%Qc else (1 / x)%Qc
  else x.

(** the chain of switches of the graph selects one transfer function *)
Lemma gate_function_output_selected (sigmoid tanh : Qc -> Qc) (u : Usages) (selector : Z)
    (theta x : Qc) :
  gate_function_output sigmoid tanh u selector theta x
  = transfer_function sigmoid tanh u selector theta x.
Proof.
  unfold gate_function_output, transfer_function, T_eqZ, T_gt, T_neq.
  rewrite !T_switch_b2q.
  destruct (Z.eq_dec selector GATE_FUNCTION_ABSOLUTE) as [->|H1];
    [destruct (u_absolute u), (u_sigmoid u), (u_tanh u), (u_rect u), (u_one_over_x u);
     reflexivity|].
  destruct (Z.eq_dec selector GATE_FUNCTION_SIGMOID) as [->|H2];
    [destruct (u_absolute u), (u_sigmoid u), (u_tanh u), (u_rect u), (u_one_over_x u);
     reflexivity|].
  destruct (Z.eq_dec selector GATE_FUNCTION_TANH) as [->|H3];
    [destruct (u_absolute u), (u_sigmoid u), (u_tanh u), (u_rect u), (u_one_over_x u);
     reflexivity|].
  destruct (Z.eq_dec selector GATE_FUNCTION_RECT) as [->|H4];
    [destruct (u_absolute u), (u_sigmoid u), (u_tanh u), (u_rect u), (u_one_over_x u);
     cbn [Z.eqb Pos.eqb GATE_FUNCTION_ABSOLUTE GATE_FUNCTION_SIGMOID GATE_FUNCTION_TANH
          GATE_FUNCTION_RECT GATE_FUNCTION_DIST andb];
     rewrite ?T_switch_b2q; reflexivity|].
  destruct (Z.eq_dec selector GATE_FUNCTION_DIST) as [->|H5];
    [destruct (u_absolute u), (u_sigmoid u), (u_tanh u), (u_rect u), (u_one_over_x u);
     cbn [Z.eqb Pos.eqb GATE_FUNCTION_ABSOLUTE GATE_FUNCTION_SIGMOID GATE_FUNCTION_TANH
          GATE_FUNCTION_RECT GATE_FUNCTION_DIST andb];
     rewrite ?T_switch_b2q; try reflexivity; destruct (Qc_eqb 0%Qc x); reflexivity|].
  apply Z.eqb_neq in H1, H2, H3, H4, H5. rewrite H1, H2, H3, H4, H5.
  destruct (u_absolute u), (u_sigmoid u), (u_tanh u), (u_rect u), (u_one_over_x u);
    reflexivity.
Qed.

(** C6: for every element the new activation is obtained from the node
    function output [y] by, in this order: the transfer function the
    selector names ([|y|], [sigmoid (y + theta)], [tanh (y + theta)], the
    RECT and the 1/x function as the code has them, else [y]), the threshold
    ([x] is kept iff [x >= threshold], else [0]), the multiplication by the
    amplification, and the clipping to [[min, max]]. *)
Theorem gate_transfer_order (sigmoid tanh : Qc -> Qc) (behind : Memory) (p : Partition)
    (u : Usages) (i : nat) :
  calculate_nodes_usages p = Some u ->
  (i < length (getf p V.a))%nat ->
  let y := nodefunctions_at sigmoid behind u p i in
  let x := transfer_function sigmoid tanh u (eli p V.g_function_selector i)
             (elf p V.g_theta i) y in
  let thresholded := if Qc_leb (elf p V.g_threshold i) x then x else 0%Qc in
  let amplified := (thresholded * elf p V.g_amplification i)%Qc in
  fst (calculate_nodes sigmoid tanh behind p) = Ok tt
  /\ elf (snd (calculate_nodes sigmoid tanh behind p)) V.a i
     = T_clip amplified (elf p V.g_min i) (elf p V.g_max i).
Proof.
  intros Hu Hi. unfold calculate_nodes. rewrite Hu. cbn [fst snd]. split; [reflexivity|].
  unfold elf at 1. rewrite calculate_nodes_a.
  rewrite nth_map_seq by exact Hi.
  unfold gatefunctions_at, gatefunctions, limited_gate_function_output,
    amplified_gate_function_output, thresholded_gate_function_output, T_ge.
  rewrite T_switch_b2q, gate_function_output_selected. reflexivity.
Qed.

(** a memory that holds zeros *)
Definition zeros_behind : Memory := fun _ _ => 0%Qc.

(** A register whose gate takes the absolute value, with threshold [1/2],
    amplification [1/2] and maximum [1/4], holding [-3/4]; the graph is
    compiled. *)
Definition gate_example : Partition :=
  snd ((create_register ;;
        set_node_gatefunction_name 1 "gen" "absolute" ;;
        set_node_gate_parameter 1 "gen" "threshold" (lit 1 2) ;;
        set_node_gate_parameter 1 "gen" "amplification" (lit 1 2) ;;
        set_node_gate_parameter 1 "gen" "maximum" (lit 1 4) ;;
        group_nodes_by_ids (example_nodenet 0) "s0011" (1 :: nil) "r" "gen" ;;
        set_activations "s0011" "r" (lit (-3) 4 :: nil) ;;
        compile_calculate_nodes)
         (init 1 false 2 2 2)).

(** In [gate_example] the node function output is [-3/4], and the four
    steps give [3/4], [3/4], [3/8] and [1/4]; the threshold after the
    amplification, or the clipping before the threshold, would give [0]. *)
Lemma gate_transfer_order_witness :
  let p := gate_example in
  let u := current_usages gate_example in
  (let y := nodefunctions_at (fun x => x) zeros_behind u p 1 in
   let x := transfer_function (fun x => x) (fun x => x) u (eli p V.g_function_selector 1)
              (elf p V.g_theta 1) y in
   let thresholded := if Qc_leb (elf p V.g_threshold 1) x then x else 0%Qc in
   let amplified := (thresholded * elf p V.g_amplification 1)%Qc in
   fst (calculate_nodes (fun x => x) (fun x => x) zeros_behind p) = Ok tt
   /\ elf (snd (calculate_nodes (fun x => x) (fun x => x) zeros_behind p)) V.a 1
      = T_clip amplified (elf p V.g_min 1) (elf p V.g_max 1))
  /\ nodefunctions_at (fun x => x) zeros_behind u p 1 = lit (-3) 4
  /\ eli p V.g_function_selector 1 = GATE_FUNCTION_ABSOLUTE
  /\ elf p V.g_threshold 1 = lit 1 2
  /\ elf p V.g_amplification 1 = lit 1 2
  /\ elf p V.g_max 1 = lit 1 4
  /\ elf (snd (calculate_nodes (fun x => x) (fun x => x) zeros_behind p)) V.a 1 = lit 1 4
  /\ T_clip
       (if Qc_leb (lit 1 2) (Qcabs (lit (-3) 4) * lit 1 2)%Qc
        then (Qcabs (lit (-3) 4) * lit 1 2)%Qc else 0%Qc)
       0%Qc (lit 1 4) = 0%Qc
  /\ (let clipped := T_clip (Qcabs (lit (-3) 4)) 0%Qc (lit 1 4) in
      (if Qc_leb (lit 1 2) clipped then clipped else 0%Qc) * lit 1 2)%Qc = 0%Qc.
Proof.
  cbv zeta. split.
  - apply (@gate_transfer_order (fun x => x) (fun x => x) zeros_behind gate_example
             (current_usages gate_example) 1%nat).
    + reflexivity.
    + vm_compute. lia.
  - split; [apply Qc_is_canon; vm_compute; reflexivity|].
    split; [vm_compute; reflexivity|].
    split; [apply Qc_is_canon; vm_compute; reflexivity|].
    split; [apply Qc_is_canon; vm_compute; reflexivity|].
    split; [apply Qc_is_canon; vm_compute; reflexivity|].
    split; [apply Qc_is_canon; vm_compute; reflexivity|].
    split; apply Qc_is_canon; vm_compute; reflexivity.
Defined.

(** The order matters: with the value [1/2], threshold [3/5] and
    amplification [2] the threshold cuts the value before it is amplified, so
    the gate yields [0]; amplifying first would let [1] pass. *)
Example threshold_precedes_amplification :
  gatefunctions (fun x => x) (fun x => x)
    (mkUsages false false false false false false false false false)
    GATE_FUNCTION_IDENTITY 0%Qc (lit 3 5) (lit 2 1) 0%Qc 1%Qc (lit 1 2) = 0%Qc
  /\ T_clip (thresholded_gate_function_output (lit 3 5)
               (amplified_gate_function_output (lit 2 1) (lit 1 2))) 0%Qc 1%Qc = 1%Qc.
Proof. split; apply Qc_is_canon; vm_compute; reflexivity. Qed.

(** The clipping comes last: with amplification [3] the value [1/2] leaves
    the gate as the upper bound [1]. *)
Example clipping_follows_amplification :
  gatefunctions (fun x => x) (fun x => x)
    (mkUsages false false false false false false false false false)
    GATE_FUNCTION_IDENTITY 0%Qc 0%Qc (lit 3 1) 0%Qc 1%Qc (lit 1 2) = 1%Qc.
Proof. apply Qc_is_canon; vm_compute; reflexivity. Qed.

(** ** The shifted view and the Pipe rules *)

Lemma nth_error_as_strided (x : list Qc) (rows cols i k : nat) :
  (i < rows)%nat -> (k < cols)%nat -> (i + k < length x)%nat ->
  nth_error (nth i (as_strided x rows cols) []) k = Some (nth (i + k) x 0%Qc).
Proof.
  intros Hi Hk Hik. unfold as_strided.
  rewrite (nth_map_seq (fun i0 => firstn cols (skipn i0 x)) [] Hi).
  rewrite nth_error_firstn.
  destruct (Nat.ltb_spec k cols) as [_|H]; [|lia].
  rewrite nth_error_skipn. apply nth_error_nth'. exact Hik.
Qed.

(** an entry of a view that lies in the buffer *)
Lemma view_at_as_strided (behind : Memory) (v : V.fvar) (x : list Qc)
    (rows cols i k : nat) :
  (i < rows)%nat -> (k < cols)%nat -> (i + k < length x)%nat ->
  view_at behind v (as_strided x rows cols) i k = nth (i + k) x 0%Qc.
Proof.
  intros Hi Hk Hik. unfold view_at. rewrite nth_error_as_strided by assumption.
  reflexivity.
Qed.

(** an entry of a view behind the buffer *)
Lemma view_at_behind (behind : Memory) (v : V.fvar) (x : list Qc) (rows cols i k : nat) :
  (i < rows)%nat -> (length x <= i + k)%nat ->
  view_at behind v (as_strided x rows cols) i k = behind v (i + k)%nat.
Proof.
  intros Hi Hik. unfold view_at, as_strided.
  rewrite (nth_map_seq (fun i0 => firstn cols (skipn i0 x)) [] Hi).
  rewrite nth_error_firstn. destruct (k <? cols)%nat; [|reflexivity].
  rewrite nth_error_skipn.
  destruct (nth_error x (i + k)) eqn:E; [|reflexivity].
  assert (H : nth_error x (i + k) <> None) by (rewrite E; discriminate).
  apply nth_error_Some in H. lia.
Qed.

Lemma length_np_roll {A : Type} (x : list A) (shift : nat) :
  length (np_roll x shift) = length x.
Proof.
  unfold np_roll. destruct (length x) as [|n] eqn:E; [reflexivity|].
  rewrite length_app, length_skipn, length_firstn, E. lia.
Qed.





(** the dispatch on a given node function selector *)
Ltac dispatch :=
  unfold T_eqZ;
  cbn [Z.eqb Pos.eqb NFPG_PIPE_NON NFPG_PIPE_GEN NFPG_PIPE_POR NFPG_PIPE_RET NFPG_PIPE_SUB
       NFPG_PIPE_SUR NFPG_PIPE_CAT NFPG_PIPE_EXP NFPG_LSTM_GEN NFPG_LSTM_POR NFPG_LSTM_GIN
       NFPG_LSTM_GOU NFPG_LSTM_GFG];
  rewrite ?T_switch_b2q; cbv iota.


(** memories that hold sevens *)
Definition sevens_behind : Memory := fun _ _ => lit 7 1.

Definition set_gate_activation (id : Z) (gate : string) (x : Qc) : M unit :=
  group_nodes_by_ids (example_nodenet 0) "s0011" (id :: nil) gate gate ;;
  set_activations "s0011" gate (x :: nil).



(** The same register and Pipe in a partition of 12 elements, with
    [gen = 0.15], [sub = 1/3] and [sur = 1/2]. *)
Definition pipe_at_the_end : Partition :=
  snd ((create_register ;;
        create_pipe ;;
        set_gate_activation 2 "gen" (lit 3 20) ;;
        set_gate_activation 2 "sub" (lit 1 3) ;;
        set_gate_activation 2 "sur" (lit 1 2))
         (init 1 false 3 4 2)).


(** ** The RECT transfer function *)

Definition only_rect : Usages :=
  mkUsages false false false false false false false true false.

(** What the RECT branch computes: [x - theta] where [x + theta > 0], else
    [0]. *)
Lemma rect_gate_function_output (sigmoid tanh : Qc -> Qc) (x theta : Qc) :
  gate_function_output sigmoid tanh only_rect GATE_FUNCTION_RECT theta x
  = if Qc_ltb 0%Qc (x + theta)%Qc then (x - theta)%Qc else 0%Qc.
Proof.
  unfold gate_function_output, only_rect. cbn [u_absolute u_sigmoid u_tanh u_rect u_one_over_x].
  unfold T_gt. rewrite T_switch_b2q. reflexivity.
Qed.

(** C8 (the code at the failing input): for an element with selector RECT,
    node function output [1] and theta [1], the value entering the threshold
    step is [0], not the [x + theta = 2] of a relu with bias theta. *)
Theorem rect_subtracts_theta :
  gate_function_output (fun x => x) (fun x => x) only_rect GATE_FUNCTION_RECT 1%Qc 1%Qc
  = 0%Qc
  /\ gate_function_output (fun x => x) (fun x => x) only_rect GATE_FUNCTION_RECT 1%Qc 1%Qc
     <> (1 + 1)%Qc.
Proof.
  split.
  - apply Qc_is_canon; vm_compute; reflexivity.
  - intros H. apply (f_equal this) in H. vm_compute in H. discriminate H.
Qed.

(** ** Reasoning about the monad *)

(** [triple P m Q E]: from a state in [P], [m] ends in [Q] when it returns
    and in [E] when it raises. *)
Definition triple {A : Type} (P : Partition -> Prop) (m : M A)
    (Q : A -> Partition -> Prop) (E : Partition -> Prop) : Prop :=
  forall p, P p ->
    match m p with
    | (Ok x, p') => Q x p'
    | (Raise _, p') => E p'
    end.

Definition preserves {A : Type} (I : Partition -> Prop) (m : M A) : Prop :=
  triple I m (fun _ => I) I.

Lemma triple_bind {A B : Type} (P : Partition -> Prop) (m : M A) (k : A -> M B)
    (Q : A -> Partition -> Prop) (R : B -> Partition -> Prop) (E : Partition -> Prop) :
  triple P m Q E -> (forall x, triple (Q x) (k x) R E) -> triple P (bind m k) R E.
Proof.
  intros Hm Hk p Hp. unfold bind. specialize (Hm p Hp).
  destruct (m p) as [[x|e] p']; [apply Hk; exact Hm|exact Hm].
Qed.

Lemma triple_conseq {A : Type} (P P' : Partition -> Prop) (m : M A)
    (Q Q' : A -> Partition -> Prop) (E : Partition -> Prop) :
  triple P' m Q' E -> (forall p, P p -> P' p) -> (forall x p, Q' x p -> Q x p) ->
  triple P m Q E.
Proof.
  intros H HP HQ p Hp. specialize (H p (HP p Hp)).
  destruct (m p) as [[x|e] p']; auto.
Qed.

Lemma triple_ret {A : Type} (P : Partition -> Prop) (x : A)
    (Q : A -> Partition -> Prop) (E : Partition -> Prop) :
  (forall p, P p -> Q x p) -> triple P (ret x) Q E.
Proof. intros H p Hp. apply H. exact Hp. Qed.

Lemma preserves_bind {A B : Type} (I : Partition -> Prop) (m : M A) (k : A -> M B) :
  preserves I m -> (forall x, preserves I (k x)) -> preserves I (bind m k).
Proof. intros Hm Hk. eapply triple_bind; [exact Hm|exact Hk]. Qed.

(** [m] leaves the observation [K] of the state as it is, whether it returns
    or raises. *)
Definition keeps {T A : Type} (K : Partition -> T) (m : M A) : Prop :=
  forall p, K (snd (m p)) = K p.

Section Keeps.

Context {T : Type} (K : Partition -> T).

Lemma keeps_ret {A : Type} (x : A) : keeps K (ret x).
Proof. intros p. reflexivity. Qed.

Lemma keeps_raise {A : Type} (e : exn) : keeps K (@raise A e).
Proof. intros p. reflexivity. Qed.

Lemma keeps_read {A : Type} (f : Partition -> A) : keeps K (read f).
Proof. intros p. reflexivity. Qed.

Lemma keeps_of_option {A : Type} (e : exn) (o : option A) : keeps K (of_option e o).
Proof. intros p. destruct o; reflexivity. Qed.

Lemma keeps_of_outcome {A : Type} (o : outcome A) : keeps K (of_outcome o).
Proof. intros p. destruct o; reflexivity. Qed.

Lemma keeps_bind {A B : Type} (m : M A) (k : A -> M B) :
  keeps K m -> (forall x, keeps K (k x)) -> keeps K (bind m k).
Proof.
  intros Hm Hk p. unfold bind. specialize (Hm p).
  destruct (m p) as [[x|e] p']; cbn [snd] in *.
  - rewrite Hk. exact Hm.
  - exact Hm.
Qed.

Lemma keeps_when (b : bool) (m : M unit) : keeps K m -> keeps K (when b m).
Proof. intros H. destruct b; [exact H|apply keeps_ret]. Qed.

Lemma keeps_forM {A : Type} (l : list A) (body : A -> M unit) :
  (forall x, keeps K (body x)) -> keeps K (forM l body).
Proof.
  intros H. induction l as [|x l IH]; cbn [forM].
  - apply keeps_ret.
  - apply keeps_bind; [apply H|intros _; exact IH].
Qed.

Lemma keeps_modify (f : Partition -> Partition) :
  (forall p, K (f p) = K p) -> keeps K (modify f).
Proof. intros H p. apply H. Qed.

Lemma keeps_geti_at (v : V.ivar) (i : Z) : keeps K (geti_at v i).
Proof. intros p. unfold geti_at. destruct (py_index _ _); reflexivity. Qed.

Lemma keeps_getf_at (v : V.fvar) (i : Z) : keeps K (getf_at v i).
Proof. intros p. unfold getf_at. destruct (py_index _ _); reflexivity. Qed.

Lemma keeps_seti_at (v : V.ivar) (i x : Z) :
  (forall l p, K (seti v l p) = K p) -> keeps K (seti_at v i x).
Proof. intros H p. unfold seti_at. destruct (py_index _ _); cbn [snd]; auto. Qed.

Lemma keeps_setf_at (v : V.fvar) (i : Z) (x : Qc) :
  (forall l p, K (setf v l p) = K p) -> keeps K (setf_at v i x).
Proof. intros H p. unfold setf_at. destruct (py_index _ _); cbn [snd]; auto. Qed.

Lemma keeps_assign_all (v : V.ivar) (indices : list Z) (x : Z) :
  (forall l p, K (seti v l p) = K p) -> keeps K (assign_all v indices x).
Proof. intros H p. unfold assign_all. destruct (scatter _ _ _ _); cbn [snd]; auto. Qed.

Lemma keeps_set_has (v : V.bvar) (value : bool) :
  (forall b p, K (setb b value p) = K p) ->
  (forall b x p, K (setb b x p) = K p) -> keeps K (set_has v value).
Proof.
  intros _ H p. unfold set_has, modify. cbn [snd].
  destruct (Bool.eqb value (getb p v)); [reflexivity|]. rewrite !H. reflexivity.
Qed.

Lemma keeps_preserves {A : Type} (I : Partition -> Prop) (m : M A) :
  (forall p q, K q = K p -> I p -> I q) -> keeps K m -> preserves I m.
Proof.
  intros HI Hm p Hp. specialize (Hm p).
  destruct (m p) as [[x|e] p']; cbn [snd] in Hm; eapply HI; eauto.
Qed.

End Keeps.

(** the part of the state the id allocation depends on *)
Definition tracked (p : Partition) : list Z * list Z * Z * Z * Z * Z :=
  (geti p V.allocated_nodes, geti p V.allocated_nodespaces,
   gets p V.NoN, gets p V.NoNS,
   gets p V.last_allocated_node, gets p V.last_allocated_nodespace).

Ltac keeps_step :=
  match goal with
  | |- keeps _ (bind _ _) => apply keeps_bind; [|intros]
  | |- keeps _ (ret _) => apply keeps_ret
  | |- keeps _ (raise _) => apply keeps_raise
  | |- keeps _ (read _) => apply keeps_read
  | |- keeps _ (of_option _ _) => apply keeps_of_option
  | |- keeps _ (of_outcome _) => apply keeps_of_outcome
  | |- keeps _ (when _ _) => apply keeps_when
  | |- keeps _ (forM _ _) => apply keeps_forM; intros
  | |- keeps _ (geti_at _ _) => apply keeps_geti_at
  | |- keeps _ (getf_at _ _) => apply keeps_getf_at
  | |- keeps _ (seti_at _ _ _) => apply keeps_seti_at; intros; reflexivity
  | |- keeps _ (setf_at _ _ _) => apply keeps_setf_at; intros; reflexivity
  | |- keeps _ (assign_all _ _ _) => apply keeps_assign_all; intros; reflexivity
  | |- keeps _ (set_has _ _) => apply keeps_set_has; intros; reflexivity
  | |- keeps _ (modify _) => apply keeps_modify; intros; reflexivity
  | |- keeps _ (if ?b then _ else _) => destruct b
  | |- keeps _ (match ?x with _ => _ end) => destruct x
  end.

Create HintDb keeps.

Ltac keeps_tac := cbv zeta; repeat (first [keeps_step | solve [auto with keeps]]).

Lemma keeps_grow_number_of_elements (growby : Z) :
  keeps tracked (grow_number_of_elements growby).
Proof. unfold grow_number_of_elements. keeps_tac. Qed.
#[local] Hint Resolve keeps_grow_number_of_elements : keeps.

Lemma keeps_find_offset (fuel : nat) (n i : Z) (r : bool) :
  keeps tracked (find_offset fuel n i r).
Proof.
  revert i r. induction fuel as [|fuel IH]; intros i r; cbn [find_offset]; keeps_tac.
Qed.
#[local] Hint Resolve keeps_find_offset : keeps.

Lemma keeps_set_node_gate_parameter id g par v :
  keeps tracked (set_node_gate_parameter id g par v).
Proof. unfold set_node_gate_parameter. keeps_tac. Qed.
#[local] Hint Resolve keeps_set_node_gate_parameter : keeps.

Lemma keeps_set_node_gatefunction_name id g n :
  keeps tracked (set_node_gatefunction_name id g n).
Proof. unfold set_node_gatefunction_name. keeps_tac. Qed.
#[local] Hint Resolve keeps_set_node_gatefunction_name : keeps.

Lemma keeps_set_nodespace_gatetype_activator ns g act :
  keeps tracked (set_nodespace_gatetype_activator ns g act).
Proof. unfold set_nodespace_gatetype_activator. keeps_tac. Qed.
#[local] Hint Resolve keeps_set_nodespace_gatetype_activator : keeps.

Lemma keeps_apply_gate_parameters nto id gps :
  keeps tracked (apply_gate_parameters nto id gps).
Proof. unfold apply_gate_parameters. keeps_tac. Qed.
#[local] Hint Resolve keeps_apply_gate_parameters : keeps.

Lemma keeps_set_nodespace_sampling_activator ns act :
  keeps tracked (set_nodespace_sampling_activator ns act).
Proof. unfold set_nodespace_sampling_activator. keeps_tac. Qed.
#[local] Hint Resolve keeps_set_nodespace_sampling_activator : keeps.

(** ** The sentinel id 0 *)

Ltac store_simpl :=
  unfold geti, gets, getf, getb in *;
  cbn [iv sv fv bv w seti sets setf setb set_w upd get_flag set_flag
       ivar_beq svar_beq fvar_beq bvar_beq] in *.

Definition sentinel_inv (p : Partition) : Prop :=
  nth 0 (geti p V.allocated_nodes) 0 = 0
  /\ nth 0 (geti p V.allocated_nodespaces) 0 = 0
  /\ 1 <= gets p V.NoN
  /\ 1 <= gets p V.NoNS
  /\ Z.of_nat (length (geti p V.allocated_nodes)) = gets p V.NoN
  /\ Z.of_nat (length (geti p V.allocated_nodespaces)) = gets p V.NoNS
  /\ -1 <= gets p V.last_allocated_node
  /\ -1 <= gets p V.last_allocated_nodespace.

Lemma sentinel_inv_tracked (p q : Partition) :
  tracked q = tracked p -> sentinel_inv p -> sentinel_inv q.
Proof.
  unfold tracked, sentinel_inv. intros H. injection H as H1 H2 H3 H4 H5 H6.
  rewrite H1, H2, H3, H4, H5, H6. auto.
Qed.

Lemma keeps_sentinel {A : Type} (m : M A) : keeps tracked m -> preserves sentinel_inv m.
Proof. apply keeps_preserves. apply sentinel_inv_tracked. Qed.

Lemma length_set_nth {A : Type} (n : nat) (x : A) (l : list A) :
  length (set_nth n x l) = length l.
Proof.
  revert n. induction l as [|y l IH]; intros [|n]; simpl; auto.
Qed.

Lemma nth_set_nth_other {A : Type} (n m : nat) (x d : A) (l : list A) :
  n <> m -> nth m (set_nth n x l) d = nth m l d.
Proof.
  revert n m. induction l as [|y l IH]; intros [|n] [|m] H; simpl; auto; try lia.
Qed.

Lemma nth_set_nth_same {A : Type} (n : nat) (x d : A) (l : list A) :
  (n < length l)%nat -> nth n (set_nth n x l) d = x.
Proof.
  revert n. induction l as [|y l IH]; intros [|n] H; simpl in *; auto; try lia.
  apply IH. lia.
Qed.

Lemma nth0_set_nth (n : nat) (x : Z) (l : list Z) :
  (1 <= n)%nat \/ x = 0 -> nth 0 l 0 = 0 -> nth 0 (set_nth n x l) 0 = 0.
Proof.
  intros H H0. destruct n as [|n].
  - destruct H as [H|H]; [lia|]. destruct l; simpl; auto.
  - rewrite nth_set_nth_other by lia. exact H0.
Qed.

Lemma py_index_ge1 (len : nat) (i : Z) (n : nat) :
  1 <= i -> py_index len i = Some n -> (1 <= n)%nat.
Proof.
  unfold py_index. intros Hi.
  destruct ((0 <=? i) && (i <? Z.of_nat len)).
  - intros H. injection H as <-. lia.
  - destruct ((- Z.of_nat len <=? i) && (i <? 0)) eqn:E; [|discriminate].
    apply andb_prop in E. lia.
Qed.

Lemma preserves_seti_nodes (i x : Z) :
  1 <= i \/ x = 0 -> preserves sentinel_inv (seti_at V.allocated_nodes i x).
Proof.
  intros H p Hp. unfold seti_at.
  destruct (py_index _ i) as [n|] eqn:E; [|exact Hp].
  destruct Hp as (H1 & H2 & H3 & H4 & H5 & H6 & H7 & H8).
  unfold sentinel_inv in *. store_simpl.
  rewrite length_set_nth. repeat split; auto.
  apply nth0_set_nth; [|exact H1].
  destruct H as [H|H]; [left; eapply py_index_ge1; [|exact E]; exact H|right; exact H].
Qed.

Lemma preserves_seti_nodespaces (i x : Z) :
  1 <= i \/ x = 0 -> preserves sentinel_inv (seti_at V.allocated_nodespaces i x).
Proof.
  intros H p Hp. unfold seti_at.
  destruct (py_index _ i) as [n|] eqn:E; [|exact Hp].
  destruct Hp as (H1 & H2 & H3 & H4 & H5 & H6 & H7 & H8).
  unfold sentinel_inv in *. store_simpl.
  rewrite length_set_nth. repeat split; auto.
  apply nth0_set_nth; [|exact H2].
  destruct H as [H|H]; [left; eapply py_index_ge1; [|exact E]; exact H|right; exact H].
Qed.

Lemma preserves_last_allocated_node (id : Z) :
  -1 <= id -> preserves sentinel_inv (modify (sets V.last_allocated_node id)).
Proof.
  intros H p Hp. unfold modify.
  destruct Hp as (H1 & H2 & H3 & H4 & H5 & H6 & H7 & H8).
  repeat split; auto.
Qed.

Lemma preserves_last_allocated_nodespace (id : Z) :
  -1 <= id -> preserves sentinel_inv (modify (sets V.last_allocated_nodespace id)).
Proof.
  intros H p Hp. unfold modify.
  destruct Hp as (H1 & H2 & H3 & H4 & H5 & H6 & H7 & H8).
  repeat split; auto.
Qed.

Lemma length_grow_vec {A : Type} (fill : A) (n : nat) (l : list A) :
  length (grow_vec fill n l) = n.
Proof.
  unfold grow_vec. rewrite length_app, length_firstn, repeat_length. lia.
Qed.

Lemma nth0_grow_vec (n : nat) (l : list Z) :
  (1 <= n)%nat -> nth 0 l 0 = 0 -> nth 0 (grow_vec 0 n l) 0 = 0.
Proof.
  intros Hn H. unfold grow_vec. destruct n as [|n]; [lia|].
  destruct l as [|x l]; simpl in *.
  - reflexivity.
  - exact H.
Qed.

Lemma preserves_grow_number_of_nodes (growby : Z) :
  0 <= growby -> preserves sentinel_inv (grow_number_of_nodes growby).
Proof.
  intros Hg p Hp. unfold grow_number_of_nodes, bind, modify.
  destruct Hp as (H1 & H2 & H3 & H4 & H5 & H6 & H7 & H8).
  unfold sentinel_inv, grow_i in *. cbn [snd]. store_simpl.
  rewrite length_grow_vec.
  repeat split; auto; try lia.
  apply nth0_grow_vec; [lia|exact H1].
Qed.

Lemma preserves_grow_number_of_nodespaces (growby : Z) :
  0 <= growby -> preserves sentinel_inv (grow_number_of_nodespaces growby).
Proof.
  intros Hg p Hp. unfold grow_number_of_nodespaces, bind, modify.
  destruct Hp as (H1 & H2 & H3 & H4 & H5 & H6 & H7 & H8).
  unfold sentinel_inv, grow_i in *. cbn [snd]. store_simpl.
  rewrite length_grow_vec.
  repeat split; auto; try lia.
  apply nth0_grow_vec; [lia|exact H2].
Qed.

Lemma preserves_when (I : Partition -> Prop) (b : bool) (m : M unit) :
  preserves I m -> preserves I (when b m).
Proof. intros H. destruct b; [exact H|]. intros p Hp. exact Hp. Qed.

Lemma preserves_forM {A : Type} (I : Partition -> Prop) (l : list A) (body : A -> M unit) :
  (forall x, preserves I (body x)) -> preserves I (forM l body).
Proof.
  intros H. induction l as [|x l IH]; cbn [forM].
  - intros p Hp. exact Hp.
  - apply preserves_bind; [apply H|intros _; exact IH].
Qed.

Lemma triple_pure_pre {A : Type} (phi : Prop) (P : Partition -> Prop) (m : M A)
    (Q : A -> Partition -> Prop) (E : Partition -> Prop) :
  (phi -> triple P m Q E) -> triple (fun p => phi /\ P p) m Q E.
Proof. intros H p [Hphi Hp]. apply H; assumption. Qed.

Create HintDb pres.

#[local] Hint Resolve preserves_seti_nodes preserves_seti_nodespaces
  preserves_last_allocated_node preserves_last_allocated_nodespace
  preserves_grow_number_of_nodes preserves_grow_number_of_nodespaces : pres.

Ltac pres_step :=
  match goal with
  | |- preserves _ (bind _ _) => apply preserves_bind; [|intros]
  | |- preserves _ (when _ _) => apply preserves_when
  | |- preserves _ (forM _ _) => apply preserves_forM; intros
  | |- preserves _ (if ?b then _ else _) => destruct b
  | |- preserves _ (match ?x with _ => _ end) => destruct x
  | |- preserves sentinel_inv _ =>
      first [ solve [apply keeps_sentinel; keeps_tac]
            | solve [auto with pres]
            | solve [apply preserves_seti_nodes; auto; lia]
            | solve [apply preserves_seti_nodespaces; auto; lia]
            | solve [apply preserves_last_allocated_node; lia]
            | solve [apply preserves_last_allocated_nodespace; lia] ]
  end.

Ltac pres_tac := cbv zeta; repeat pres_step.

(** scanning reads only *)
Lemma scan_free_state (v : V.ivar) (default : Z) (indices : list Z) (p : Partition) :
  snd (scan_free v default indices p) = p.
Proof.
  induction indices as [|i tl IH]; cbn [scan_free]; [reflexivity|].
  unfold bind, geti_at. destruct (py_index _ i); [|reflexivity].
  destruct (_ =? 0); [reflexivity|exact IH].
Qed.

Lemma triple_scan_free (P E : Partition -> Prop) (v : V.ivar) (default : Z)
    (indices : list Z) :
  (forall p, P p -> E p) ->
  triple P (scan_free v default indices) (fun _ => P) E.
Proof.
  intros HE p Hp. pose proof (scan_free_state v default indices p) as H.
  destruct (scan_free v default indices p) as [[x|e] p']; cbn [snd] in H; subst; auto.
Qed.

Lemma triple_read {A : Type} (P : Partition -> Prop) (f : Partition -> A)
    (E : Partition -> Prop) :
  triple P (read f) (fun x p => x = f p /\ P p) E.
Proof. intros p Hp. split; [reflexivity|exact Hp]. Qed.

Lemma triple_allocate_node_id :
  triple sentinel_inv allocate_node_id (fun id p => 1 <= id /\ sentinel_inv p) sentinel_inv.
Proof.
  unfold allocate_node_id.
  eapply triple_bind; [apply triple_read|]. intros last.
  eapply triple_bind; [apply triple_read|]. intros NoN.
  eapply triple_bind; [apply triple_scan_free; intros ? (_ & _ & H); exact H|]. intros id1.
  eapply triple_bind.
  - instantiate (1 := fun _ p => NoN = gets p V.NoN
                                 /\ (last = gets p V.last_allocated_node
                                     /\ sentinel_inv p)).
    destruct (id1 <? 1); [apply triple_scan_free; intros ? (_ & _ & H); exact H|].
    apply triple_ret. auto.
  - intros id2. destruct (id2 <? 1) eqn:E.
    + intros p (HN & _ & Hp). unfold bind.
      pose proof (@preserves_grow_number_of_nodes (NoN / 2)) as Hg.
      assert (Hpos : 0 <= NoN / 2).
      { apply Z.div_pos; [|lia]. destruct Hp as (_ & _ & H3 & _). lia. }
      specialize (Hg Hpos p Hp).
      destruct (grow_number_of_nodes (NoN / 2) p) as [[[]|e] p']; [|exact Hg].
      cbn [ret]. split; [|exact Hg]. destruct Hp as (_ & _ & H3 & _). lia.
    + apply triple_ret. intros p (_ & _ & Hp). split; [|exact Hp].
      apply Z.ltb_ge in E. exact E.
Qed.

Lemma triple_allocate_nodespace_id :
  triple sentinel_inv allocate_nodespace_id
    (fun id p => 1 <= id /\ sentinel_inv p) sentinel_inv.
Proof.
  unfold allocate_nodespace_id.
  eapply triple_bind; [apply triple_read|]. intros last.
  eapply triple_bind; [apply triple_read|]. intros NoNS.
  eapply triple_bind; [apply triple_scan_free; intros ? (_ & _ & H); exact H|]. intros id1.
  eapply triple_bind.
  - instantiate (1 := fun _ p => NoNS = gets p V.NoNS
                                 /\ (last = gets p V.last_allocated_nodespace
                                     /\ sentinel_inv p)).
    destruct (id1 <? 1); [apply triple_scan_free; intros ? (_ & _ & H); exact H|].
    apply triple_ret. auto.
  - intros id2. destruct (id2 <? 1) eqn:E.
    + intros p (HN & _ & Hp). unfold bind.
      set (growby := if NoNS / 2 =? 0 then 1 else NoNS / 2).
      pose proof (@preserves_grow_number_of_nodespaces growby) as Hg.
      assert (Hpos : 0 <= growby).
      { unfold growby. destruct (NoNS / 2 =? 0); [lia|].
        apply Z.div_pos; [|lia]. destruct Hp as (_ & _ & _ & H4 & _). lia. }
      specialize (Hg Hpos p Hp).
      destruct (grow_number_of_nodespaces growby p) as [[[]|e] p']; [|exact Hg].
      cbn [ret]. split; [|exact Hg]. destruct Hp as (_ & _ & _ & H4 & _). lia.
    + apply triple_ret. intros p (_ & _ & Hp). split; [|exact Hp].
      apply Z.ltb_ge in E. exact E.
Qed.

Lemma triple_bind_pres {A B : Type} (I : Partition -> Prop) (m : M A) (k : A -> M B)
    (Q : B -> Partition -> Prop) :
  preserves I m -> (forall x, triple I (k x) Q I) -> triple I (bind m k) Q I.
Proof. intros Hm Hk. eapply triple_bind; [exact Hm|exact Hk]. Qed.

Lemma triple_create_node (nodenet : Nodenet) (nodetype : string) (nodespace_id : Z)
    (id : option Z) parameters gate_parameters gate_functions :
  match id with Some i => 1 <= i | None => True end ->
  triple sentinel_inv
    (create_node nodenet nodetype nodespace_id id parameters gate_parameters gate_functions)
    (fun r p => 1 <= r /\ sentinel_inv p) sentinel_inv.
Proof.
  intros Hid. unfold create_node.
  eapply triple_bind.
  - instantiate (1 := fun r p => 1 <= r /\ sentinel_inv p).
    destruct id as [i|]; [|apply triple_allocate_node_id].
    eapply triple_bind; [apply triple_read|]. intros NoN.
    eapply triple_bind.
    + instantiate (1 := fun _ => sentinel_inv).
      intros p [HN Hp]. destruct (i >? NoN) eqn:E; [|exact Hp].
      cbn [when]. apply preserves_grow_number_of_nodes; [|exact Hp].
      apply Z.gtb_lt in E. lia.
    + intros u. apply triple_ret. auto.
  - intros i. apply triple_pure_pre. intros Hi.
    cbv zeta. repeat (apply triple_bind_pres; [solve [pres_tac]|intros]).
    apply triple_ret. auto.
Qed.

Lemma keeps_unlink_node_completely nodenet node_id :
  keeps tracked (unlink_node_completely nodenet node_id).
Proof. unfold unlink_node_completely. keeps_tac. Qed.
#[local] Hint Resolve keeps_unlink_node_completely : keeps.

Lemma preserves_delete_node (nodenet : Nodenet) (node_id : Z) :
  0 <= node_id -> preserves sentinel_inv (delete_node nodenet node_id).
Proof. intros H. unfold delete_node. pres_tac. Qed.

Lemma triple_create_nodespace (nodenet : Nodenet) (parent_id : Z) (id : option Z) :
  match id with Some i => 1 <= i | None => True end ->
  triple sentinel_inv (create_nodespace nodenet parent_id id)
    (fun r p => 1 <= r /\ sentinel_inv p) sentinel_inv.
Proof.
  intros Hid. unfold create_nodespace.
  eapply triple_bind.
  - instantiate (1 := fun r p => 1 <= r /\ sentinel_inv p).
    destruct id as [i|]; [|apply triple_allocate_nodespace_id].
    apply triple_ret. auto.
  - intros i. apply triple_pure_pre. intros Hi.
    repeat (apply triple_bind_pres; [solve [pres_tac]|intros]).
    apply triple_ret. auto.
Qed.

Lemma preserves_delete_nodespace (nodenet : Nodenet) (nodespace_id : Z) :
  0 <= nodespace_id -> preserves sentinel_inv (delete_nodespace nodenet nodespace_id).
Proof. intros H. unfold delete_nodespace. pres_tac. Qed.

Lemma preserves_announce_nodes (number_of_nodes average_elements_per_node : Z) :
  preserves sentinel_inv (announce_nodes number_of_nodes average_elements_per_node).
Proof.
  unfold announce_nodes.
  apply preserves_bind; [pres_tac|intros free_nodes].
  apply preserves_bind; [pres_tac|intros free_elements].
  apply preserves_bind; [|intros; pres_tac].
  destruct (number_of_nodes >? free_nodes) eqn:E; cbn [when]; [|pres_tac].
  cbv zeta. apply preserves_grow_number_of_nodes.
  apply Z.gtb_lt in E.
  assert (0 <= (number_of_nodes - free_nodes) / 3) by (apply Z.div_pos; lia). lia.
Qed.

Lemma keeps_set_link_weight nodenet s g t sl wt :
  keeps tracked (set_link_weight nodenet s g t sl wt).
Proof. unfold set_link_weight. keeps_tac. Qed.

Lemma keeps_group_nodes_by_ids nodenet ns ids g gt :
  keeps tracked (group_nodes_by_ids nodenet ns ids g gt).
Proof.
  unfold group_nodes_by_ids.
  apply keeps_bind; [apply keeps_modify; intros p; destruct (lookup _ _); reflexivity|].
  intros. keeps_tac.
Qed.

Lemma keeps_ungroup_nodes ns g : keeps tracked (ungroup_nodes ns g).
Proof.
  unfold ungroup_nodes. apply keeps_modify. intros p. destruct (lookup _ _); reflexivity.
Qed.

Lemma keeps_set_activations ns g x : keeps tracked (set_activations ns g x).
Proof. unfold set_activations. keeps_tac. Qed.

Lemma keeps_set_thetas ns g x : keeps tracked (set_thetas ns g x).
Proof. unfold set_thetas. keeps_tac. Qed.

Lemma keeps_set_link_weights nodenet nf gf nt gt x :
  keeps tracked (set_link_weights nodenet nf gf nt gt x).
Proof. unfold set_link_weights. keeps_tac. Qed.

Lemma keeps_set_inlink_weights nodenet pid f t x :
  keeps tracked (set_inlink_weights nodenet pid f t x).
Proof. unfold set_inlink_weights. keeps_tac. Qed.

Lemma keeps_set_inlink_weights_from nodenet f :
  keeps tracked (set_inlink_weights_from nodenet f).
Proof. unfold set_inlink_weights_from. keeps_tac. Qed.

Lemma keeps_propagate_inlinks q blk : keeps tracked (propagate_inlinks q blk).
Proof. unfold propagate_inlinks. keeps_tac. Qed.

Lemma keeps_rebuild_por_linked : keeps tracked rebuild_por_linked.
Proof. unfold rebuild_por_linked. keeps_tac. Qed.

Lemma keeps_rebuild_ret_linked : keeps tracked rebuild_ret_linked.
Proof. unfold rebuild_ret_linked. keeps_tac. Qed.

Lemma keeps_calculate_g_factors : keeps tracked calculate_g_factors.
Proof. unfold calculate_g_factors. keeps_tac. Qed.

Lemma keeps_calculate_nodes sigmoid tanh behind :
  keeps tracked (calculate_nodes sigmoid tanh behind).
Proof.
  intros p. unfold calculate_nodes. destruct (calculate_nodes_usages p) as [u|]; [|reflexivity].
  cbn [snd]. unfold calculate_nodes_updates, theano_function.
  destruct (u_pipes u); reflexivity.
Qed.

#[local] Hint Resolve keeps_rebuild_por_linked keeps_rebuild_ret_linked
  keeps_calculate_g_factors keeps_calculate_nodes : keeps.

Lemma keeps_calculate sigmoid tanh behind current_step :
  keeps tracked (calculate sigmoid tanh behind current_step).
Proof.
  unfold calculate, compile_propagate, compile_calculate_nodes, rebuild_shifted.
  keeps_tac.
Qed.

(** ** Reachable states *)

(** The operations on a partition. *)
Inductive operation : Type :=
| op_create_node (nodetype : string) (nodespace_id : Z) (id : option Z)
    (parameters : option (list (string * string)))
    (gate_parameters : option (list (string * list (string * Qc))))
    (gate_functions : option (list (string * string)))
| op_delete_node (node_id : Z)
| op_unlink_node_completely (node_id : Z)
| op_create_nodespace (parent_id : Z) (id : option Z)
| op_delete_nodespace (nodespace_id : Z)
| op_grow_number_of_nodes (growby : Z)
| op_grow_number_of_nodespaces (growby : Z)
| op_grow_number_of_elements (growby : Z)
| op_announce_nodes (number_of_nodes average_elements_per_node : Z)
| op_set_node_gate_parameter (id : Z) (gate_type parameter : string) (value : Qc)
| op_set_node_gatefunction_name (id : Z) (gate_type gatefunction_name : string)
| op_set_nodespace_gatetype_activator (nodespace_id : Z) (gate_type : string)
    (activator_id : Z)
| op_set_nodespace_sampling_activator (nodespace_id activator_id : Z)
| op_set_link_weight (source_node_id : Z) (gate_type : string) (target_node_id : Z)
    (slot_type : string) (weight : Qc)
| op_group_nodes_by_ids (nodespace_uid : string) (ids : list Z) (group_name gatetype : string)
| op_ungroup_nodes (nodespace_uid group : string)
| op_set_activations (nodespace_uid group : string) (new_activations : list Qc)
| op_set_thetas (nodespace_uid group : string) (thetas : list Qc)
| op_set_link_weights (nodespace_from_uid group_from nodespace_to_uid group_to : string)
    (new_w : list (list Qc))
| op_set_inlink_weights (partition_from_pid : Z) (new_from_elements new_to_elements : list Z)
    (new_weights : list (list Qc))
| op_propagate_inlinks (from_partition : Partition) (blk : Inlink)
| op_propagate
| op_calculate.

Definition discard {A : Type} (m : M A) : M unit := bind m (fun _ => ret tt).

Definition run_operation (sigmoid tanh : Qc -> Qc) (behind : Z -> Memory)
    (nodenet : Nodenet) (o : operation) : M unit :=
  match o with
  | op_create_node nodetype nodespace_id id parameters gate_parameters gate_functions =>
      discard (create_node nodenet nodetype nodespace_id id parameters gate_parameters
                 gate_functions)
  | op_delete_node node_id => delete_node nodenet node_id
  | op_unlink_node_completely node_id => unlink_node_completely nodenet node_id
  | op_create_nodespace parent_id id => discard (create_nodespace nodenet parent_id id)
  | op_delete_nodespace nodespace_id => delete_nodespace nodenet nodespace_id
  | op_grow_number_of_nodes growby => grow_number_of_nodes growby
  | op_grow_number_of_nodespaces growby => grow_number_of_nodespaces growby
  | op_grow_number_of_elements growby => grow_number_of_elements growby
  | op_announce_nodes n e => announce_nodes n e
  | op_set_node_gate_parameter id g par v => set_node_gate_parameter id g par v
  | op_set_node_gatefunction_name id g n => set_node_gatefunction_name id g n
  | op_set_nodespace_gatetype_activator ns g act =>
      set_nodespace_gatetype_activator ns g act
  | op_set_nodespace_sampling_activator ns act => set_nodespace_sampling_activator ns act
  | op_set_link_weight s g t sl wt => set_link_weight nodenet s g t sl wt
  | op_group_nodes_by_ids ns ids g gt => group_nodes_by_ids nodenet ns ids g gt
  | op_ungroup_nodes ns g => ungroup_nodes ns g
  | op_set_activations ns g x => set_activations ns g x
  | op_set_thetas ns g x => set_thetas ns g x
  | op_set_link_weights nf gf nt gt x => set_link_weights nodenet nf gf nt gt x
  | op_set_inlink_weights pid f t x => set_inlink_weights nodenet pid f t x
  | op_propagate_inlinks q blk => propagate_inlinks q blk
  | op_propagate => modify propagate
  | op_calculate => calculate sigmoid tanh behind (current_step nodenet)
  end.

(** Ids handed in from outside are ids of the node net: at least [1] when a
    node or nodespace is created under a given id, not negative when one is
    deleted; vectors only grow. *)
Definition admissible (o : operation) : Prop :=
  match o with
  | op_create_node _ _ (Some id) _ _ _ => 1 <= id
  | op_create_nodespace _ (Some id) => 1 <= id
  | op_delete_node node_id => 0 <= node_id
  | op_delete_nodespace nodespace_id => 0 <= nodespace_id
  | op_grow_number_of_nodes growby => 0 <= growby
  | op_grow_number_of_nodespaces growby => 0 <= growby
  | _ => True
  end.

(** The states of a partition built with room for at least one node and one
    nodespace, after any sequence of operations, whether they return or
    raise. *)
Inductive reachable (sigmoid tanh : Qc -> Qc) (behind : Z -> Memory) : Partition -> Prop :=
| reachable_init (pid : Z) (sparse : bool) (initial_number_of_nodes
      average_elements_per_node_assumption initial_number_of_nodespaces : nat) :
    (1 <= initial_number_of_nodes)%nat ->
    (1 <= initial_number_of_nodespaces)%nat ->
    reachable sigmoid tanh behind
      (init pid sparse initial_number_of_nodes average_elements_per_node_assumption
         initial_number_of_nodespaces)
| reachable_step (nodenet : Nodenet) (o : operation) (p : Partition) :
    reachable sigmoid tanh behind p -> admissible o ->
    reachable sigmoid tanh behind (snd (run_operation sigmoid tanh behind nodenet o p)).

Lemma preserves_discard {A : Type} (I : Partition -> Prop) (m : M A)
    (Q : A -> Partition -> Prop) :
  triple I m Q I -> (forall x p, Q x p -> I p) -> preserves I (discard m).
Proof.
  intros H HQ. unfold discard. eapply triple_bind; [exact H|].
  intros x. apply triple_ret. apply HQ.
Qed.

Lemma preserves_run_operation sigmoid tanh behind nodenet (o : operation) :
  admissible o -> preserves sentinel_inv (run_operation sigmoid tanh behind nodenet o).
Proof.
  destruct o; cbn [admissible run_operation]; intros Ha.
  - eapply preserves_discard; [apply triple_create_node|].
    + destruct id; [exact Ha|exact I].
    + intros x p [_ H]; exact H.
  - apply preserves_delete_node; exact Ha.
  - apply keeps_sentinel, keeps_unlink_node_completely.
  - eapply preserves_discard; [apply triple_create_nodespace|].
    + destruct id; [exact Ha|exact I].
    + intros x p [_ H]; exact H.
  - apply preserves_delete_nodespace; exact Ha.
  - apply preserves_grow_number_of_nodes; exact Ha.
  - apply preserves_grow_number_of_nodespaces; exact Ha.
  - apply keeps_sentinel, keeps_grow_number_of_elements.
  - apply preserves_announce_nodes.
  - apply keeps_sentinel, keeps_set_node_gate_parameter.
  - apply keeps_sentinel, keeps_set_node_gatefunction_name.
  - apply keeps_sentinel, keeps_set_nodespace_gatetype_activator.
  - apply keeps_sentinel, keeps_set_nodespace_sampling_activator.
  - apply keeps_sentinel, keeps_set_link_weight.
  - apply keeps_sentinel, keeps_group_nodes_by_ids.
  - apply keeps_sentinel, keeps_ungroup_nodes.
  - apply keeps_sentinel, keeps_set_activations.
  - apply keeps_sentinel, keeps_set_thetas.
  - apply keeps_sentinel, keeps_set_link_weights.
  - apply keeps_sentinel, keeps_set_inlink_weights.
  - apply keeps_sentinel, keeps_propagate_inlinks.
  - apply keeps_sentinel, keeps_modify. intros p. reflexivity.
  - apply keeps_sentinel, keeps_calculate.
Qed.

Lemma sentinel_inv_init (pid : Z) (sparse : bool) (n e ns : nat) :
  (1 <= n)%nat -> (1 <= ns)%nat -> sentinel_inv (init pid sparse n e ns).
Proof.
  intros Hn Hns. unfold sentinel_inv, init. store_simpl.
  cbn [init_iv init_sv]. unfold zerosZ. rewrite !repeat_length.
  destruct n as [|n]; [lia|]. destruct ns as [|ns]; [lia|].
  cbn [repeat nth]. repeat split; lia.
Qed.

Lemma sentinel_inv_reachable sigmoid tanh behind (p : Partition) :
  reachable sigmoid tanh behind p -> sentinel_inv p.
Proof.
  induction 1 as [pid sparse n e ns Hn Hns|nodenet o p Hr IH Ha].
  - apply sentinel_inv_init; assumption.
  - pose proof (@preserves_run_operation sigmoid tanh behind nodenet o Ha p IH) as H.
    destruct (run_operation sigmoid tanh behind nodenet o p) as [[x|e] p']; exact H.
Qed.

Lemma in_range_bounds (lo hi i : Z) : In i (range lo hi) -> lo <= i < hi.
Proof.
  unfold range. rewrite in_map_iff. intros (k & <- & Hk).
  apply in_seq in Hk. lia.
Qed.

Lemma py_index_in_bounds (len : nat) (i : Z) :
  0 <= i < Z.of_nat len -> py_index len i = Some (Z.to_nat i).
Proof.
  intros H. unfold py_index.
  destruct (Z.leb_spec 0 i); [|lia]. destruct (Z.ltb_spec i (Z.of_nat len)); [|lia].
  reflexivity.
Qed.

(** a scan over valid indices returns *)
Lemma scan_free_ok (v : V.ivar) (default : Z) (indices : list Z) (p : Partition) :
  (forall i, In i indices -> 0 <= i < Z.of_nat (length (geti p v))) ->
  exists id, scan_free v default indices p = (Ok id, p).
Proof.
  induction indices as [|i tl IH]; intros H; cbn [scan_free].
  - exists default. reflexivity.
  - unfold bind, geti_at. rewrite py_index_in_bounds by (apply H; left; reflexivity).
    destruct (_ =? 0).
    + exists i. reflexivity.
    + apply IH. intros j Hj. apply H. right. exact Hj.
Qed.

(** the scan of the lower range stops at the free id 0 *)
Lemma scan_free_lower (v : V.ivar) (default hi : Z) (p : Partition) :
  nth 0 (geti p v) 0 = 0 -> (1 <= length (geti p v))%nat ->
  scan_free v default (range 0 hi) p = (Ok (if 0 <? hi then 0 else default), p).
Proof.
  intros H0 Hlen. unfold range.
  destruct (Z.ltb_spec 0 hi) as [Hhi|Hhi].
  - replace (Z.to_nat (hi - 0)) with (S (Z.to_nat (hi - 1))) by lia.
    cbn [seq map scan_free]. unfold bind, geti_at.
    rewrite py_index_in_bounds by lia.
    change (Z.to_nat (0 + Z.of_nat 0)) with 0%nat. rewrite H0. reflexivity.
  - replace (Z.to_nat (hi - 0)) with 0%nat by lia. reflexivity.
Qed.

Lemma allocate_node_id_returns (p : Partition) :
  sentinel_inv p -> exists id p', allocate_node_id p = (Ok id, p').
Proof.
  intros (H1 & H2 & H3 & H4 & H5 & H6 & H7 & H8).
  unfold allocate_node_id, bind, read.
  destruct (@scan_free_ok V.allocated_nodes 0
              (range (gets p V.last_allocated_node + 1) (gets p V.NoN)) p) as [id1 E1].
  { intros i Hi. apply in_range_bounds in Hi. lia. }
  rewrite E1.
  assert (E2 : exists id2,
             (if id1 <? 1
              then scan_free V.allocated_nodes id1
                     (range 0 (gets p V.last_allocated_node - 1))
              else ret id1) p = (Ok id2, p)).
  { destruct (id1 <? 1).
    - eexists. apply scan_free_lower; [exact H1|lia].
    - exists id1. reflexivity. }
  destruct E2 as [id2 E2]. rewrite E2.
  destruct (id2 <? 1).
  - unfold grow_number_of_nodes, modify. cbn [ret]. eexists. eexists. reflexivity.
  - eexists. eexists. reflexivity.
Qed.

Lemma allocate_nodespace_id_returns (p : Partition) :
  sentinel_inv p -> exists id p', allocate_nodespace_id p = (Ok id, p').
Proof.
  intros (H1 & H2 & H3 & H4 & H5 & H6 & H7 & H8).
  unfold allocate_nodespace_id, bind, read.
  destruct (@scan_free_ok V.allocated_nodespaces 0
              (range (gets p V.last_allocated_nodespace + 1) (gets p V.NoNS)) p)
    as [id1 E1].
  { intros i Hi. apply in_range_bounds in Hi. lia. }
  rewrite E1.
  assert (E2 : exists id2,
             (if id1 <? 1
              then scan_free V.allocated_nodespaces id1
                     (range 0 (gets p V.last_allocated_nodespace - 1))
              else ret id1) p = (Ok id2, p)).
  { destruct (id1 <? 1).
    - eexists. apply scan_free_lower; [exact H2|lia].
    - exists id1. reflexivity. }
  destruct E2 as [id2 E2]. rewrite E2.
  destruct (id2 <? 1).
  - unfold grow_number_of_nodespaces, modify. cbn [ret]. eexists. eexists. reflexivity.
  - eexists. eexists. reflexivity.
Qed.

(** C10 (amended): in every state of a partition that is reached from a
    new partition by admissible operations (see [admissible]: a node or a
    nodespace created under a given id gets an id that is at least 1), entry
    0 of [allocated_nodes] and of [allocated_nodespaces] is 0 (id 0 is
    free); the choice of an id by [create_node] and by [create_nodespace]
    returns, and returns an id that is at least 1; and whenever [create_node]
    or [create_nodespace], called without an id, returns, the id it returns
    is at least 1. *)
Theorem id_zero_is_never_allocated (sigmoid tanh : Qc -> Qc) (behind : Z -> Memory)
    (p : Partition) :
  reachable sigmoid tanh behind p ->
  nth 0 (geti p V.allocated_nodes) 0 = 0
  /\ nth 0 (geti p V.allocated_nodespaces) 0 = 0
  /\ (exists id p', allocate_node_id p = (Ok id, p') /\ 1 <= id)
  /\ (exists id p', allocate_nodespace_id p = (Ok id, p') /\ 1 <= id)
  /\ (forall nodenet nodetype nodespace_id parameters gate_parameters gate_functions id p',
        create_node nodenet nodetype nodespace_id None parameters gate_parameters
          gate_functions p = (Ok id, p') -> 1 <= id)
  /\ (forall nodenet parent_id id p',
        create_nodespace nodenet parent_id None p = (Ok id, p') -> 1 <= id).
Proof.
  intros Hr. pose proof (sentinel_inv_reachable Hr) as Hp.
  split; [apply Hp|]. split; [apply Hp|]. split; [|split; [|split]].
  - destruct (allocate_node_id_returns Hp) as (id & p' & E).
    exists id, p'. split; [exact E|].
    pose proof (triple_allocate_node_id Hp) as H. rewrite E in H. apply H.
  - destruct (allocate_nodespace_id_returns Hp) as (id & p' & E).
    exists id, p'. split; [exact E|].
    pose proof (triple_allocate_nodespace_id Hp) as H. rewrite E in H. apply H.
  - intros nodenet nodetype nodespace_id parameters gate_parameters gate_functions id p' E.
    pose proof (@triple_create_node nodenet nodetype nodespace_id None parameters
                  gate_parameters gate_functions I p Hp) as H.
    rewrite E in H. apply H.
  - intros nodenet parent_id id p' E.
    pose proof (@triple_create_nodespace nodenet parent_id None I p Hp) as H.
    rewrite E in H. apply H.
Qed.

Lemma id_zero_is_never_allocated_witness :
  let p := snd (run_operation (fun x => x) (fun x => x) (fun _ => zeros_behind)
                  (example_nodenet 0)
                  (op_create_node "Register" 1 None None None None)
                  (init 1 false 4 2 3)) in
  nth 0 (geti p V.allocated_nodes) 0 = 0
  /\ nth 0 (geti p V.allocated_nodespaces) 0 = 0
  /\ (exists id p', allocate_node_id p = (Ok id, p') /\ 1 <= id)
  /\ (exists id p', allocate_nodespace_id p = (Ok id, p') /\ 1 <= id)
  /\ (forall nodenet nodetype nodespace_id parameters gate_parameters gate_functions id p',
        create_node nodenet nodetype nodespace_id None parameters gate_parameters
          gate_functions p = (Ok id, p') -> 1 <= id)
  /\ (forall nodenet parent_id id p',
        create_nodespace nodenet parent_id None p = (Ok id, p') -> 1 <= id).
Proof.
  apply (@id_zero_is_never_allocated (fun x => x) (fun x => x) (fun _ => zeros_behind)).
  apply reachable_step.
  - apply reachable_init; lia.
  - exact I.
Defined.

(** C10 (counterexample): [create_node] and [create_nodespace] take the id
    they are given as it is.  Called with the id 0 on a new partition they
    return 0 and write entry 0 of [allocated_nodes] (the type, 1 for a
    register) and of [allocated_nodespaces] (the parent, 1): after these
    operations id 0 is allocated. *)
Lemma explicit_id_zero_is_allocated :
  let p := init 1 false 4 2 3 in
  let r := create_node (example_nodenet 0) "Register" 1 (Some 0) None None None p in
  let r' := create_nodespace (example_nodenet 0) 1 (Some 0) p in
  nth 0 (geti p V.allocated_nodes) 0 = 0
  /\ nth 0 (geti p V.allocated_nodespaces) 0 = 0
  /\ fst r = Ok 0
  /\ nth 0 (geti (snd r) V.allocated_nodes) 0 = REGISTER
  /\ fst r' = Ok 0
  /\ nth 0 (geti (snd r') V.allocated_nodespaces) 0 = 1.
Proof. cbv zeta. repeat split; vm_compute; reflexivity. Qed.

(** ** The scan of the lower id range *)

(** When no id above [last_allocated_node] is free, the partition grows and
    hands out the id [NoN], whatever ids are free below: the scan of the lower
    range stops at the free id 0, which is then taken for a miss. *)
Lemma lower_ids_are_not_reused (p : Partition) :
  sentinel_inv p ->
  (forall i, In i (range (gets p V.last_allocated_node + 1) (gets p V.NoN)) ->
             nth (Z.to_nat i) (geti p V.allocated_nodes) 0 <> 0) ->
  allocate_node_id p
  = (Ok (gets p V.NoN), snd (grow_number_of_nodes (gets p V.NoN / 2) p)).
Proof.
  intros (H1 & H2 & H3 & H4 & H5 & H6 & H7 & H8) Hfull.
  unfold allocate_node_id, bind, read.
  assert (E1 : scan_free V.allocated_nodes 0
                 (range (gets p V.last_allocated_node + 1) (gets p V.NoN)) p = (Ok 0, p)).
  { assert (Hb : forall i,
               In i (range (gets p V.last_allocated_node + 1) (gets p V.NoN)) ->
               0 <= i < Z.of_nat (length (geti p V.allocated_nodes))).
    { intros i Hi. apply in_range_bounds in Hi. lia. }
    revert Hfull Hb.
    generalize (range (gets p V.last_allocated_node + 1) (gets p V.NoN)).
    induction l as [|i tl IH]; intros Hfull Hb; cbn [scan_free]; [reflexivity|].
    unfold bind, geti_at. rewrite py_index_in_bounds by (apply Hb; left; reflexivity).
    destruct (Z.eqb_spec (nth (Z.to_nat i) (geti p V.allocated_nodes) 0) 0) as [E|E].
    - exfalso. apply (Hfull i); [left; reflexivity|exact E].
    - apply IH; intros j Hj; [apply Hfull|apply Hb]; right; exact Hj. }
  rewrite E1. change (0 <? 1) with true. cbv iota.
  rewrite scan_free_lower by (try exact H1; lia).
  destruct (0 <? gets p V.last_allocated_node - 1); change (0 <? 1) with true; cbv iota;
    unfold grow_number_of_nodes, bind, modify; reflexivity.
Qed.

(** five registers, nodes 2 and 4 deleted, one register created again: id 2
    is free, ids 1, 3, 4, 5 are in use and [last_allocated_node] is 4 *)
Definition lower_id_free : Partition :=
  snd ((create_register ;; create_register ;; create_register ;; create_register ;;
        create_register ;;
        delete_node (example_nodenet 0) 2 ;;
        delete_node (example_nodenet 0) 4 ;;
        create_register) (init 1 false 6 2 3)).

(** C9 (the code at the failing input): with [NoN = 6], ids 1, 3, 4, 5 in
    use, id 2 free and [last_allocated_node = 4], [create_node] without an id
    does not reuse id 2: it returns the id 6 and grows the node capacity from
    6 to 9, and id 2 is still free afterwards. *)
Theorem create_node_grows_despite_free_lower_id :
  geti lower_id_free V.allocated_nodes = [0; 1; 0; 1; 1; 1]
  /\ gets lower_id_free V.last_allocated_node = 4
  /\ gets lower_id_free V.NoN = 6
  /\ fst (create_register lower_id_free) = Ok 6
  /\ gets (snd (create_register lower_id_free)) V.NoN = 9
  /\ geti (snd (create_register lower_id_free)) V.allocated_nodes
     = [0; 1; 0; 1; 1; 1; 1; 0; 0].
Proof. repeat split; vm_compute; reflexivity. Qed.

(** ** The por-linked flags *)

(** two registers and a Pipe (elements 3 to 9, por slot 4), a link from each
    register to the por slot of the Pipe, one tick, and then the weight of the
    first link set to zero; [behind] is the memory behind the shifted views *)
Definition one_por_link_zeroed (behind : Z -> Memory) : Partition :=
  snd ((create_register ;; create_register ;; create_pipe ;;
        set_link_weight (example_nodenet 0) 1 "gen" 3 "por" 1%Qc ;;
        set_link_weight (example_nodenet 0) 2 "gen" 3 "por" 1%Qc ;;
        tick (fun x => x) (fun x => x) behind 0 ;;
        set_link_weight (example_nodenet 1) 1 "gen" 3 "por" 0%Qc)
         (init 1 false 4 4 3)).

(** C3 (the code at the failing input): after [set_link_weight] has set the
    weight of one of two links into the por slot of a live Pipe to zero, all
    seven por-linked flags of the Pipe are 0 although the row of its por slot
    still holds the non-zero weight of the other link; a further tick leaves
    flags and row as they are.  This holds whatever the memory behind the
    shifted views holds. *)
Theorem por_linked_flags_cleared_while_linked (behind : Z -> Memory) :
  map (eli (one_por_link_zeroed behind) V.n_function_selector) [3; 4; 5; 6; 7; 8; 9]%nat
  = [NFPG_PIPE_GEN; NFPG_PIPE_POR; NFPG_PIPE_RET; NFPG_PIPE_SUB; NFPG_PIPE_SUR;
     NFPG_PIPE_CAT; NFPG_PIPE_EXP]
  /\ map (eli (one_por_link_zeroed behind) V.n_node_porlinked) [3; 4; 5; 6; 7; 8; 9]%nat
     = [0; 0; 0; 0; 0; 0; 0]
  /\ any_nonzero (nth 4 (w (one_por_link_zeroed behind)) []) = 1
  /\ (let p := snd (tick (fun x => x) (fun x => x) behind 1 (one_por_link_zeroed behind)) in
      map (eli p V.n_node_porlinked) [3; 4; 5; 6; 7; 8; 9]%nat = [0; 0; 0; 0; 0; 0; 0]
      /\ any_nonzero (nth 4 (w p) []) = 1).
Proof. repeat split; vm_compute; reflexivity. Qed.

(** ** Invalid arguments *)

(** two registers (elements 1 and 2) in a group *)
Definition two_registers_grouped : Partition :=
  snd ((create_register ;; create_register ;;
        group_nodes_by_ids (example_nodenet 0) "s0011" [1; 2] "both" "gen")
         (init 1 false 4 2 3)).

(** C4 (counterexample): a value array of shape [(1,)] does not match a group
    of two elements, yet [set_activations] raises nothing: the value is
    broadcast and [a] changes. *)
Lemma mismatched_shape_is_broadcast :
  lookup_group two_registers_grouped "s0011" "both" = Some [1; 2]
  /\ fst (set_activations "s0011" "both" (lit 1 2 :: nil) two_registers_grouped) = Ok tt
  /\ getf (snd (set_activations "s0011" "both" (lit 1 2 :: nil) two_registers_grouped)) V.a
     <> getf two_registers_grouped V.a.
Proof.
  split; [vm_compute; reflexivity|]. split; [vm_compute; reflexivity|].
  intros H. apply (f_equal (fun l => this (nth 1 l 0%Qc))) in H.
  vm_compute in H. discriminate H.
Qed.

(** A register has the one gate gen; the check of [set_link_weight] compares
    the position of the gate with the number of gates by [>], so the gate por
    (position 1) passes and the weight is written into the matrix. *)
Example gate_check_is_off_by_one :
  fst (set_link_weight (example_nodenet 0) 1 "por" 2 "gen" 1%Qc two_registers_grouped)
  = Ok tt
  /\ map (map this)
         (w (snd (set_link_weight (example_nodenet 0) 1 "por" 2 "gen" 1%Qc
                    two_registers_grouped)))
     <> map (map this) (w two_registers_grouped).
Proof.
  split; [vm_compute; reflexivity|]. intros H. vm_compute in H. discriminate H.
Qed.

Lemma geti_at_in_bounds (v : V.ivar) (i : Z) (p : Partition) :
  0 <= i < Z.of_nat (length (geti p v)) ->
  geti_at v i p = (Ok (nth (Z.to_nat i) (geti p v) 0), p).
Proof. intros H. unfold geti_at. rewrite py_index_in_bounds by exact H. reflexivity. Qed.

Lemma np_assign_shape_mismatch {A : Type} (arr : list A) (indices : list Z)
    (values : list A) :
  length values <> length indices -> length values <> 1%nat ->
  exists e, np_assign arr indices values = Raise e.
Proof.
  intros H1 H2. unfold np_assign.
  destruct (forallb _ indices); [|eexists; reflexivity].
  destruct (Nat.eqb_spec (length values) (length indices)) as [E|E]; [contradiction|].
  destruct values as [|x [|y tl]]; try (eexists; reflexivity).
  exfalso. apply H2. reflexivity.
Qed.

(** C4 (amended): the calls below raise and leave the partition as it was:
    [set_link_weight] with an unknown gate or slot name, or with a gate (slot)
    whose position is greater than the number of gates (slots) of the node's
    type; [get_activations], [set_activations], [get_thetas], [set_thetas] and
    [get_link_weights] for a group that does not exist (a [ValueError]);
    [set_link_weights] for a group that does not exist (a [KeyError]);
    [set_activations] and [set_thetas] with a value array whose length is
    neither the size of the group nor 1, and [set_link_weights] with a matrix
    that cannot be broadcast to the sizes of the groups. *)
Theorem invalid_arguments_raise (nodenet : Nodenet) (p : Partition) :
  (forall source_node_id gate_type target_node_id slot_type weight,
      0 <= source_node_id < Z.of_nat (length (geti p V.allocated_nodes)) ->
      0 <= target_node_id < Z.of_nat (length (geti p V.allocated_nodes)) ->
      let source_type := nth (Z.to_nat source_node_id) (geti p V.allocated_nodes) 0 in
      let target_type := nth (Z.to_nat target_node_id) (geti p V.allocated_nodes) 0 in
      (get_numerical_gate_type gate_type = None
       \/ get_numerical_slot_type slot_type = None
       \/ (exists ngt nst gates,
              get_numerical_gate_type gate_type = Some ngt
              /\ get_numerical_slot_type slot_type = Some nst
              /\ get_gates_per_type source_type = Some gates
              /\ (ngt > gates
                  \/ exists slots, get_slots_per_type target_type = Some slots
                                   /\ nst > slots))) ->
      set_link_weight nodenet source_node_id gate_type target_node_id slot_type weight p
      = (Raise ValueError, p))
  /\ (forall nodespace_uid group x,
         lookup_group p nodespace_uid group = None ->
         get_activations nodespace_uid group p = (Raise ValueError, p)
         /\ set_activations nodespace_uid group x p = (Raise ValueError, p)
         /\ get_thetas nodespace_uid group p = (Raise ValueError, p)
         /\ set_thetas nodespace_uid group x p = (Raise ValueError, p))
  /\ (forall nodespace_from_uid group_from nodespace_to_uid group_to new_w,
         lookup_group p nodespace_from_uid group_from = None
         \/ lookup_group p nodespace_to_uid group_to = None ->
         get_link_weights nodespace_from_uid group_from nodespace_to_uid group_to p
         = (Raise ValueError, p)
         /\ set_link_weights nodenet nodespace_from_uid group_from nodespace_to_uid
              group_to new_w p = (Raise KeyError, p))
  /\ (forall nodespace_uid group indices x,
         lookup_group p nodespace_uid group = Some indices ->
         length x <> length indices -> length x <> 1%nat ->
         (exists e, set_activations nodespace_uid group x p = (Raise e, p))
         /\ (exists e, set_thetas nodespace_uid group x p = (Raise e, p)))
  /\ (forall nodespace_from_uid group_from nodespace_to_uid group_to grp_from grp_to new_w,
         lookup_group p nodespace_from_uid group_from = Some grp_from ->
         lookup_group p nodespace_to_uid group_to = Some grp_to ->
         broadcast2 (length grp_to) (length grp_from) new_w = None ->
         exists e, set_link_weights nodenet nodespace_from_uid group_from nodespace_to_uid
                     group_to new_w p = (Raise e, p)).
Proof.
  split; [|split; [|split; [|split]]].
  - intros s g t sl weight Hs Ht source_type target_type H.
    unfold set_link_weight, bind.
    rewrite (@geti_at_in_bounds V.allocated_nodes s p Hs).
    rewrite (@geti_at_in_bounds V.allocated_nodes t p Ht).
    fold source_type target_type.
    destruct H as [H|[H|(ngt & nst & gates & Hg & Hsl & Hgates & H)]].
    + rewrite H. reflexivity.
    + rewrite H. destruct (get_numerical_gate_type g); reflexivity.
    + rewrite Hg, Hsl. cbn [of_option ret]. rewrite Hgates. cbn [of_option ret].
      destruct (Z.gtb_spec ngt gates) as [E|E]; [reflexivity|].
      destruct H as [H|(slots & Hslots & H)]; [lia|].
      cbn [ret]. rewrite Hslots. cbn [of_option ret].
      destruct (Z.gtb_spec nst slots) as [E'|E']; [reflexivity|lia].
  - intros ns g x H.
    unfold get_activations, set_activations, get_thetas, set_thetas, bind, read.
    rewrite H. repeat split; reflexivity.
  - intros nf gf nt gt new_w H.
    unfold get_link_weights, set_link_weights, bind, read.
    destruct H as [H|H].
    + rewrite H. split; reflexivity.
    + destruct (lookup_group p nf gf) eqn:E; cbn [of_option ret raise]; rewrite ?H;
        split; reflexivity.
  - intros ns g indices x H H1 H2.
    unfold set_activations, set_thetas, bind, read. rewrite H.
    split.
    + destruct (@np_assign_shape_mismatch _ (getf p V.a) indices x H1 H2) as [e E].
      exists e. rewrite E. reflexivity.
    + destruct (@np_assign_shape_mismatch _ (getf p V.g_theta) indices x H1 H2) as [e E].
      exists e. rewrite E. reflexivity.
  - intros nf gf nt gt grp_from grp_to new_w Hf Ht Hb.
    unfold set_link_weights, bind, read. rewrite Hf. cbn [of_option ret].
    rewrite Ht. cbn [of_option ret].
    unfold set_block. rewrite Hb.
    destruct (get_block (w p) grp_from grp_to); eexists; reflexivity.
Qed.

Lemma invalid_arguments_raise_witness :
  set_link_weight (example_nodenet 0) 1 "ret" 2 "gen" 1%Qc two_registers_grouped
  = (Raise ValueError, two_registers_grouped)
  /\ set_activations "s0011" "none" [] two_registers_grouped
     = (Raise ValueError, two_registers_grouped)
  /\ (exists e, set_activations "s0011" "both" [1%Qc; 1%Qc; 1%Qc] two_registers_grouped
                = (Raise e, two_registers_grouped)).
Proof.
  destruct (invalid_arguments_raise (example_nodenet 0) two_registers_grouped)
    as (H1 & H2 & H3 & H4 & H5).
  split; [|split].
  - assert (Hb : 0 <= 1 < Z.of_nat (length (geti two_registers_grouped V.allocated_nodes)))
      by (split; [lia|vm_compute; reflexivity]).
    assert (Hb' : 0 <= 2 < Z.of_nat (length (geti two_registers_grouped V.allocated_nodes)))
      by (split; [lia|vm_compute; reflexivity]).
    refine (H1 1 "ret"%string 2 "gen"%string 1%Qc Hb Hb' _).
    right. right. exists 2, 0, 1. repeat split. left. lia.
  - assert (Hg : lookup_group two_registers_grouped "s0011" "none" = None)
      by (vm_compute; reflexivity).
    exact (proj1 (proj2 (H2 "s0011"%string "none"%string [] Hg))).
  - assert (Hg : lookup_group two_registers_grouped "s0011" "both" = Some [1; 2])
      by (vm_compute; reflexivity).
    assert (Hl : length [1%Qc; 1%Qc; 1%Qc] <> length [1; 2]) by (simpl; lia).
    assert (Hl' : length [1%Qc; 1%Qc; 1%Qc] <> 1%nat) by (simpl; lia).
    exact (proj1 (H4 "s0011"%string "both"%string [1; 2] [1%Qc; 1%Qc; 1%Qc] Hg Hl Hl')).
Defined.

(** ** The cross-partition scenario *)

(** partition P (pid 1): the register rP (element 1) and the block of links
    from partition 2 that holds the one link of weight 2 from element 1 of
    that partition to element 1 *)
Definition scenario_P : Partition :=
  snd ((create_register ;;
        set_inlink_weights (example_nodenet 0) 2 [1] [1] ((lit 2 1 :: nil) :: nil))
         (init 1 false 4 2 3)).

(** partition Q (pid 2): the register rQ (element 1) with [a[rQ] = 0.25] *)
Definition scenario_Q : Partition :=
  snd ((create_register ;;
        group_nodes_by_ids (example_nodenet 0) "s0021" [1] "rQ" "gen" ;;
        set_activations "s0021" "rQ" (lit 1 4 :: nil))
         (init 2 false 4 2 3)).

Definition scenario_net : Net := mkNet [(1, scenario_P); (2, scenario_Q)] 0.

Definition partition_of (net : Net) (pid : Z) : Partition :=
  match lookupZ pid (partitions net) with
  | Some p => p
  | None => init pid false 0 0 0
  end.

(** a memory of zeros behind the views of every partition, which hold
    registers only and read none of it *)
Definition scenario_after_tick : Net :=
  scheduler_tick (fun x => x) (fun x => x) (fun _ _ => zeros_behind) scenario_net.

(** C5 (counterexample): in the scenario, after one scheduler tick in the
    order propagation, contributions, non-linear update, [a[rP]] is not
    0.5. *)
Lemma cross_partition_not_one_half :
  elf scenario_Q V.a 1 = lit 1 4
  /\ inlinks scenario_P
     = (2, mkInlink (1 :: nil) (1 :: nil) ((lit 2 1 :: nil) :: nil)) :: nil
  /\ elf (partition_of scenario_after_tick 1) V.a 1 <> lit 1 2.
Proof.
  split; [apply Qc_is_canon; vm_compute; reflexivity|].
  split; [vm_compute; reflexivity|].
  intros H. apply (f_equal this) in H. vm_compute in H. discriminate H.
Qed.

(** C5 (amended): in the scenario, after one scheduler tick in the order
    propagation, contributions, non-linear update, [a[rP]] is 0: the
    propagation of Q has replaced [a[rQ] = 0.25] by [a_in + W.a = 0] (the old
    value is in [a_prev]) before the contribution into [a_in[rP]] is built
    from it, and that contribution, 0, is not part of [a[rP]] in this tick
    anyway. *)
Theorem cross_partition_after_one_tick :
  elf (partition_of scenario_after_tick 1) V.a 1 = 0%Qc
  /\ elf (partition_of scenario_after_tick 1) V.a_in 1 = 0%Qc
  /\ elf (partition_of scenario_after_tick 2) V.a 1 = 0%Qc
  /\ elf (partition_of scenario_after_tick 2) V.a_prev 1 = lit 1 4.
Proof. repeat split; apply Qc_is_canon; vm_compute; reflexivity. Qed.

(** For comparison: were the contributions added to [a_in] before the local
    propagation, [a[rP]] would be [2 * 0.25 = 0.5] after the tick. *)
Example contributions_before_propagation :
  let ps := partitions scenario_net in
  let ps := run_all (contributions ps) ps in
  let ps := run_all (modify propagate) ps in
  let ps := run_all (calculate (fun x => x) (fun x => x) (fun _ => zeros_behind) 0) ps in
  elf (partition_of (mkNet ps 1) 1) V.a 1 = lit 1 2.
Proof. apply Qc_is_canon; vm_compute; reflexivity. Qed.

(** * Persistence: the round trip through an archive *)

(** ** Compressed sparse rows *)

Lemma set_nth_app_r {A : Type} (pre : list A) (x y : A) (tl : list A) :
  set_nth (length pre) x (pre ++ y :: tl) = pre ++ x :: tl.
Proof. induction pre as [|z pre IH]; simpl; [reflexivity|]. rewrite IH. reflexivity. Qed.

Lemma zeros_snoc (n : nat) : zeros n ++ [0%Qc]%list = zeros (S n).
Proof.
  unfold zeros. induction n as [|n IH]; simpl; [reflexivity|]. rewrite IH. reflexivity.
Qed.

Lemma dense_row_from (row : list Qc) (k : nat) :
  dense_row (k + length row) (row_data row) (row_indices_from (Z.of_nat k) row)
  = zeros k ++ row.
Proof.
  revert k. induction row as [|x tl IH]; intros k; cbn [row_data filter row_indices_from].
  - cbn [dense_row length]. rewrite Nat.add_0_r, app_nil_r. reflexivity.
  - replace (Z.of_nat k + 1) with (Z.of_nat (S k)) by lia.
    cbn [length]. replace (k + S (length tl))%nat with (S k + length tl)%nat by lia.
    specialize (IH (S k)).
    destruct (Qc_eqb x 0%Qc) eqn:E; cbn [negb].
    + fold (row_data tl). rewrite IH. apply Qc_eqb_eq in E. subst x.
      rewrite <- zeros_snoc, <- app_assoc. reflexivity.
    + fold (row_data tl). cbn [dense_row]. rewrite IH, Nat2Z.id.
      rewrite <- zeros_snoc, <- app_assoc. cbn [app].
      replace k with (length (zeros k)) at 1 by apply repeat_length.
      apply set_nth_app_r.
Qed.

Lemma dense_row_roundtrip (row : list Qc) :
  dense_row (length row) (row_data row) (row_indices row) = row.
Proof. exact (dense_row_from row 0). Qed.

Lemma length_row_indices_from (j : Z) (row : list Qc) :
  length (row_indices_from j row) = length (row_data row).
Proof.
  revert j. induction row as [|x tl IH]; intros j; cbn [row_data filter row_indices_from];
    [reflexivity|].
  destruct (Qc_eqb x 0%Qc); cbn [negb length]; fold (row_data tl); rewrite IH; reflexivity.
Qed.

Lemma row_indices_from_bounds (j : Z) (row : list Qc) (i : Z) :
  In i (row_indices_from j row) -> j <= i < j + Z.of_nat (length row).
Proof.
  revert j. induction row as [|x tl IH]; intros j; cbn [row_indices_from length]; [intros []|].
  destruct (Qc_eqb x 0%Qc).
  - intros H. apply IH in H. lia.
  - intros [H|H]; [lia|]. apply IH in H. lia.
Qed.

Lemma slice_app_middle {A : Type} (pre mid post : list A) :
  slice (pre ++ mid ++ post) (Z.of_nat (length pre))
    (Z.of_nat (length pre) + Z.of_nat (length mid)) = mid.
Proof.
  unfold slice. rewrite !Z.max_r by lia.
  replace (Z.to_nat (Z.of_nat (length pre) + Z.of_nat (length mid)) -
           Z.to_nat (Z.of_nat (length pre)))%nat with (length mid) by lia.
  rewrite Nat2Z.id, skipn_app, skipn_all, Nat.sub_diag. cbn [skipn app].
  rewrite firstn_app, firstn_all, Nat.sub_diag. cbn [firstn]. apply app_nil_r.
Qed.

Lemma indptr_from_head (start : Z) (w : list (list Qc)) :
  exists rest, indptr_from start w = start :: rest.
Proof. destruct w; eexists; reflexivity. Qed.

Lemma dense_rows_cons (n : nat) (data : list Qc) (indices : list Z) (lo hi : Z)
    (rest : list Z) :
  dense_rows n data indices (lo :: hi :: rest)
  = dense_row n (slice data lo hi) (slice indices lo hi)
    :: dense_rows n data indices (hi :: rest).
Proof. reflexivity. Qed.

Lemma dense_rows_from (n : nat) (w : list (list Qc)) (pd : list Qc) (pi : list Z) :
  Forall (fun row => length row = n) w ->
  length pd = length pi ->
  dense_rows n (pd ++ flat_map row_data w) (pi ++ flat_map row_indices w)
    (indptr_from (Z.of_nat (length pd)) w) = w.
Proof.
  intros Hw. revert pd pi. induction Hw as [|row rows Hrow Hrows IH]; intros pd pi Hlen.
  - reflexivity.
  - cbn [indptr_from flat_map].
    destruct (indptr_from_head (Z.of_nat (length pd) + Z.of_nat (length (row_data row)))
                rows) as [rest Hi].
    rewrite Hi, dense_rows_cons, <- Hi.
    rewrite slice_app_middle.
    rewrite Hlen at 1 2.
    rewrite <- (length_row_indices_from 0 row) at 1. fold (row_indices row).
    rewrite slice_app_middle.
    rewrite <- Hrow at 1. rewrite dense_row_roundtrip. f_equal.
    rewrite !app_assoc.
    replace (Z.of_nat (length pd) + Z.of_nat (length (row_data row)))
      with (Z.of_nat (length (pd ++ row_data row))) by (rewrite length_app; lia).
    apply IH. rewrite !length_app. unfold row_indices.
    rewrite length_row_indices_from. lia.
Qed.

Lemma length_indptr_from (start : Z) (w : list (list Qc)) :
  length (indptr_from start w) = S (length w).
Proof.
  revert start. induction w as [|row tl IH]; intros start; cbn [indptr_from length];
    [reflexivity|]. rewrite IH. reflexivity.
Qed.

(** reading back what [save] writes of the weight matrix gives the matrix *)
Lemma csr_roundtrip (n : nat) (w : list (list Qc)) :
  length w = n -> Forall (fun row => length row = n) w ->
  let '(data, indices, indptr) := csr_of_dense w in
  dense_of_csr n data indices indptr = Ok w.
Proof.
  intros Hlen Hw. unfold csr_of_dense, dense_of_csr.
  rewrite length_indptr_from, Hlen, Nat.eqb_refl.
  assert (E : length (flat_map row_data w) = length (flat_map row_indices w)).
  { clear. induction w as [|row tl IH]; cbn [flat_map]; [reflexivity|].
    rewrite !length_app, IH. unfold row_indices. rewrite length_row_indices_from.
    reflexivity. }
  rewrite E, Nat.eqb_refl.
  assert (B : forallb (fun j => (0 <=? j) && (j <? Z.of_nat n))
                (flat_map row_indices w) = true).
  { apply forallb_forall. intros j Hj. apply in_flat_map in Hj.
    destruct Hj as (row & Hin & Hj).
    rewrite Forall_forall in Hw. specialize (Hw row Hin).
    apply row_indices_from_bounds in Hj.
    apply andb_true_intro. split; [apply Z.leb_le|apply Z.ltb_lt]; lia. }
  rewrite B. cbn [andb]. f_equal.
  exact (@dense_rows_from n w [] [] Hw eq_refl).
Qed.

(** ** The link flags as a function of the weight matrix *)

Definition linked_flags (NoE : nat) (selector : list Z) (w : list (list Qc)) (sel : Z)
    (deltas : list Z) : option (list Z) :=
  let indices := np_where_eq sel selector 0 in
  match rows_of w indices with
  | Some slotrows => scatter_all (zerosZ NoE) indices deltas (map any_nonzero slotrows)
  | None => None
  end.

Definition por_linked_of (p : Partition) : option (list Z) :=
  linked_flags (Z.to_nat (gets p V.NoE)) (geti p V.n_function_selector) (w p)
    NFPG_PIPE_POR [-1; 0; 1; 2; 3; 4; 5].

Definition ret_linked_of (p : Partition) : option (list Z) :=
  linked_flags (Z.to_nat (gets p V.NoE)) (geti p V.n_function_selector) (w p)
    NFPG_PIPE_RET [-2; -1; 0; 1; 2; 3; 4].

Lemma rebuild_por_linked_eq (p : Partition) :
  rebuild_por_linked p
  = match por_linked_of p with
    | Some flags => (Ok tt, seti V.n_node_porlinked flags p)
    | None => (Raise IndexError, p)
    end.
Proof.
  unfold rebuild_por_linked, por_linked_of, linked_flags, bind, read, modify.
  destruct (rows_of _ _) as [slotrows|]; [|reflexivity].
  cbn [of_option ret]. destruct (scatter_all _ _ _ _); reflexivity.
Qed.

Lemma rebuild_ret_linked_eq (p : Partition) :
  rebuild_ret_linked p
  = match ret_linked_of p with
    | Some flags => (Ok tt, seti V.n_node_retlinked flags p)
    | None => (Raise IndexError, p)
    end.
Proof.
  unfold rebuild_ret_linked, ret_linked_of, linked_flags, bind, read, modify.
  destruct (rows_of _ _) as [slotrows|]; [|reflexivity].
  cbn [of_option ret]. destruct (scatter_all _ _ _ _); reflexivity.
Qed.

(** ** The setters of the capability flags *)

Lemma set_flag_get_flag (v : V.bvar) (f : Flags) : set_flag v (get_flag v f) f = f.
Proof. destruct f, v; reflexivity. Qed.

Lemma set_has_eq (v : V.bvar) (value : bool) (p : Partition) :
  getb p V.has_new_usages = true -> v <> V.has_new_usages ->
  set_has v value p = (Ok tt, setb v value p).
Proof.
  intros Hnew Hv. unfold set_has, modify. f_equal.
  destruct p as [fv0 iv0 sv0 bv0 w0 sh0 th0 ng0 il0 cu0].
  unfold setb, getb in *. cbn [fv iv sv bv w a_shifted g_theta_shifted nodegroups inlinks
                               calculate_nodes_usages] in *.
  destruct (Bool.eqb value (get_flag v bv0)) eqn:E.
  - apply eqb_prop in E. subst value. rewrite set_flag_get_flag. reflexivity.
  - f_equal. destruct bv0, v; cbn in *; subst; reflexivity.
Qed.

(** ** Two partitions in step *)

(** What the ticks of a partition compute with and what they compute,
    apart from [a_prev], the step counter and the link flags: the float
    vectors, the integer vectors of the gates and of the node functions, the
    weights. *)
Definition numerical_state (p : Partition) :=
  (getf p V.a, getf p V.a_in, getf p V.g_theta, getf p V.g_factor,
   getf p V.g_threshold, getf p V.g_amplification, getf p V.g_min, getf p V.g_max,
   getf p V.g_expect,
   (geti p V.g_function_selector, geti p V.g_countdown, geti p V.g_wait,
    geti p V.n_function_selector, geti p V.allocated_elements_to_activators),
   w p, gets p V.NoE).

Definition link_flags (p : Partition) :=
  (geti p V.n_node_porlinked, geti p V.n_node_retlinked).

Definition activator_flags (p : Partition) :=
  (getb p V.has_directional_activators, getb p V.has_sampling_activators).

(** *** What the node functions read of the shifted views *)

Definition pipe_code (c : Z) : bool := (NFPG_PIPE_GEN <=? c) && (c <=? NFPG_PIPE_EXP).
Definition lstm_code (c : Z) : bool := (NFPG_LSTM_GEN <=? c) && (c <=? NFPG_LSTM_GFG).

(** the last column of its row of the shifted views that the node function
    with the selector [c] reads (and its countdown update, for por and
    sur) *)
Definition reach (c : Z) : nat :=
  if c =? NFPG_PIPE_GEN then 13
  else if c =? NFPG_PIPE_POR then 10
  else if c =? NFPG_PIPE_RET then 9
  else if c =? NFPG_PIPE_SUB then 9
  else if c =? NFPG_PIPE_SUR then 9
  else if c =? NFPG_PIPE_CAT then 7
  else if c =? NFPG_PIPE_EXP then 7
  else if c =? NFPG_LSTM_GEN then 11
  else if c =? NFPG_LSTM_POR then 10
  else if c =? NFPG_LSTM_GIN then 7
  else if c =? NFPG_LSTM_GOU then 7
  else if c =? NFPG_LSTM_GFG then 7
  else 0.

(** no node function of the [n] elements reads a view behind its buffer of
    [n] items: element [i] reads the items [i .. i + reach] *)
Definition reads_within (n_function_selector : list Z) (n : nat) : bool :=
  forallb (fun i => (i + reach (nth i n_function_selector 0%Z) <? n)%nat) (seq 0 n).

(** the graph compiled for the flags [u] holds every function that a
    selector names *)
Definition supports (u : Usages) (n_function_selector g_function_selector : list Z) : bool :=
  forallb (fun c => implb (pipe_code c) (u_pipes u) && implb (lstm_code c) (u_lstms u))
    n_function_selector
  && forallb (fun c => implb (c =? GATE_FUNCTION_ABSOLUTE) (u_absolute u)
                       && implb (c =? GATE_FUNCTION_SIGMOID) (u_sigmoid u)
                       && implb (c =? GATE_FUNCTION_TANH) (u_tanh u)
                       && implb (c =? GATE_FUNCTION_RECT) (u_rect u)
                       && implb (c =? GATE_FUNCTION_DIST) (u_one_over_x u))
       g_function_selector.

(** every index of [indices] is an index into an array of [n] items *)
Definition indexes (n : nat) (indices : list Z) : bool :=
  forallb (fun i => match py_index n i with Some _ => true | None => false end) indices.

(** What ticks leave as it is, and rely on:
    - the vectors [a], [a_in], [g_theta], [g_countdown] hold [NoE] items and
      [w] has [NoE] rows;
    - the capability flags cover the selectors;
    - no node function reads behind the buffer of a shifted view;
    - the link flags can be rebuilt;
    - with activators, [a] is not empty and
      [allocated_elements_to_activators] indexes [a]. *)
Definition well_formed (p : Partition) : Prop :=
  length (getf p V.a) = Z.to_nat (gets p V.NoE)
  /\ length (getf p V.a_in) = Z.to_nat (gets p V.NoE)
  /\ length (getf p V.g_theta) = Z.to_nat (gets p V.NoE)
  /\ length (geti p V.g_countdown) = Z.to_nat (gets p V.NoE)
  /\ length (w p) = Z.to_nat (gets p V.NoE)
  /\ supports (current_usages p) (geti p V.n_function_selector)
       (geti p V.g_function_selector) = true
  /\ reads_within (geti p V.n_function_selector) (Z.to_nat (gets p V.NoE)) = true
  /\ por_linked_of p <> None
  /\ ret_linked_of p <> None
  /\ (getb p V.has_directional_activators || getb p V.has_sampling_activators = true ->
      (0 < Z.to_nat (gets p V.NoE))%nat
      /\ indexes (Z.to_nat (gets p V.NoE))
           (geti p V.allocated_elements_to_activators) = true).

(** the compiled graph is the one of the flags, unless a new one is due *)
Definition graph_ok (p : Partition) : Prop :=
  getb p V.has_new_usages = true \/ calculate_nodes_usages p = Some (current_usages p).

(** the link flags are the ones the weights give, unless a rebuild is due *)
Definition links_ok (p : Partition) : Prop :=
  getb p V.por_ret_dirty = true
  \/ (por_linked_of p = Some (geti p V.n_node_porlinked)
      /\ ret_linked_of p = Some (geti p V.n_node_retlinked)).

Definition coherent (p : Partition) : Prop :=
  well_formed p /\ graph_ok p /\ links_ok p.

(** Two partitions are in step when they agree on the numerical state and on
    the presence of activators, and each of them is coherent.  They may
    differ in [a_prev], in the step counter, in the shifted views, in the
    capability flags that cover the selectors, in the compiled graph and the
    link flags where these are due for a rebuild, and in everything ticks do
    not read. *)
Definition in_step (p q : Partition) : Prop :=
  numerical_state p = numerical_state q
  /\ activator_flags p = activator_flags q
  /\ coherent p /\ coherent q.

(** within a tick, after the propagation *)
Definition in_tick (p q : Partition) : Prop :=
  in_step p q
  /\ getf p V.a_prev = getf q V.a_prev
  /\ gets p V.t = gets q V.t.

(** after the compilation *)
Definition compiled (p q : Partition) : Prop :=
  numerical_state p = numerical_state q
  /\ activator_flags p = activator_flags q
  /\ well_formed p /\ well_formed q
  /\ links_ok p /\ links_ok q
  /\ getf p V.a_prev = getf q V.a_prev
  /\ gets p V.t = gets q V.t
  /\ calculate_nodes_usages p = Some (current_usages p)
  /\ calculate_nodes_usages q = Some (current_usages q).

(** after the rebuild of the link flags *)
Definition linked (p q : Partition) : Prop :=
  numerical_state p = numerical_state q
  /\ activator_flags p = activator_flags q
  /\ well_formed p /\ well_formed q
  /\ getf p V.a_prev = getf q V.a_prev
  /\ gets p V.t = gets q V.t
  /\ calculate_nodes_usages p = Some (current_usages p)
  /\ calculate_nodes_usages q = Some (current_usages q)
  /\ link_flags p = link_flags q
  /\ por_linked_of p = Some (geti p V.n_node_porlinked)
  /\ ret_linked_of p = Some (geti p V.n_node_retlinked)
  /\ por_linked_of q = Some (geti q V.n_node_porlinked)
  /\ ret_linked_of q = Some (geti q V.n_node_retlinked).

(** at the end of a tick *)
Definition ticked (p q : Partition) : Prop :=
  in_step p q /\ link_flags p = link_flags q.

(** the two runs end alike: the same result and [Q], or the same exception
    and [E] *)
Definition sim {A : Type} (R : Partition -> Partition -> Prop) (m m' : M A)
    (Q : A -> Partition -> Partition -> Prop) (E : Partition -> Partition -> Prop)
  : Prop :=
  forall p q, R p q ->
    match m p, m' q with
    | (Ok x, p'), (Ok y, q') => x = y /\ Q x p' q'
    | (Raise e, p'), (Raise e', q') => e = e' /\ E p' q'
    | _, _ => False
    end.

(** neither run raises *)
Definition never : Partition -> Partition -> Prop := fun _ _ => False.

Section Sim.

Context {A B : Type}.
Variables R : Partition -> Partition -> Prop.
Variables E : Partition -> Partition -> Prop.

Lemma sim_bind (m m' : M A) (k k' : A -> M B) (Q : A -> Partition -> Partition -> Prop)
    (Q' : B -> Partition -> Partition -> Prop) :
  sim R m m' Q E -> (forall x, sim (Q x) (k x) (k' x) Q' E) ->
  sim R (bind m k) (bind m' k') Q' E.
Proof.
  intros Hm Hk p q H. specialize (Hm p q H). unfold bind.
  destruct (m p) as [[x|e] p'], (m' q) as [[y|e'] q']; try contradiction.
  - destruct Hm as [<- Hm]. exact (Hk x p' q' Hm).
  - exact Hm.
Qed.

Lemma sim_read_bind (f : Partition -> A) (k k' : A -> M B)
    (Q' : B -> Partition -> Partition -> Prop) :
  (forall p q, R p q -> f p = f q) ->
  (forall x, sim (fun p q => R p q /\ f p = x) (k x) (k' x) Q' E) ->
  sim R (bind (read f) k) (bind (read f) k') Q' E.
Proof.
  intros Hf Hk p q H. unfold bind, read. rewrite <- (Hf p q H).
  exact (Hk (f p) p q (conj H eq_refl)).
Qed.

Lemma sim_reads_bind (f : Partition -> A) (k k' : A -> M B)
    (Q' : B -> Partition -> Partition -> Prop) :
  (forall x y, sim (fun p q => R p q /\ f p = x /\ f q = y) (k x) (k' y) Q' E) ->
  sim R (bind (read f) k) (bind (read f) k') Q' E.
Proof.
  intros Hk p q H. unfold bind, read.
  exact (Hk (f p) (f q) p q (conj H (conj eq_refl eq_refl))).
Qed.

Lemma sim_pre (R' : Partition -> Partition -> Prop) (m m' : M A)
    (Q : A -> Partition -> Partition -> Prop) :
  (forall p q, R p q -> R' p q) -> sim R' m m' Q E -> sim R m m' Q E.
Proof. intros HR Hm p q H. exact (Hm p q (HR p q H)). Qed.

End Sim.

Lemma sim_modify (R : Partition -> Partition -> Prop) (g : Partition -> Partition)
    (Q : unit -> Partition -> Partition -> Prop) (E : Partition -> Partition -> Prop) :
  (forall p q, R p q -> Q tt (g p) (g q)) -> sim R (modify g) (modify g) Q E.
Proof. intros Hg p q H. unfold modify. split; [reflexivity|]. exact (Hg p q H). Qed.

Lemma sim_when (R : Partition -> Partition -> Prop) (b : bool) (m m' : M unit)
    (Q : unit -> Partition -> Partition -> Prop) (E : Partition -> Partition -> Prop) :
  (b = true -> sim R m m' Q E) -> (b = false -> forall p q, R p q -> Q tt p q) ->
  sim R (when b m) (when b m') Q E.
Proof.
  intros Ht Hf. destruct b; cbn [when].
  - exact (Ht eq_refl).
  - intros p q H. split; [reflexivity|]. exact (Hf eq_refl p q H).
Qed.

(** reads through the setters *)
Ltac store_read :=
  unfold geti, gets, getf, getb;
  cbn [iv sv fv bv w a_shifted g_theta_shifted calculate_nodes_usages
       seti sets setf setb set_w set_a_shifted set_g_theta_shifted
       set_calculate_nodes_usages upd get_flag set_flag
       f_sparse f_has_new_usages f_has_pipes f_has_lstms f_has_directional_activators
       f_has_sampling_activators f_has_gatefunction_absolute f_has_gatefunction_sigmoid
       f_has_gatefunction_tanh f_has_gatefunction_rect f_has_gatefunction_one_over_x
       f_por_ret_dirty
       ivar_beq svar_beq fvar_beq bvar_beq].

Ltac store_read_all :=
  unfold geti, gets, getf, getb in *;
  cbn [iv sv fv bv w a_shifted g_theta_shifted calculate_nodes_usages
       seti sets setf setb set_w set_a_shifted set_g_theta_shifted
       set_calculate_nodes_usages upd get_flag set_flag
       f_sparse f_has_new_usages f_has_pipes f_has_lstms f_has_directional_activators
       f_has_sampling_activators f_has_gatefunction_absolute f_has_gatefunction_sigmoid
       f_has_gatefunction_tanh f_has_gatefunction_rect f_has_gatefunction_one_over_x
       f_por_ret_dirty
       ivar_beq svar_beq fvar_beq bvar_beq] in *.

(** opens the relations into equations between the stores *)
Ltac rel_open :=
  unfold ticked, linked, compiled, in_tick, in_step, coherent, well_formed, graph_ok,
    links_ok, numerical_state, link_flags, activator_flags, current_usages, por_linked_of,
    ret_linked_of in *;
  repeat match goal with
         | H : _ /\ _ |- _ => destruct H
         | H : (_, _) = (_, _) |- _ => injection H; clear H; intros
         end;
  store_read_all.

Ltac rel_close :=
  repeat match goal with
         | |- _ /\ _ => split
         end;
  try assumption; try congruence;
  try match goal with
      | H : _ \/ _ |- _ \/ _ => destruct H; [left|right]; congruence
      | |- _ \/ _ => solve [left; congruence | right; congruence | right; split; congruence]
      end.

Ltac rel_tac := intros; rel_open; rel_close.

(** *** Lists *)

Lemma forallb_nth {A : Type} (f : A -> bool) (l : list A) (d : A) (i : nat) :
  forallb f l = true -> f d = true -> f (nth i l d) = true.
Proof.
  intros Hl Hd. destruct (Nat.lt_ge_cases i (length l)) as [H|H].
  - rewrite forallb_forall in Hl. apply Hl. apply nth_In. exact H.
  - rewrite nth_overflow by exact H. exact Hd.
Qed.

Lemma map_nth_seq {A : Type} (l : list A) (d : A) :
  map (fun i => nth i l d) (seq 0 (length l)) = l.
Proof.
  apply nth_ext with (d := d) (d' := d).
  - rewrite length_map, length_seq. reflexivity.
  - intros i Hi. rewrite length_map, length_seq in Hi.
    rewrite nth_map_seq by exact Hi. reflexivity.
Qed.

Lemma length_zip_with {A B C : Type} (f : A -> B -> C) (l : list A) (l' : list B) :
  length (zip_with f l l') = Nat.min (length l) (length l').
Proof.
  revert l'. induction l as [|x l IH]; intros [|y l']; cbn [zip_with length];
    try reflexivity.
  rewrite IH. reflexivity.
Qed.

Lemma gather_indexes {A : Type} (d : A) (x : list A) (indices : list Z) :
  indexes (length x) indices = true <-> gather d x indices <> None.
Proof.
  unfold indexes. induction indices as [|i tl IH]; cbn [forallb gather].
  - split; [discriminate|reflexivity].
  - destruct (py_index (length x) i) as [n|]; cbn [andb].
    + rewrite IH. destruct (gather d x tl); split; intros H; try exact H;
        try discriminate; contradiction.
    + split; [discriminate|intros H; contradiction].
Qed.

(** *** The node functions read their own columns only *)

Definition agree_upto (n : nat) (f g : nat -> Qc) : Prop :=
  forall k, (k <= n)%nat -> f k = g k.

Ltac by_columns Ha Hb :=
  unfold pipe_gen, pipe_gen_sur_exp, pipe_por, pipe_por_base, pipe_por_cond, pipe_ret,
    pipe_sub, pipe_sub_cond, pipe_sur, pipe_sur_confirm, pipe_sur_base, pipe_sur_cond,
    pipe_cat, pipe_cat_cond, pipe_exp, lstm_gen, lstm_por, lstm_gin, lstm_gou, lstm_gfg,
    countdown_por, countdown_sur, cdrc_por, cd_reset_cond, pipe_por, pipe_por_base,
    pipe_por_cond, pipe_sur_confirm, pipe_sur_base;
  rewrite ?Ha by lia; rewrite ?Hb by lia; reflexivity.

Ltac code_case Hv Hp Hl c n :=
  change (reach c) with n in Hv;
  specialize (Hv eq_refl); destruct Hv as [Ha Hb]; unfold agree_upto in Ha, Hb;
  cbn [pipe_code lstm_code implb andb Z.leb Z.compare Pos.compare Pos.compare_cont
       NFPG_PIPE_GEN NFPG_PIPE_POR NFPG_PIPE_RET NFPG_PIPE_SUB NFPG_PIPE_SUR NFPG_PIPE_CAT
       NFPG_PIPE_EXP NFPG_LSTM_GEN NFPG_LSTM_POR NFPG_LSTM_GIN NFPG_LSTM_GOU NFPG_LSTM_GFG]
    in Hp, Hl;
  try (apply andb_prop in Hp; destruct Hp as [Hp Hp']; rewrite Hp, Hp');
  try (apply andb_prop in Hl; destruct Hl as [Hl Hl']; rewrite Hl, Hl');
  dispatch.

Lemma nodefunctions_ext (sigmoid : Qc -> Qc) (slots slots' biases biases' : nat -> Qc)
    (countdown por_linked ret_linked : Z) (g_expect : Qc) (t : Z) (a_prev g_factor : Qc)
    (u u' : Usages) (a_i : Qc) (c : Z) :
  (pipe_code c || lstm_code c = true ->
   agree_upto (reach c) slots slots' /\ agree_upto (reach c) biases biases') ->
  implb (pipe_code c) (u_pipes u && u_pipes u') = true ->
  implb (lstm_code c) (u_lstms u && u_lstms u') = true ->
  u_directional_activators u = u_directional_activators u' ->
  u_sampling_activators u = u_sampling_activators u' ->
  nodefunctions sigmoid slots biases countdown por_linked ret_linked g_expect t a_prev
    g_factor u a_i c
  = nodefunctions sigmoid slots' biases' countdown por_linked ret_linked g_expect t a_prev
      g_factor u' a_i c.
Proof.
  intros Hv Hp Hl Hd Hs. unfold nodefunctions. rewrite <- Hd, <- Hs.
  destruct (Z.eq_dec c NFPG_PIPE_GEN) as [->|N1].
  { code_case Hv Hp Hl NFPG_PIPE_GEN 13%nat.
    destruct (u_lstms u), (u_lstms u'), (u_directional_activators u); by_columns Ha Hb. }
  destruct (Z.eq_dec c NFPG_PIPE_POR) as [->|N2].
  { code_case Hv Hp Hl NFPG_PIPE_POR 10%nat.
    destruct (u_lstms u), (u_lstms u'), (u_directional_activators u); by_columns Ha Hb. }
  destruct (Z.eq_dec c NFPG_PIPE_RET) as [->|N3].
  { code_case Hv Hp Hl NFPG_PIPE_RET 9%nat.
    destruct (u_lstms u), (u_lstms u'), (u_directional_activators u); by_columns Ha Hb. }
  destruct (Z.eq_dec c NFPG_PIPE_SUB) as [->|N4].
  { code_case Hv Hp Hl NFPG_PIPE_SUB 9%nat.
    destruct (u_lstms u), (u_lstms u'), (u_directional_activators u); by_columns Ha Hb. }
  destruct (Z.eq_dec c NFPG_PIPE_SUR) as [->|N5].
  { code_case Hv Hp Hl NFPG_PIPE_SUR 9%nat.
    destruct (u_lstms u), (u_lstms u'), (u_directional_activators u); by_columns Ha Hb. }
  destruct (Z.eq_dec c NFPG_PIPE_CAT) as [->|N6].
  { code_case Hv Hp Hl NFPG_PIPE_CAT 7%nat.
    destruct (u_lstms u), (u_lstms u'), (u_directional_activators u); by_columns Ha Hb. }
  destruct (Z.eq_dec c NFPG_PIPE_EXP) as [->|N7].
  { code_case Hv Hp Hl NFPG_PIPE_EXP 7%nat.
    destruct (u_lstms u), (u_lstms u'), (u_directional_activators u); by_columns Ha Hb. }
  destruct (Z.eq_dec c NFPG_LSTM_GEN) as [->|N8].
  { code_case Hv Hp Hl NFPG_LSTM_GEN 11%nat.
    destruct (u_pipes u), (u_pipes u'), (u_directional_activators u); by_columns Ha Hb. }
  destruct (Z.eq_dec c NFPG_LSTM_POR) as [->|N9].
  { code_case Hv Hp Hl NFPG_LSTM_POR 10%nat.
    destruct (u_pipes u), (u_pipes u'), (u_directional_activators u); by_columns Ha Hb. }
  destruct (Z.eq_dec c NFPG_LSTM_GIN) as [->|N10].
  { code_case Hv Hp Hl NFPG_LSTM_GIN 7%nat.
    destruct (u_pipes u), (u_pipes u'), (u_directional_activators u); by_columns Ha Hb. }
  destruct (Z.eq_dec c NFPG_LSTM_GOU) as [->|N11].
  { code_case Hv Hp Hl NFPG_LSTM_GOU 7%nat.
    destruct (u_pipes u), (u_pipes u'), (u_directional_activators u); by_columns Ha Hb. }
  destruct (Z.eq_dec c NFPG_LSTM_GFG) as [->|N12].
  { code_case Hv Hp Hl NFPG_LSTM_GFG 7%nat.
    destruct (u_pipes u), (u_pipes u'), (u_directional_activators u); by_columns Ha Hb. }
  clear Hv Hp Hl. unfold T_eqZ.
  apply Z.eqb_neq in N1, N2, N3, N4, N5, N6, N7, N8, N9, N10, N11, N12.
  rewrite N1, N2, N3, N4, N5, N6, N7, N8, N9, N10, N11, N12.
  rewrite !T_switch_b2q.
  destruct (u_pipes u), (u_pipes u'), (u_lstms u), (u_lstms u'),
    (u_directional_activators u); reflexivity.
Qed.

Lemma countdown_next_ext (slots slots' : nat -> Qc) (countdown g_wait por_linked : Z)
    (g_expect : Qc) (c : Z) :
  (pipe_code c = true -> agree_upto (reach c) slots slots') ->
  countdown_next slots countdown g_wait por_linked g_expect c
  = countdown_next slots' countdown g_wait por_linked g_expect c.
Proof.
  intros Hv. unfold countdown_next.
  destruct (Z.eq_dec c NFPG_PIPE_POR) as [->|N2].
  { specialize (Hv eq_refl). change (reach NFPG_PIPE_POR) with 10%nat in Hv.
    unfold agree_upto in Hv. dispatch. by_columns Hv Hv. }
  destruct (Z.eq_dec c NFPG_PIPE_SUR) as [->|N5].
  { specialize (Hv eq_refl). change (reach NFPG_PIPE_SUR) with 9%nat in Hv.
    unfold agree_upto in Hv. dispatch. by_columns Hv Hv. }
  unfold T_eqZ. apply Z.eqb_neq in N2, N5. rewrite N2, N5, !T_switch_b2q. reflexivity.
Qed.

(** the countdown of an element that is no Pipe element stays *)
Lemma countdown_next_other (slots : nat -> Qc) (countdown g_wait por_linked : Z)
    (g_expect : Qc) (c : Z) :
  pipe_code c = false ->
  countdown_next slots countdown g_wait por_linked g_expect c = countdown.
Proof.
  intros Hc. unfold countdown_next, T_eqZ.
  assert (N2 : (c =? NFPG_PIPE_POR) = false).
  { apply Z.eqb_neq. intros ->. discriminate Hc. }
  assert (N5 : (c =? NFPG_PIPE_SUR) = false).
  { apply Z.eqb_neq. intros ->. discriminate Hc. }
  rewrite N2, N5, !T_switch_b2q. reflexivity.
Qed.

(** the graphs of two sets of flags that both hold the selected transfer
    function apply the same function *)
Lemma transfer_function_supported (sigmoid tanh : Qc -> Qc) (u u' : Usages) (selector : Z)
    (theta x : Qc) :
  implb (selector =? GATE_FUNCTION_ABSOLUTE) (u_absolute u && u_absolute u') = true ->
  implb (selector =? GATE_FUNCTION_SIGMOID) (u_sigmoid u && u_sigmoid u') = true ->
  implb (selector =? GATE_FUNCTION_TANH) (u_tanh u && u_tanh u') = true ->
  implb (selector =? GATE_FUNCTION_RECT) (u_rect u && u_rect u') = true ->
  implb (selector =? GATE_FUNCTION_DIST) (u_one_over_x u && u_one_over_x u') = true ->
  transfer_function sigmoid tanh u selector theta x
  = transfer_function sigmoid tanh u' selector theta x.
Proof.
  unfold transfer_function. intros H1 H2 H3 H4 H5.
  destruct (selector =? GATE_FUNCTION_ABSOLUTE); cbn [implb andb] in *;
    [apply andb_prop in H1; destruct H1 as [-> ->]; reflexivity|].
  destruct (selector =? GATE_FUNCTION_SIGMOID); cbn [implb andb] in *;
    [apply andb_prop in H2; destruct H2 as [-> ->]; reflexivity|].
  destruct (selector =? GATE_FUNCTION_TANH); cbn [implb andb] in *;
    [apply andb_prop in H3; destruct H3 as [-> ->]; reflexivity|].
  destruct (selector =? GATE_FUNCTION_RECT); cbn [implb andb] in *;
    [apply andb_prop in H4; destruct H4 as [-> ->]; reflexivity|].
  destruct (selector =? GATE_FUNCTION_DIST); cbn [implb andb] in *;
    [apply andb_prop in H5; destruct H5 as [-> ->]; reflexivity|].
  reflexivity.
Qed.

(** *** What the flags and the bounds give for one element *)

Lemma implb_both (a b c : bool) : implb a b = true -> implb a c = true ->
  implb a (b && c) = true.
Proof. destruct a, b, c; intros; try reflexivity; discriminate. Qed.

Lemma supports_node (u : Usages) (nfs gfs : list Z) (i : nat) :
  supports u nfs gfs = true ->
  implb (pipe_code (nth i nfs 0)) (u_pipes u) = true
  /\ implb (lstm_code (nth i nfs 0)) (u_lstms u) = true.
Proof.
  unfold supports. intros H. apply andb_prop in H. destruct H as [H _].
  apply andb_prop.
  exact (@forallb_nth _ (fun c => implb (pipe_code c) (u_pipes u)
                                  && implb (lstm_code c) (u_lstms u)) nfs 0 i H eq_refl).
Qed.

Lemma supports_gate (u : Usages) (nfs gfs : list Z) (i : nat) :
  supports u nfs gfs = true ->
  let c := nth i gfs 0 in
  implb (c =? GATE_FUNCTION_ABSOLUTE) (u_absolute u) = true
  /\ implb (c =? GATE_FUNCTION_SIGMOID) (u_sigmoid u) = true
  /\ implb (c =? GATE_FUNCTION_TANH) (u_tanh u) = true
  /\ implb (c =? GATE_FUNCTION_RECT) (u_rect u) = true
  /\ implb (c =? GATE_FUNCTION_DIST) (u_one_over_x u) = true.
Proof.
  unfold supports. intros H. apply andb_prop in H. destruct H as [_ H].
  pose proof (@forallb_nth _ _ gfs 0 i H eq_refl) as Hi. cbv beta in Hi.
  cbv zeta.
  repeat (apply andb_prop in Hi; destruct Hi as [Hi ?]). repeat split; assumption.
Qed.

Lemma reads_within_nth (nfs : list Z) (n i : nat) :
  reads_within nfs n = true -> (i < n)%nat -> (i + reach (nth i nfs 0%Z) < n)%nat.
Proof.
  unfold reads_within. intros H Hi. rewrite forallb_forall in H.
  apply Nat.ltb_lt. apply H. apply in_seq. lia.
Qed.

Lemma reach_le_13 (c : Z) : (reach c <= 13)%nat.
Proof.
  unfold reach.
  repeat match goal with
         | |- context [if ?b then _ else _] => destruct b; [lia|]
         end.
  lia.
Qed.

(** *** The shifted views *)

(** the views are built from [x] and [y], if the graph reads them *)
Definition views_built (x y : list Qc) (p : Partition) : Prop :=
  getb p V.has_pipes || getb p V.has_lstms = true ->
  a_shifted p = as_strided x (Z.to_nat (gets p V.NoE)) 14
  /\ g_theta_shifted p = as_strided y (Z.to_nat (gets p V.NoE)) 14.

(** inside the buffer two views built from the same vector agree, whatever
    lies behind *)
Lemma view_at_agree (behind behind' : Memory) (v : V.fvar) (x : list Qc) (n i r : nat) :
  length x = n -> (i + r < n)%nat -> (r <= 13)%nat ->
  agree_upto r (view_at behind v (as_strided x n 14) i)
    (view_at behind' v (as_strided x n 14) i).
Proof.
  intros Hx Hi Hr k Hk. rewrite !view_at_as_strided by lia. reflexivity.
Qed.

(** *** The steps of a tick *)

Lemma when_modify (b : bool) (f : Partition -> Partition) (p : Partition) :
  when b (modify f) p = (Ok tt, if b then f p else p).
Proof. destruct b; reflexivity. Qed.

Lemma well_formed_propagate (p : Partition) : well_formed p -> well_formed (propagate p).
Proof.
  intros (Ha & Hi & Ht & Hc & Hw & H).
  assert (E1 : length (getf (propagate p) V.a) = Z.to_nat (gets p V.NoE)).
  { unfold propagate, theano_function, propagate_updates. cbn [fold_left store_update].
    rewrite !getf_setf. cbn [fvar_beq].
    unfold vadd, mdot. rewrite length_zip_with, length_map. lia. }
  assert (E2 : length (getf (propagate p) V.a_in) = Z.to_nat (gets p V.NoE)).
  { unfold propagate, theano_function, propagate_updates. cbn [fold_left store_update].
    rewrite !getf_setf. cbn [fvar_beq].
    unfold zeros_like, zeros. rewrite repeat_length. exact Hi. }
  split; [exact E1|]. split; [exact E2|]. split; [exact Ht|]. split; [exact Hc|].
  split; [exact Hw|]. exact H.
Qed.

Lemma sim_propagate :
  sim in_step (modify propagate) (modify propagate)
    (fun _ p q => in_step p q /\ getf p V.a_prev = getf q V.a_prev) never.
Proof.
  apply sim_modify. intros p q (Hn & Ha & (Hp & Hgp & Hlp) & (Hq & Hgq & Hlq)).
  split; [split; [|split; [|split]]|].
  - unfold propagate, theano_function, propagate_updates. cbn [fold_left store_update].
    revert Hn. clear. rel_tac.
  - exact Ha.
  - split; [apply well_formed_propagate; exact Hp|]. split; [exact Hgp|exact Hlp].
  - split; [apply well_formed_propagate; exact Hq|]. split; [exact Hgq|exact Hlq].
  - unfold propagate, theano_function, propagate_updates. cbn [fold_left store_update].
    revert Hn. clear. rel_tac.
Qed.

(** the compilation, where it is due *)
Lemma sim_compile (x y : bool) :
  sim (fun p q => in_tick p q
                  /\ getb p V.has_new_usages = x /\ getb q V.has_new_usages = y)
    (when x (compile_propagate ;; compile_calculate_nodes ;;
             modify (setb V.has_new_usages false)))
    (when y (compile_propagate ;; compile_calculate_nodes ;;
             modify (setb V.has_new_usages false)))
    (fun _ => compiled) never.
Proof.
  intros p q (((Hn & Ha & (Hp & Hgp & Hlp) & (Hq & Hgq & Hlq)) & Hv & Ht) & Hx & Hy).
  assert (Ex : x = false -> calculate_nodes_usages p = Some (current_usages p)).
  { intros ->. destruct Hgp as [H|H]; [congruence|exact H]. }
  assert (Ey : y = false -> calculate_nodes_usages q = Some (current_usages q)).
  { intros ->. destruct Hgq as [H|H]; [congruence|exact H]. }
  clear Hgp Hgq Hx Hy.
  destruct x, y; cbv [when compile_propagate compile_calculate_nodes bind ret modify];
    (split; [reflexivity|]); unfold compiled;
    (split; [exact Hn|]); (split; [exact Ha|]); (split; [exact Hp|]); (split; [exact Hq|]);
    (split; [exact Hlp|]); (split; [exact Hlq|]); (split; [exact Hv|]); (split; [exact Ht|]);
    split; first [reflexivity | apply Ex; reflexivity | apply Ey; reflexivity].
Qed.

Lemma rebuild_links_eq (p : Partition) (pl rl : list Z) :
  por_linked_of p = Some pl -> ret_linked_of p = Some rl ->
  (rebuild_por_linked ;; rebuild_ret_linked ;; modify (setb V.por_ret_dirty false)) p
  = (Ok tt, setb V.por_ret_dirty false
              (seti V.n_node_retlinked rl (seti V.n_node_porlinked pl p))).
Proof.
  intros Hp Hr. unfold bind. rewrite rebuild_por_linked_eq, Hp.
  rewrite rebuild_ret_linked_eq.
  change (ret_linked_of (seti V.n_node_porlinked pl p)) with (ret_linked_of p).
  rewrite Hr. reflexivity.
Qed.

(** the rebuild of the link flags, where it is due *)
Lemma sim_rebuild_links (x y : bool) :
  sim (fun p q => compiled p q
                  /\ getb p V.por_ret_dirty = x /\ getb q V.por_ret_dirty = y)
    (when x (rebuild_por_linked ;; rebuild_ret_linked ;;
             modify (setb V.por_ret_dirty false)))
    (when y (rebuild_por_linked ;; rebuild_ret_linked ;;
             modify (setb V.por_ret_dirty false)))
    (fun _ => linked) never.
Proof.
  intros p q ((Hn & Ha & Hp & Hq & Hlp & Hlq & Hv & Ht & Hup & Huq) & Hx & Hy).
  assert (Epor : por_linked_of p = por_linked_of q).
  { unfold por_linked_of. revert Hn. clear. rel_tac. }
  assert (Eret : ret_linked_of p = ret_linked_of q).
  { unfold ret_linked_of. revert Hn. clear. rel_tac. }
  pose proof Hp as (_ & _ & _ & _ & _ & _ & _ & Hpp & Hpr & _).
  destruct (por_linked_of p) as [pl|] eqn:Ep; [|exfalso; apply Hpp; reflexivity].
  destruct (ret_linked_of p) as [rl|] eqn:Er; [|exfalso; apply Hpr; reflexivity].
  clear Hpp Hpr.
  symmetry in Epor, Eret.
  assert (Fx : x = false -> geti p V.n_node_porlinked = pl /\ geti p V.n_node_retlinked = rl).
  { intros ->. destruct Hlp as [H|[H1 H2]]; [congruence|]. split; congruence. }
  assert (Fy : y = false -> geti q V.n_node_porlinked = pl /\ geti q V.n_node_retlinked = rl).
  { intros ->. destruct Hlq as [H|[H1 H2]]; [congruence|]. split; congruence. }
  clear Hlp Hlq Hx Hy.
  destruct x, y; cbn [when]; rewrite ?(rebuild_links_eq p Ep Er), ?(rebuild_links_eq q Epor Eret);
    cbn [ret]; (split; [reflexivity|]); unfold linked;
    try (destruct (Fx eq_refl) as [Fx1 Fx2]); try (destruct (Fy eq_refl) as [Fy1 Fy2]);
    (split; [exact Hn|]); (split; [exact Ha|]); (split; [exact Hp|]); (split; [exact Hq|]);
    (split; [exact Hv|]); (split; [exact Ht|]); (split; [exact Hup|]); (split; [exact Huq|]).
  - split; [reflexivity|]. split; [exact Ep|]. split; [exact Er|]. split; [exact Epor|exact Eret].
  - split; [unfold link_flags; rewrite Fy1, Fy2; reflexivity|].
    split; [exact Ep|]. split; [exact Er|]. rewrite Fy1, Fy2. split; [exact Epor|exact Eret].
  - split; [unfold link_flags; rewrite Fx1, Fx2; reflexivity|].
    rewrite Fx1, Fx2. split; [exact Ep|]. split; [exact Er|]. split; [exact Epor|exact Eret].
  - split; [unfold link_flags; rewrite Fx1, Fx2, Fy1, Fy2; reflexivity|].
    rewrite Fx1, Fx2, Fy1, Fy2. split; [exact Ep|]. split; [exact Er|].
    split; [exact Epor|exact Eret].
Qed.

(** after the rebuild of the shifted views: the views that are read are
    built from the same vectors *)
Definition viewed (p q : Partition) : Prop :=
  linked p q
  /\ exists x y,
       length x = Z.to_nat (gets p V.NoE) /\ length y = Z.to_nat (gets p V.NoE)
       /\ views_built x y p /\ views_built x y q.

Lemma sim_rebuild_shifted (x y : bool) :
  sim (fun p q => linked p q
                  /\ getb p V.has_pipes || getb p V.has_lstms = x
                  /\ getb q V.has_pipes || getb q V.has_lstms = y)
    (when x rebuild_shifted) (when y rebuild_shifted) (fun _ => viewed) never.
Proof.
  intros p q (H & Hx & Hy). unfold rebuild_shifted. rewrite !when_modify.
  split; [reflexivity|].
  assert (Ea : getf p V.a = getf q V.a) by (revert H; clear; rel_tac).
  assert (Et : getf p V.g_theta = getf q V.g_theta) by (revert H; clear; rel_tac).
  assert (En : gets p V.NoE = gets q V.NoE) by (revert H; clear; rel_tac).
  assert (La : length (getf p V.a) = Z.to_nat (gets p V.NoE)) by apply H.
  assert (Lt : length (getf p V.g_theta) = Z.to_nat (gets p V.NoE)) by apply H.
  split.
  - destruct x, y; exact H.
  - exists (np_roll (getf p V.a) 7), (np_roll (getf p V.g_theta) 7).
    rewrite !length_np_roll. split; [destruct x; exact La|]. split; [destruct x; exact Lt|].
    split.
    + intros Hf. destruct x.
      * split; reflexivity.
      * change (getb p V.has_pipes || getb p V.has_lstms = true) in Hf. congruence.
    + intros Hf. destruct y.
      * cbv zeta. cbn [a_shifted g_theta_shifted set_a_shifted set_g_theta_shifted].
        rewrite Ea, Et. split; reflexivity.
      * change (getb q V.has_pipes || getb q V.has_lstms = true) in Hf. congruence.
Qed.

Lemma calculate_g_factors_eq (p : Partition) :
  (0 < length (getf p V.a))%nat ->
  indexes (length (getf p V.a)) (geti p V.allocated_elements_to_activators) = true ->
  exists g,
    gather 0%Qc (set_nth 0 1%Qc (getf p V.a)) (geti p V.allocated_elements_to_activators)
    = Some g
    /\ calculate_g_factors p
       = (Ok tt, setf V.g_factor g (setf V.a (set_nth 0 1%Qc (getf p V.a)) p)).
Proof.
  intros Hl Hi.
  assert (Hg : gather 0%Qc (set_nth 0 1%Qc (getf p V.a))
                 (geti p V.allocated_elements_to_activators) <> None).
  { apply gather_indexes. rewrite length_set_nth. exact Hi. }
  destruct (gather _ _ _) as [g|] eqn:Eg; [|contradiction].
  exists g. split; [reflexivity|].
  unfold calculate_g_factors, setf_at, bind, read.
  assert (E0 : py_index (length (getf p V.a)) 0 = Some 0%nat).
  { unfold py_index.
    replace (0 <? Z.of_nat (length (getf p V.a))) with true
      by (symmetry; apply Z.ltb_lt; lia).
    reflexivity. }
  rewrite E0. cbn [modify]. rewrite getf_setf. cbn [fvar_beq].
  change (geti (setf V.a (set_nth 0 1%Qc (getf p V.a)) p) V.allocated_elements_to_activators)
    with (geti p V.allocated_elements_to_activators).
  rewrite Eg. reflexivity.
Qed.

Lemma well_formed_set_a (p : Partition) (x g : list Qc) :
  well_formed p -> length x = length (getf p V.a) ->
  well_formed (setf V.g_factor g (setf V.a x p)).
Proof.
  intros (Ha & H) Hx. split; [|exact H].
  change (length x = Z.to_nat (gets p V.NoE)). congruence.
Qed.

Lemma linked_set_a (p q : Partition) (x g : list Qc) :
  linked p q -> length x = length (getf p V.a) ->
  linked (setf V.g_factor g (setf V.a x p)) (setf V.g_factor g (setf V.a x q)).
Proof.
  intros H Hx.
  assert (Ea : getf p V.a = getf q V.a) by (revert H; clear; rel_tac).
  destruct H as (Hn & Ha & Hp & Hq & Hv & Ht & Hup & Huq & Hl & H1 & H2 & H3 & H4).
  unfold linked.
  split; [revert Hn; clear; rel_tac|]. split; [exact Ha|].
  split; [apply well_formed_set_a; assumption|].
  split; [apply well_formed_set_a; [assumption|congruence]|].
  split; [exact Hv|]. split; [exact Ht|]. split; [exact Hup|]. split; [exact Huq|].
  split; [exact Hl|]. split; [exact H1|]. split; [exact H2|]. split; [exact H3|exact H4].
Qed.

Lemma sim_calculate_g_factors :
  sim (fun p q => viewed p q
                  /\ getb p V.has_directional_activators
                     || getb p V.has_sampling_activators = true)
    calculate_g_factors calculate_g_factors (fun _ => viewed) never.
Proof.
  intros p q ((H & x & y & Lx & Ly & Vp & Vq) & Hact).
  assert (Ea : getf p V.a = getf q V.a) by (revert H; clear; rel_tac).
  assert (Ee : geti p V.allocated_elements_to_activators
               = geti q V.allocated_elements_to_activators) by (revert H; clear; rel_tac).
  assert (Hp : well_formed p) by apply H.
  pose proof Hp as (La & _ & _ & _ & _ & _ & _ & _ & _ & Hi).
  destruct (Hi Hact) as [Hn Hi']. clear Hi.
  rewrite <- La in Hn, Hi'.
  destruct (calculate_g_factors_eq p Hn Hi') as (g & Eg & Ep).
  assert (Hnq : (0 < length (getf q V.a))%nat) by congruence.
  assert (Hiq : indexes (length (getf q V.a)) (geti q V.allocated_elements_to_activators)
                = true) by congruence.
  destruct (calculate_g_factors_eq q Hnq Hiq) as (g' & Eg' & Eq).
  rewrite Ep, Eq. split; [reflexivity|].
  assert (g' = g) by (rewrite Ea, Ee in Eg; congruence). subst g'.
  rewrite <- Ea.
  split.
  - apply linked_set_a; [exact H|apply length_set_nth].
  - exists x, y. split; [exact Lx|]. split; [exact Ly|]. split; [exact Vp|exact Vq].
Qed.

Section SimTick.

Variables sigmoid tanh : Qc -> Qc.

Lemma calculate_nodes_eq (behind : Memory) (p : Partition) (u : Usages) :
  calculate_nodes_usages p = Some u ->
  calculate_nodes sigmoid tanh behind p
  = (Ok tt,
     let p1 := setf V.a (map (gatefunctions_at sigmoid tanh behind u p)
                           (seq 0 (length (getf p V.a)))) p in
     if u_pipes u
     then seti V.g_countdown (map (countdown_at behind p) (seq 0 (length (geti p V.g_countdown))))
            p1
     else p1).
Proof.
  intros Hu. unfold calculate_nodes. rewrite Hu.
  unfold calculate_nodes_updates, theano_function.
  destruct (u_pipes u); reflexivity.
Qed.

(** the rows of the views of the element [i], as far as its node function
    reads them *)
Lemma views_agree (behind behind' : Memory) (p q : Partition) (i : nat) :
  viewed p q -> (i < Z.to_nat (gets p V.NoE))%nat ->
  let c := eli p V.n_function_selector i in
  pipe_code c || lstm_code c = true ->
  agree_upto (reach c) (view_at behind V.a (a_shifted p) i)
    (view_at behind' V.a (a_shifted q) i)
  /\ agree_upto (reach c) (view_at behind V.g_theta (g_theta_shifted p) i)
       (view_at behind' V.g_theta (g_theta_shifted q) i).
Proof.
  intros (H & x & y & Lx & Ly & Vp & Vq) Hi c Hc.
  assert (Es : geti p V.n_function_selector = geti q V.n_function_selector)
    by (revert H; clear; rel_tac).
  assert (En : gets p V.NoE = gets q V.NoE) by (revert H; clear; rel_tac).
  assert (Hp : well_formed p) by apply H.
  assert (Hq : well_formed q) by apply H.
  destruct Hp as (_ & _ & _ & _ & _ & Sp & Wp & _).
  destruct Hq as (_ & _ & _ & _ & _ & Sq & _).
  destruct (@supports_node _ _ _ i Sp) as [Pp Lp].
  destruct (@supports_node _ _ _ i Sq) as [Pq Lq].
  rewrite <- Es in Pq, Lq. fold (eli p V.n_function_selector i) in Pp, Lp, Pq, Lq.
  fold c in Pp, Lp, Pq, Lq.
  assert (Fp : getb p V.has_pipes || getb p V.has_lstms = true).
  { unfold current_usages in Pp, Lp. cbn [u_pipes u_lstms] in Pp, Lp.
    destruct (pipe_code c), (lstm_code c), (getb p V.has_pipes), (getb p V.has_lstms);
      try reflexivity; discriminate. }
  assert (Fq : getb q V.has_pipes || getb q V.has_lstms = true).
  { unfold current_usages in Pq, Lq. cbn [u_pipes u_lstms] in Pq, Lq.
    destruct (pipe_code c), (lstm_code c), (getb q V.has_pipes), (getb q V.has_lstms);
      try reflexivity; discriminate. }
  destruct (Vp Fp) as [-> ->]. destruct (Vq Fq) as [-> ->]. rewrite <- En.
  pose proof (@reads_within_nth _ _ i Wp Hi) as Hr.
  fold (eli p V.n_function_selector i) in Hr. fold c in Hr.
  split; apply view_at_agree; try assumption; apply reach_le_13.
Qed.

Lemma nodefunctions_at_agree (behind behind' : Memory) (p q : Partition) (i : nat) :
  viewed p q -> (i < Z.to_nat (gets p V.NoE))%nat ->
  nodefunctions_at sigmoid behind (current_usages p) p i
  = nodefunctions_at sigmoid behind' (current_usages q) q i.
Proof.
  intros H Hi. pose proof (views_agree behind behind' H Hi) as Hv. cbv zeta in Hv.
  destruct H as (H & _).
  assert (Hp : well_formed p) by apply H.
  assert (Hq : well_formed q) by apply H.
  destruct Hp as (_ & _ & _ & _ & _ & Sp & _).
  destruct Hq as (_ & _ & _ & _ & _ & Sq & _).
  destruct (@supports_node _ _ _ i Sp) as [Pp Lp].
  destruct (@supports_node _ _ _ i Sq) as [Pq Lq].
  assert (Hf : activator_flags p = activator_flags q) by apply H.
  unfold activator_flags in Hf. injection Hf as Hd Hs.
  assert (Es : geti q V.n_function_selector = geti p V.n_function_selector)
    by (revert H; clear; rel_tac).
  rewrite Es in Pq, Lq.
  unfold nodefunctions_at.
  replace (eli q V.g_countdown i) with (eli p V.g_countdown i)
    by (unfold eli; revert H; clear; rel_tac).
  replace (eli q V.n_node_porlinked i) with (eli p V.n_node_porlinked i)
    by (unfold eli; revert H; clear; rel_tac).
  replace (eli q V.n_node_retlinked i) with (eli p V.n_node_retlinked i)
    by (unfold eli; revert H; clear; rel_tac).
  replace (elf q V.g_expect i) with (elf p V.g_expect i)
    by (unfold elf; revert H; clear; rel_tac).
  replace (gets q V.t) with (gets p V.t) by (revert H; clear; rel_tac).
  replace (elf q V.a_prev i) with (elf p V.a_prev i)
    by (unfold elf; revert H; clear; rel_tac).
  replace (elf q V.g_factor i) with (elf p V.g_factor i)
    by (unfold elf; revert H; clear; rel_tac).
  replace (elf q V.a i) with (elf p V.a i) by (unfold elf; revert H; clear; rel_tac).
  replace (eli q V.n_function_selector i) with (eli p V.n_function_selector i)
    by (unfold eli; revert H; clear; rel_tac).
  apply nodefunctions_ext.
  - exact Hv.
  - apply implb_both; [exact Pp|exact Pq].
  - apply implb_both; [exact Lp|exact Lq].
  - exact Hd.
  - exact Hs.
Qed.

Lemma gatefunctions_at_agree (behind behind' : Memory) (p q : Partition) (i : nat) :
  viewed p q -> (i < Z.to_nat (gets p V.NoE))%nat ->
  gatefunctions_at sigmoid tanh behind (current_usages p) p i
  = gatefunctions_at sigmoid tanh behind' (current_usages q) q i.
Proof.
  intros H Hi. pose proof (nodefunctions_at_agree behind behind' H Hi) as Hn.
  destruct H as (H & _).
  assert (Hp : well_formed p) by apply H.
  assert (Hq : well_formed q) by apply H.
  destruct Hp as (_ & _ & _ & _ & _ & Sp & _).
  destruct Hq as (_ & _ & _ & _ & _ & Sq & _).
  assert (Es : geti q V.g_function_selector = geti p V.g_function_selector)
    by (revert H; clear; rel_tac).
  rewrite Es in Sq.
  destruct (@supports_gate _ _ _ i Sp) as (P1 & P2 & P3 & P4 & P5).
  destruct (@supports_gate _ _ _ i Sq) as (Q1 & Q2 & Q3 & Q4 & Q5).
  unfold gatefunctions_at, gatefunctions, limited_gate_function_output,
    amplified_gate_function_output, thresholded_gate_function_output.
  rewrite !gate_function_output_selected, <- Hn.
  replace (eli q V.g_function_selector i) with (eli p V.g_function_selector i)
    by (unfold eli; revert H; clear; rel_tac).
  replace (elf q V.g_theta i) with (elf p V.g_theta i)
    by (unfold elf; revert H; clear; rel_tac).
  replace (elf q V.g_threshold i) with (elf p V.g_threshold i)
    by (unfold elf; revert H; clear; rel_tac).
  replace (elf q V.g_amplification i) with (elf p V.g_amplification i)
    by (unfold elf; revert H; clear; rel_tac).
  replace (elf q V.g_min i) with (elf p V.g_min i)
    by (unfold elf; revert H; clear; rel_tac).
  replace (elf q V.g_max i) with (elf p V.g_max i)
    by (unfold elf; revert H; clear; rel_tac).
  rewrite (@transfer_function_supported sigmoid tanh (current_usages p) (current_usages q)
             (eli p V.g_function_selector i));
    first [reflexivity | apply implb_both; assumption].
Qed.

Lemma countdown_at_agree (behind behind' : Memory) (p q : Partition) (i : nat) :
  viewed p q -> (i < Z.to_nat (gets p V.NoE))%nat ->
  countdown_at behind p i = countdown_at behind' q i.
Proof.
  intros H Hi. pose proof (views_agree behind behind' H Hi) as Hv. cbv zeta in Hv.
  destruct H as (H & _).
  unfold countdown_at.
  replace (eli q V.g_countdown i) with (eli p V.g_countdown i)
    by (unfold eli; revert H; clear; rel_tac).
  replace (eli q V.g_wait i) with (eli p V.g_wait i)
    by (unfold eli; revert H; clear; rel_tac).
  replace (eli q V.n_node_porlinked i) with (eli p V.n_node_porlinked i)
    by (unfold eli; revert H; clear; rel_tac).
  replace (elf q V.g_expect i) with (elf p V.g_expect i)
    by (unfold elf; revert H; clear; rel_tac).
  replace (eli q V.n_function_selector i) with (eli p V.n_function_selector i)
    by (unfold eli; revert H; clear; rel_tac).
  apply countdown_next_ext. intros Hc. apply Hv. rewrite Hc. reflexivity.
Qed.

(** without the flag [has_pipes] no element is a Pipe element, and the
    countdown update of the graph with Pipes changes nothing *)
Lemma countdown_at_without_pipes (behind : Memory) (p : Partition) :
  supports (mkUsages false (getb p V.has_lstms) (getb p V.has_directional_activators)
              (getb p V.has_sampling_activators) (getb p V.has_gatefunction_absolute)
              (getb p V.has_gatefunction_sigmoid) (getb p V.has_gatefunction_tanh)
              (getb p V.has_gatefunction_rect) (getb p V.has_gatefunction_one_over_x))
    (geti p V.n_function_selector) (geti p V.g_function_selector) = true ->
  map (countdown_at behind p) (seq 0 (length (geti p V.g_countdown)))
  = geti p V.g_countdown.
Proof.
  intros S. rewrite <- (map_nth_seq (geti p V.g_countdown) 0) at 2.
  apply map_ext. intros i. unfold countdown_at. apply countdown_next_other.
  destruct (@supports_node _ _ _ i S) as [P _]. cbn [u_pipes] in P.
  unfold eli. destruct (pipe_code (nth i (geti p V.n_function_selector) 0));
    [discriminate P|reflexivity].
Qed.

Lemma well_formed_ticked (p : Partition) (x : list Qc) (c : list Z) :
  well_formed p -> length x = length (getf p V.a) ->
  length c = length (geti p V.g_countdown) ->
  well_formed (setf V.a x p) /\ well_formed (seti V.g_countdown c (setf V.a x p)).
Proof.
  intros (Ha & Hi & Ht & Hc & H) Hx Hl. split.
  - split; [|split; [exact Hi|split; [exact Ht|split; [exact Hc|exact H]]]].
    change (length x = Z.to_nat (gets p V.NoE)). congruence.
  - split; [|split; [exact Hi|split; [exact Ht|split; [|exact H]]]].
    + change (length x = Z.to_nat (gets p V.NoE)). congruence.
    + change (length c = Z.to_nat (gets p V.NoE)). congruence.
Qed.

Lemma sim_calculate_nodes (behind behind' : Memory) :
  sim viewed (calculate_nodes sigmoid tanh behind) (calculate_nodes sigmoid tanh behind')
    (fun _ => ticked) never.
Proof.
  intros p q H.
  assert (EA : map (gatefunctions_at sigmoid tanh behind (current_usages p) p)
                 (seq 0 (length (getf p V.a)))
               = map (gatefunctions_at sigmoid tanh behind' (current_usages q) q)
                   (seq 0 (length (getf q V.a)))).
  { replace (getf q V.a) with (getf p V.a) by (destruct H as [H _]; revert H; clear; rel_tac).
    apply map_ext_in. intros i Hi. apply in_seq in Hi.
    apply gatefunctions_at_agree; [exact H|].
    replace (Z.to_nat (gets p V.NoE)) with (length (getf p V.a))
      by (destruct H as [H _]; apply H).
    lia. }
  assert (EC : map (countdown_at behind p) (seq 0 (length (geti p V.g_countdown)))
               = map (countdown_at behind' q) (seq 0 (length (geti q V.g_countdown)))).
  { replace (geti q V.g_countdown) with (geti p V.g_countdown)
      by (destruct H as [H _]; revert H; clear; rel_tac).
    apply map_ext_in. intros i Hi. apply in_seq in Hi.
    apply countdown_at_agree; [exact H|].
    replace (Z.to_nat (gets p V.NoE)) with (length (geti p V.g_countdown))
      by (destruct H as [H _]; apply H).
    lia. }
  destruct H as ((Hn & Ha & Hp & Hq & Hv & Ht & Hup & Huq & Hl & H1 & H2 & H3 & H4) & _).
  rewrite (calculate_nodes_eq behind p Hup), (calculate_nodes_eq behind' q Huq).
  split; [reflexivity|]. cbv zeta.
  assert (Ecd : geti p V.g_countdown = geti q V.g_countdown) by (revert Hn; clear; rel_tac).
  set (A := map (gatefunctions_at sigmoid tanh behind (current_usages p) p)
              (seq 0 (length (getf p V.a)))) in *.
  set (C := map (countdown_at behind p) (seq 0 (length (geti p V.g_countdown)))) in *.
  assert (LA : length A = length (getf p V.a))
    by (subst A; rewrite length_map, length_seq; reflexivity).
  assert (LC : length C = length (geti p V.g_countdown))
    by (subst C; rewrite length_map, length_seq; reflexivity).
  assert (LA' : length A = length (getf q V.a))
    by (rewrite LA; f_equal; revert Hn; clear; rel_tac).
  assert (LC' : length C = length (geti q V.g_countdown)) by congruence.
  rewrite <- EA.
  destruct (@well_formed_ticked p A C Hp LA LC) as [Wp1 Wp2].
  destruct (@well_formed_ticked q A C Hq LA' LC') as [Wq1 Wq2].
  assert (Sp : supports (current_usages p) (geti p V.n_function_selector)
                 (geti p V.g_function_selector) = true) by apply Hp.
  assert (Sq : supports (current_usages q) (geti q V.n_function_selector)
                 (geti q V.g_function_selector) = true) by apply Hq.
  unfold ticked, in_step, coherent.
  destruct (u_pipes (current_usages p)) eqn:Up, (u_pipes (current_usages q)) eqn:Uq.
  - rewrite <- EC.
    split; [split; [revert Hn; clear; rel_tac|split; [exact Ha|split]]|exact Hl].
    + split; [exact Wp2|]. split; [right; exact Hup|right; split; [exact H1|exact H2]].
    + split; [exact Wq2|]. split; [right; exact Huq|right; split; [exact H3|exact H4]].
  - assert (E : C = geti q V.g_countdown).
    { rewrite EC. apply countdown_at_without_pipes.
      unfold current_usages in Sq, Uq. cbn [u_pipes] in Uq. rewrite Uq in Sq. exact Sq. }
    split; [split; [revert Hn E; clear; rel_tac|split; [exact Ha|split]]|exact Hl].
    + split; [exact Wp2|]. split; [right; exact Hup|right; split; [exact H1|exact H2]].
    + split; [exact Wq1|]. split; [right; exact Huq|right; split; [exact H3|exact H4]].
  - assert (E : map (countdown_at behind' q) (seq 0 (length (geti q V.g_countdown)))
                = geti p V.g_countdown).
    { rewrite <- EC. subst C. apply countdown_at_without_pipes.
      unfold current_usages in Sp, Up. cbn [u_pipes] in Up. rewrite Up in Sp. exact Sp. }
    rewrite E.
    split; [split; [revert Hn; clear; rel_tac|split; [exact Ha|split]]|exact Hl].
    + split; [exact Wp1|]. split; [right; exact Hup|right; split; [exact H1|exact H2]].
    + split; [|split; [right; exact Huq|right; split; [exact H3|exact H4]]].
      rewrite Ecd.
      exact (proj2 (@well_formed_ticked q A (geti q V.g_countdown) Hq LA' eq_refl)).
  - split; [split; [revert Hn; clear; rel_tac|split; [exact Ha|split]]|exact Hl].
    + split; [exact Wp1|]. split; [right; exact Hup|right; split; [exact H1|exact H2]].
    + split; [exact Wq1|]. split; [right; exact Huq|right; split; [exact H3|exact H4]].
Qed.

End SimTick.

Section SimTicks.

Variables sigmoid tanh : Qc -> Qc.
Variables behind behind' : Z -> Memory.

Lemma sim_calculate (current_step : Z) :
  sim (fun p q => in_step p q /\ getf p V.a_prev = getf q V.a_prev)
    (calculate sigmoid tanh behind current_step)
    (calculate sigmoid tanh behind' current_step) (fun _ => ticked) never.
Proof.
  unfold calculate.
  eapply sim_bind with (Q := fun _ => in_tick).
  { apply sim_modify. intros p q [H Hv]. split; [exact H|]. split; [exact Hv|reflexivity]. }
  intros u0. apply sim_reads_bind. intros x y.
  eapply sim_bind; [apply sim_compile|].
  intros u1. apply sim_reads_bind. intros x' y'.
  eapply sim_bind; [apply sim_rebuild_links|].
  intros u2. apply sim_reads_bind. intros x'' y''.
  eapply sim_bind; [apply sim_rebuild_shifted|].
  intros u3. apply sim_read_bind.
  { intros p q [H _]. revert H. clear. rel_tac. }
  intros activators.
  eapply sim_bind with (Q := fun _ => viewed).
  { apply sim_when.
    - intros ->. apply sim_calculate_g_factors.
    - intros _ p q [H _]. exact H. }
  intros u4. apply sim_calculate_nodes.
Qed.

Lemma sim_tick (current_step : Z) :
  sim in_step (tick sigmoid tanh behind current_step)
    (tick sigmoid tanh behind' current_step) (fun _ => ticked) never.
Proof.
  unfold tick. eapply sim_bind; [apply sim_propagate|]. intros u. apply sim_calculate.
Qed.

Lemma sim_ticks (N : nat) (current_step : Z) :
  sim in_step (ticks sigmoid tanh behind N current_step)
    (ticks sigmoid tanh behind' N current_step) (fun _ => in_step) never.
Proof.
  revert current_step. induction N as [|N IH]; intros current_step; cbn [ticks].
  - intros p q H. split; [reflexivity|exact H].
  - eapply sim_bind; [apply sim_tick|]. intros u.
    eapply sim_pre; [|apply IH]. intros p q [H _]. exact H.
Qed.

(** two partitions in step both complete their ticks, and are in step
    again *)
Lemma ticks_in_step (N : nat) (current_step : Z) (p q : Partition) :
  in_step p q ->
  exists p' q',
    ticks sigmoid tanh behind N current_step p = (Ok tt, p')
    /\ ticks sigmoid tanh behind' N current_step q = (Ok tt, q')
    /\ in_step p' q'.
Proof.
  intros H. pose proof (sim_ticks N current_step H) as Ht.
  destruct (ticks sigmoid tanh behind N current_step p) as [[[]|e] p1],
           (ticks sigmoid tanh behind' N current_step q) as [[[]|e'] q1];
    try contradiction.
  - exists p1, q1. split; [reflexivity|]. split; [reflexivity|]. apply Ht.
  - destruct Ht as [_ []].
Qed.

End SimTicks.

(** ** What [load_data] restores *)

(** the capability flags as [load_data] recomputes them from the arrays *)
Definition recomputed_usages (p : Partition) : Usages :=
  mkUsages
    (memZ PIPE (geti p V.allocated_nodes))
    (memZ LSTM (geti p V.allocated_nodes))
    ((sumZ (geti p V.allocated_nodespaces_por_activators) >? 0)
     || (sumZ (geti p V.allocated_nodespaces_ret_activators) >? 0)
     || (sumZ (geti p V.allocated_nodespaces_sub_activators) >? 0)
     || (sumZ (geti p V.allocated_nodespaces_sur_activators) >? 0)
     || (sumZ (geti p V.allocated_nodespaces_cat_activators) >? 0)
     || (sumZ (geti p V.allocated_nodespaces_exp_activators) >? 0))
    (sumZ (geti p V.allocated_nodespaces_sampling_activators) >? 0)
    (memZ GATE_FUNCTION_ABSOLUTE (geti p V.g_function_selector))
    (memZ GATE_FUNCTION_SIGMOID (geti p V.g_function_selector))
    (memZ GATE_FUNCTION_TANH (geti p V.g_function_selector))
    (memZ GATE_FUNCTION_RECT (geti p V.g_function_selector))
    (memZ GATE_FUNCTION_DIST (geti p V.g_function_selector)).

(** A partition that the archive restores:
    - it is well formed ([a], [a_in], [g_theta], [g_countdown] hold [NoE]
      items, [w] has [NoE] rows, the capability flags cover the selectors, no
      node function reads a shifted view behind its buffer, the link flags
      can be rebuilt, the activator table indexes [a]), and [w] has [NoE]
      columns;
    - no input is pending in [a_in];
    - the compiled graph is the one of the flags, or a new one is due;
    - the link flags are the ones the weights give, or a rebuild is due;
    - the flags that [load_data] recomputes from the allocation tables cover
      the selectors as well, and say the same about activators as the flags
      of the partition;
    - with activators, [a[0]] is 1 and [g_factor] is read off [a]. *)
Record restorable (p : Partition) : Prop := {
  restorable_well_formed : well_formed p;
  restorable_cols : forallb (fun row => Nat.eqb (length row) (Z.to_nat (gets p V.NoE))) (w p)
                    = true;
  restorable_a_in : getf p V.a_in = zeros_like (getf p V.a);
  restorable_graph : graph_ok p;
  restorable_links : links_ok p;
  restorable_flags : supports (recomputed_usages p) (geti p V.n_function_selector)
                       (geti p V.g_function_selector) = true;
  restorable_activator_flags :
    activator_flags p
    = (u_directional_activators (recomputed_usages p),
       u_sampling_activators (recomputed_usages p));
  restorable_activators :
    getb p V.has_directional_activators || getb p V.has_sampling_activators = true ->
    nth_error (getf p V.a) 0 = Some 1%Qc
    /\ gather 0%Qc (getf p V.a) (geti p V.allocated_elements_to_activators)
       = Some (getf p V.g_factor)
}.

Lemma calculate_g_factors_settled (p : Partition) :
  nth_error (getf p V.a) 0 = Some 1%Qc ->
  gather 0%Qc (getf p V.a) (geti p V.allocated_elements_to_activators)
  = Some (getf p V.g_factor) ->
  calculate_g_factors p
  = (Ok tt, setf V.g_factor (getf p V.g_factor) (setf V.a (getf p V.a) p)).
Proof.
  intros Ha Hg.
  assert (Hi : py_index (length (getf p V.a)) 0 = Some 0%nat
               /\ set_nth 0 1%Qc (getf p V.a) = getf p V.a).
  { destruct (getf p V.a) as [|x tl]; [discriminate|].
    cbn [nth_error] in Ha. injection Ha as ->. split; [|reflexivity].
    unfold py_index. cbn [length].
    replace (0 <? Z.of_nat (S (length tl))) with true by (symmetry; apply Z.ltb_lt; lia).
    reflexivity. }
  destruct Hi as [Hi Hs].
  unfold calculate_g_factors, setf_at, bind, read. rewrite Hi, Hs.
  rewrite getf_setf. cbn [fvar_beq].
  unfold geti in *. cbn [iv setf]. rewrite Hg. reflexivity.
Qed.

Lemma forallb_length_Forall (n : nat) (m : list (list Qc)) :
  forallb (fun row => Nat.eqb (length row) n) m = true ->
  Forall (fun row => length row = n) m.
Proof.
  intros H. apply Forall_forall. intros row Hin.
  rewrite forallb_forall in H. apply Nat.eqb_eq. exact (H row Hin).
Qed.

(** a partition that holds what the archive of a restorable partition gives
    is in step with it *)
Lemma in_step_loaded (P s : Partition) (pl rl : list Z) :
  restorable P ->
  por_linked_of P = Some pl -> ret_linked_of P = Some rl ->
  numerical_state s
  = (getf P V.a, zeros_like (getf P V.a), getf P V.g_theta, getf P V.g_factor,
     getf P V.g_threshold, getf P V.g_amplification, getf P V.g_min, getf P V.g_max,
     getf P V.g_expect,
     (geti P V.g_function_selector, geti P V.g_countdown, geti P V.g_wait,
      geti P V.n_function_selector, geti P V.allocated_elements_to_activators),
     w P, gets P V.NoE) ->
  current_usages s = recomputed_usages P ->
  calculate_nodes_usages s = Some (recomputed_usages P) ->
  link_flags s = (pl, rl) ->
  in_step P s.
Proof.
  intros [Hw Hcols Hin Hg Hl Hf Haf Hact] Hpl Hrl Hn Hu Hc Hlf.
  assert (En : numerical_state P = numerical_state s).
  { rewrite Hn. unfold numerical_state. rewrite Hin. reflexivity. }
  assert (Ea : activator_flags P = activator_flags s).
  { rewrite Haf. change (activator_flags s)
      with (u_directional_activators (current_usages s),
            u_sampling_activators (current_usages s)).
    rewrite Hu. reflexivity. }
  split; [exact En|]. split; [exact Ea|]. split; [split; [exact Hw|split; assumption]|].
  assert (E1 : getf s V.a = getf P V.a) by (revert En; clear; rel_tac).
  assert (E2 : getf s V.a_in = getf P V.a_in) by (revert En; clear; rel_tac).
  assert (E3 : getf s V.g_theta = getf P V.g_theta) by (revert En; clear; rel_tac).
  assert (E4 : geti s V.g_countdown = geti P V.g_countdown) by (revert En; clear; rel_tac).
  assert (E5 : w s = w P) by (revert En; clear; rel_tac).
  assert (E6 : gets s V.NoE = gets P V.NoE) by (revert En; clear; rel_tac).
  assert (E7 : geti s V.n_function_selector = geti P V.n_function_selector)
    by (revert En; clear; rel_tac).
  assert (E8 : geti s V.g_function_selector = geti P V.g_function_selector)
    by (revert En; clear; rel_tac).
  assert (E9 : geti s V.allocated_elements_to_activators
               = geti P V.allocated_elements_to_activators) by (revert En; clear; rel_tac).
  assert (Ep : por_linked_of s = Some pl).
  { unfold por_linked_of in *. rewrite E5, E6, E7. exact Hpl. }
  assert (Er : ret_linked_of s = Some rl).
  { unfold ret_linked_of in *. rewrite E5, E6, E7. exact Hrl. }
  unfold link_flags in Hlf. injection Hlf as Hl1 Hl2.
  split; [|split].
  - destruct Hw as (W1 & W2 & W3 & W4 & W5 & W6 & W7 & W8 & W9 & W10).
    unfold well_formed. rewrite E1, E2, E3, E4, E5, E6, E7, E8, E9, Hu, Ep, Er.
    split; [exact W1|]. split; [exact W2|]. split; [exact W3|]. split; [exact W4|].
    split; [exact W5|]. split; [exact Hf|]. split; [exact W7|].
    split; [discriminate|]. split; [discriminate|].
    intros Hs. apply W10.
    change (fst (activator_flags P) || snd (activator_flags P) = true).
    rewrite Ea. exact Hs.
  - right. rewrite Hu. exact Hc.
  - right. rewrite Ep, Er, Hl1, Hl2. split; reflexivity.
Qed.

(** the last step of [load_data]: with activators [a[0]] and [g_factor]
    are written again, with the values they have *)
Lemma load_data_g_factors (P s : Partition) :
  (getb P V.has_directional_activators || getb P V.has_sampling_activators = true ->
   nth_error (getf P V.a) 0 = Some 1%Qc
   /\ gather 0%Qc (getf P V.a) (geti P V.allocated_elements_to_activators)
      = Some (getf P V.g_factor)) ->
  in_step P s ->
  forall activators : bool,
  activators = getb s V.has_directional_activators || getb s V.has_sampling_activators ->
  exists P', when activators calculate_g_factors s = (Ok tt, P') /\ in_step P P'.
Proof.
  intros Hact Hs activators ->.
  assert (Ea : getf s V.a = getf P V.a) by (revert Hs; clear; rel_tac).
  assert (Eg : getf s V.g_factor = getf P V.g_factor) by (revert Hs; clear; rel_tac).
  assert (Ee : geti s V.allocated_elements_to_activators
               = geti P V.allocated_elements_to_activators) by (revert Hs; clear; rel_tac).
  assert (Ed : getb s V.has_directional_activators || getb s V.has_sampling_activators
               = getb P V.has_directional_activators || getb P V.has_sampling_activators).
  { revert Hs. clear. rel_tac. }
  rewrite Ed.
  destruct (getb P V.has_directional_activators || getb P V.has_sampling_activators)
    eqn:Eact; cbn [when].
  - destruct (Hact eq_refl) as [Ha Hg].
    rewrite calculate_g_factors_settled.
    + eexists. split; [reflexivity|].
      destruct Hs as (Hn & Hf & Hp & (Hw & Hgq & Hlq)).
      split; [revert Hn; clear; rel_tac|]. split; [exact Hf|]. split; [exact Hp|].
      split; [|split; [exact Hgq|exact Hlq]].
      apply well_formed_set_a; [exact Hw|reflexivity].
    + rewrite Ea. exact Ha.
    + rewrite Ea, Eg, Ee. exact Hg.
  - eexists. split; [reflexivity|]. exact Hs.
Qed.

Lemma load_data_save (nodenet : Nodenet) (P fresh : Partition) :
  restorable P ->
  exists P', load_data nodenet (Some (save P)) fresh = (Ok tt, P') /\ in_step P P'.
Proof.
  intros H. pose proof H as [Hw Hcols Hin Hg Hl Hf Haf Hact].
  pose proof Hw as (_ & _ & _ & _ & Hrows & _ & _ & Hpor & Hret & _).
  destruct (por_linked_of P) as [pl|] eqn:Epl; [|exfalso; apply Hpor; reflexivity].
  destruct (ret_linked_of P) as [rl|] eqn:Erl; [|exfalso; apply Hret; reflexivity].
  clear Hpor Hret.
  pose proof (@csr_roundtrip (Z.to_nat (gets P V.NoE)) (w P) Hrows
                (forallb_length_Forall _ _ Hcols)) as Hcsr.
  unfold load_data, save.
  destruct (csr_of_dense (w P)) as [[w_data w_indices] w_indptr].
  cbn [ar_i ar_f ar_w_data ar_w_indices ar_w_indptr ar_sizeinformation
       mem_ivar mem_fvar saved_ivars saved_fvars existsb ivar_beq fvar_beq orb
       load_i load_f nth_error].
  cbv [bind modify ret read of_option].
  store_read. unfold gets in Hcsr. rewrite Hcsr. cbv [of_outcome ret].
  repeat (rewrite set_has_eq by (first [reflexivity|discriminate]); cbv beta iota;
          store_read).
  cbn [when]. cbv [compile_propagate compile_calculate_nodes ret modify].
  cbv beta iota.
  match goal with
  | |- context [current_usages ?s] =>
      change (current_usages s) with (recomputed_usages P)
  end.
  store_read. cbn [when].
  rewrite rebuild_por_linked_eq.
  match goal with
  | |- context [por_linked_of ?s] => change (por_linked_of s) with (por_linked_of P)
  end.
  rewrite Epl. cbv beta iota. rewrite rebuild_ret_linked_eq.
  match goal with
  | |- context [ret_linked_of ?s] => change (ret_linked_of s) with (ret_linked_of P)
  end.
  rewrite Erl. cbv beta iota. store_read.
  unfold rebuild_shifted. rewrite when_modify. cbv beta iota.
  match goal with
  | |- context [if ?b then _ else _] => destruct b
  end.
  - eapply load_data_g_factors; [exact Hact| |reflexivity].
    apply (@in_step_loaded P _ pl rl H Epl Erl); reflexivity.
  - eapply load_data_g_factors; [exact Hact| |reflexivity].
    apply (@in_step_loaded P _ pl rl H Epl Erl); reflexivity.
Qed.

(** ** Ticks that return *)

(** nothing is due for a rebuild and no activator is present *)
Definition quiet (p : Partition) : Prop :=
  getb p V.has_new_usages = false
  /\ getb p V.por_ret_dirty = false
  /\ getb p V.has_directional_activators || getb p V.has_sampling_activators = false
  /\ calculate_nodes_usages p <> None.

Section TicksReturn.

Variables sigmoid tanh : Qc -> Qc.
Variable behind : Z -> Memory.

Lemma tick_returns (current_step : Z) (p : Partition) :
  quiet p -> exists p', tick sigmoid tanh behind current_step p = (Ok tt, p') /\ quiet p'.
Proof.
  intros (Hn & Hd & Ha & Hu).
  assert (E : forall v, getb (sets V.t current_step (propagate p)) v = getb p v)
    by reflexivity.
  unfold tick, calculate, bind, modify, read. rewrite ?E, Hn. cbn [when ret].
  rewrite ?E, Hd. cbn [when ret].
  unfold rebuild_shifted. rewrite when_modify.
  rewrite ?E.
  match goal with
  | |- context [if ?b then ?x else ?y] => set (s := if b then x else y)
  end.
  assert (Es : forall v, getb s v = getb p v)
    by (intros v; subst s; destruct (getb p V.has_pipes || getb p V.has_lstms);
        reflexivity).
  assert (Eu : calculate_nodes_usages s = calculate_nodes_usages p)
    by (subst s; destruct (getb p V.has_pipes || getb p V.has_lstms); reflexivity).
  rewrite !Es, Ha. cbn [when ret]. unfold calculate_nodes. rewrite Eu.
  destruct (calculate_nodes_usages p) as [u|] eqn:Ecu; [|contradiction].
  eexists. split; [reflexivity|].
  assert (Et : forall v,
             getb (theano_function
                     (calculate_nodes_updates sigmoid tanh (behind current_step) u) s) v
             = getb s v)
    by (intros v; unfold calculate_nodes_updates; destruct (u_pipes u); reflexivity).
  assert (Ev : calculate_nodes_usages
                 (theano_function
                    (calculate_nodes_updates sigmoid tanh (behind current_step) u) s)
               = calculate_nodes_usages s)
    by (unfold calculate_nodes_updates; destruct (u_pipes u); reflexivity).
  unfold quiet. rewrite !Et, !Es, Ev, Eu. repeat split; try assumption.
Qed.

Lemma ticks_return (N : nat) (current_step : Z) (p : Partition) :
  quiet p ->
  exists p', ticks sigmoid tanh behind N current_step p = (Ok tt, p') /\ quiet p'.
Proof.
  revert current_step p. induction N as [|N IH]; intros current_step p H; cbn [ticks].
  - exists p. split; [reflexivity|exact H].
  - destruct (tick_returns current_step H) as (p1 & E1 & H1).
    destruct (IH (current_step + 1) p1 H1) as (p2 & E2 & H2).
    exists p2. split; [|exact H2]. unfold bind. rewrite E1. exact E2.
Qed.

End TicksReturn.

Lemma map_this_inj (l l' : list Qc) : map this l = map this l' -> l = l'.
Proof.
  revert l'. induction l as [|x l IH]; intros [|y l'] H; try discriminate H.
  - reflexivity.
  - cbn [map] in H. injection H as H1 H2. f_equal; [|exact (IH l' H2)].
    apply Qc_is_canon. rewrite H1. reflexivity.
Qed.

Lemma option_this_inj (x y : option Qc) : option_map this x = option_map this y -> x = y.
Proof.
  destruct x as [x|], y as [y|]; cbn [option_map]; intros H; try discriminate H.
  - injection H as H. f_equal. apply Qc_is_canon. rewrite H. reflexivity.
  - reflexivity.
Qed.

Lemma option_map_this_inj (x y : option (list Qc)) :
  option_map (map this) x = option_map (map this) y -> x = y.
Proof.
  destruct x as [x|], y as [y|]; cbn [option_map]; intros H; try discriminate H.
  - injection H as H. f_equal. apply map_this_inj. exact H.
  - reflexivity.
Qed.

(** ** The round trip through an archive *)

(** A register that has completed a tick and then received 0.5 from
    element 1 of the partition [scenario_Q] over a link of weight 2. *)
Definition pending_example : Partition :=
  snd ((create_register ;;
        tick (fun x => x) (fun x => x) (fun _ => zeros_behind) 0 ;;
        propagate_inlinks scenario_Q
          (mkInlink (1 :: nil) (1 :: nil) ((lit 2 1 :: nil) :: nil)))
         (init 1 false 4 2 3)).

(** C2 (counterexample): the archive does not hold [a_in], and [load_data]
    sets it to zeros.  The register of [pending_example] has 0.5 pending
    in [a_in]; after one tick its activation is 0.5 in the original and 0
    in the partition loaded from the archive.  (The partition holds a
    register only, no view is read.) *)
Lemma pending_input_is_not_saved :
  let P := pending_example in
  let loaded := load_data (example_nodenet 1) (Some (save P)) (init 1 false 4 2 3) in
  let after := fun p => ticks (fun x => x) (fun x => x) (fun _ => zeros_behind) 1 1 p in
  elf P V.a_in 1 = lit 1 2
  /\ fst loaded = Ok tt
  /\ fst (after P) = Ok tt
  /\ fst (after (snd loaded)) = Ok tt
  /\ elf (snd (after P)) V.a 1 = lit 1 2
  /\ elf (snd (after (snd loaded))) V.a 1 = 0%Qc
  /\ (lit 1 1000000
      < Qcabs (elf (snd (after P)) V.a 1 - elf (snd (after (snd loaded))) V.a 1))%Qc.
Proof.
  cbv zeta.
  split; [apply Qc_is_canon; vm_compute; reflexivity|].
  split; [vm_compute; reflexivity|].
  split; [vm_compute; reflexivity|].
  split; [vm_compute; reflexivity|].
  split; [apply Qc_is_canon; vm_compute; reflexivity|].
  split; [apply Qc_is_canon; vm_compute; reflexivity|].
  unfold Qclt. vm_compute. reflexivity.
Qed.

(** C2 (amended): for a restorable partition [P] (see [restorable]), every
    target partition [fresh], every [N] and every step counter, whatever the
    memory behind the shifted views of the two partitions holds:
    [load_data] of the archive [save P] returns, the [N] ticks of [P] and the
    [N] ticks of the loaded partition return, and they end with the same
    [a], [a_in], weights and [g_*] arrays (function selector, countdown and
    wait included), exactly. *)
Theorem round_trip_of_a_restorable_partition (sigmoid tanh : Qc -> Qc)
    (behind behind' : Z -> Memory) (nodenet : Nodenet) (P fresh : Partition) (N : nat)
    (current_step : Z) :
  restorable P ->
  exists P' p q,
    load_data nodenet (Some (save P)) fresh = (Ok tt, P')
    /\ ticks sigmoid tanh behind N current_step P = (Ok tt, p)
    /\ ticks sigmoid tanh behind' N current_step P' = (Ok tt, q)
    /\ numerical_state p = numerical_state q.
Proof.
  intros H. destruct (load_data_save nodenet fresh H) as (P' & Hl & Hs).
  destruct (@ticks_in_step sigmoid tanh behind behind' N current_step P P' Hs)
    as (p & q & Hp & Hq & Hpq).
  exists P', p, q. split; [exact Hl|]. split; [exact Hp|]. split; [exact Hq|]. apply Hpq.
Qed.

(** A register with a link to itself and a Pipe (elements 2 to 8 of 24),
    linked, after a tick. *)
Definition settled_example : Partition :=
  snd ((create_register ;;
        create_pipe ;;
        set_link_weight (example_nodenet 0) 1 "gen" 1 "gen" (lit 1 1) ;;
        set_link_weight (example_nodenet 0) 1 "gen" 2 "sub" (lit 1 2) ;;
        set_link_weight (example_nodenet 0) 2 "por" 2 "por" (lit 1 3) ;;
        group_nodes_by_ids (example_nodenet 0) "s0011" (1 :: nil) "r" "gen" ;;
        set_activations "s0011" "r" (lit 1 4 :: nil) ;;
        tick (fun x => x) (fun x => x) (fun _ => sevens_behind) 0)
         (init 1 false 3 8 2)).

Definition create_activator (type : string) : M Z :=
  create_node (example_nodenet 0) "Activator" 1 None (Some (("type"%string, type) :: nil))
    None None.

(** A register that keeps its activation 1 and feeds the slots por, sub and
    sur of a Pipe (elements 2 to 8 of 24), and an activator of the por gates
    (element 9) that keeps its activation 1/2, after a tick: the por gate of
    the Pipe holds 1/2, its factor is 1/2. *)
Definition activated_example : Partition :=
  snd ((create_register ;;
        create_pipe ;;
        create_activator "por" ;;
        set_link_weight (example_nodenet 0) 3 "gen" 3 "gen" 1%Qc ;;
        set_link_weight (example_nodenet 0) 1 "gen" 1 "gen" 1%Qc ;;
        set_link_weight (example_nodenet 0) 1 "gen" 2 "sub" 1%Qc ;;
        set_link_weight (example_nodenet 0) 1 "gen" 2 "sur" 1%Qc ;;
        set_link_weight (example_nodenet 0) 1 "gen" 2 "por" 1%Qc ;;
        group_nodes_by_ids (example_nodenet 0) "s0011" (3 :: nil) "act" "gen" ;;
        set_activations "s0011" "act" (lit 1 2 :: nil) ;;
        group_nodes_by_ids (example_nodenet 0) "s0011" (1 :: nil) "r" "gen" ;;
        set_activations "s0011" "r" (lit 1 1 :: nil) ;;
        tick (fun x => x) (fun x => x) (fun _ => sevens_behind) 0)
         (init 1 false 3 8 2)).

(** The register and the Pipe of [settled_example], linked, with the
    activation of the register set, before any tick: no graph is compiled,
    the link flags are due for a rebuild. *)
Definition never_ticked_example : Partition :=
  snd ((create_register ;;
        create_pipe ;;
        set_link_weight (example_nodenet 0) 1 "gen" 1 "gen" (lit 1 1) ;;
        set_link_weight (example_nodenet 0) 1 "gen" 2 "sub" (lit 1 2) ;;
        set_link_weight (example_nodenet 0) 2 "por" 2 "por" (lit 1 3) ;;
        group_nodes_by_ids (example_nodenet 0) "s0011" (1 :: nil) "r" "gen" ;;
        set_activations "s0011" "r" (lit 1 4 :: nil))
         (init 1 false 3 8 2)).

(** A register and a Pipe after a tick, and then the Pipe deleted: the flag
    [has_pipes] stays, [load_data] recomputes it as false. *)
Definition pipe_deleted_example : Partition :=
  snd ((create_register ;;
        create_pipe ;;
        set_link_weight (example_nodenet 0) 1 "gen" 1 "gen" (lit 1 1) ;;
        set_link_weight (example_nodenet 0) 1 "gen" 2 "sub" (lit 1 2) ;;
        group_nodes_by_ids (example_nodenet 0) "s0011" (1 :: nil) "r" "gen" ;;
        set_activations "s0011" "r" (lit 1 4 :: nil) ;;
        tick (fun x => x) (fun x => x) (fun _ => sevens_behind) 0 ;;
        delete_node (example_nodenet 1) 2)
         (init 1 false 3 8 2)).

(** The round trip of four partitions: [settled_example] after a tick,
    [activated_example] with an activator, [never_ticked_example], and
    [pipe_deleted_example] with a capability flag that the loaded partition
    does not have; the two runs of each see different memories behind their
    views. *)
Lemma round_trip_of_a_restorable_partition_witness :
  (restorable settled_example
   /\ exists P' p q,
        load_data (example_nodenet 1) (Some (save settled_example)) (init 9 true 1 1 1)
        = (Ok tt, P')
        /\ ticks (fun x => x) (fun x => x) (fun _ => zeros_behind) 3 1 settled_example
           = (Ok tt, p)
        /\ ticks (fun x => x) (fun x => x) (fun _ => sevens_behind) 3 1 P' = (Ok tt, q)
        /\ numerical_state p = numerical_state q)
  /\ (restorable activated_example
      /\ elf activated_example V.a 3 = lit 1 2
      /\ elf activated_example V.g_factor 3 = lit 1 2
      /\ exists P' p q,
           load_data (example_nodenet 1) (Some (save activated_example)) (init 9 true 1 1 1)
           = (Ok tt, P')
           /\ ticks (fun x => x) (fun x => x) (fun _ => zeros_behind) 2 1 activated_example
              = (Ok tt, p)
           /\ ticks (fun x => x) (fun x => x) (fun _ => sevens_behind) 2 1 P' = (Ok tt, q)
           /\ numerical_state p = numerical_state q)
  /\ (restorable never_ticked_example
      /\ getb never_ticked_example V.has_new_usages = true
      /\ getb never_ticked_example V.por_ret_dirty = true
      /\ calculate_nodes_usages never_ticked_example = None
      /\ exists P' p q,
           load_data (example_nodenet 1) (Some (save never_ticked_example))
             (init 9 true 1 1 1)
           = (Ok tt, P')
           /\ ticks (fun x => x) (fun x => x) (fun _ => zeros_behind) 2 0
                never_ticked_example
              = (Ok tt, p)
           /\ ticks (fun x => x) (fun x => x) (fun _ => sevens_behind) 2 0 P' = (Ok tt, q)
           /\ numerical_state p = numerical_state q)
  /\ (restorable pipe_deleted_example
      /\ u_pipes (current_usages pipe_deleted_example) = true
      /\ u_pipes (recomputed_usages pipe_deleted_example) = false
      /\ exists P' p q,
           load_data (example_nodenet 1) (Some (save pipe_deleted_example))
             (init 9 true 1 1 1)
           = (Ok tt, P')
           /\ ticks (fun x => x) (fun x => x) (fun _ => zeros_behind) 2 1
                pipe_deleted_example
              = (Ok tt, p)
           /\ ticks (fun x => x) (fun x => x) (fun _ => sevens_behind) 2 1 P' = (Ok tt, q)
           /\ numerical_state p = numerical_state q).
Proof.
  assert (H1 : restorable settled_example).
  { constructor.
    - unfold well_formed.
      split; [vm_compute; reflexivity|]. split; [vm_compute; reflexivity|].
      split; [vm_compute; reflexivity|]. split; [vm_compute; reflexivity|].
      split; [vm_compute; reflexivity|]. split; [vm_compute; reflexivity|].
      split; [vm_compute; reflexivity|]. split; [vm_compute; discriminate|].
      split; [vm_compute; discriminate|].
      intros Ha; vm_compute in Ha; discriminate Ha.
    - vm_compute; reflexivity.
    - apply map_this_inj; vm_compute; reflexivity.
    - right. vm_compute; reflexivity.
    - right. split; vm_compute; reflexivity.
    - vm_compute; reflexivity.
    - vm_compute; reflexivity.
    - intros Ha; vm_compute in Ha; discriminate Ha. }
  assert (H2 : restorable activated_example).
  { constructor.
    - unfold well_formed.
      split; [vm_compute; reflexivity|]. split; [vm_compute; reflexivity|].
      split; [vm_compute; reflexivity|]. split; [vm_compute; reflexivity|].
      split; [vm_compute; reflexivity|]. split; [vm_compute; reflexivity|].
      split; [vm_compute; reflexivity|]. split; [vm_compute; discriminate|].
      split; [vm_compute; discriminate|].
      intros _. split; [vm_compute; lia|vm_compute; reflexivity].
    - vm_compute; reflexivity.
    - apply map_this_inj; vm_compute; reflexivity.
    - right. vm_compute; reflexivity.
    - right. split; vm_compute; reflexivity.
    - vm_compute; reflexivity.
    - vm_compute; reflexivity.
    - intros _. split.
      + apply option_this_inj. vm_compute. reflexivity.
      + apply option_map_this_inj. vm_compute. reflexivity. }
  assert (H3 : restorable never_ticked_example).
  { constructor.
    - unfold well_formed.
      split; [vm_compute; reflexivity|]. split; [vm_compute; reflexivity|].
      split; [vm_compute; reflexivity|]. split; [vm_compute; reflexivity|].
      split; [vm_compute; reflexivity|]. split; [vm_compute; reflexivity|].
      split; [vm_compute; reflexivity|]. split; [vm_compute; discriminate|].
      split; [vm_compute; discriminate|].
      intros Ha; vm_compute in Ha; discriminate Ha.
    - vm_compute; reflexivity.
    - apply map_this_inj; vm_compute; reflexivity.
    - left. vm_compute; reflexivity.
    - left. vm_compute; reflexivity.
    - vm_compute; reflexivity.
    - vm_compute; reflexivity.
    - intros Ha; vm_compute in Ha; discriminate Ha. }
  assert (H4 : restorable pipe_deleted_example).
  { constructor.
    - unfold well_formed.
      split; [vm_compute; reflexivity|]. split; [vm_compute; reflexivity|].
      split; [vm_compute; reflexivity|]. split; [vm_compute; reflexivity|].
      split; [vm_compute; reflexivity|]. split; [vm_compute; reflexivity|].
      split; [vm_compute; reflexivity|]. split; [vm_compute; discriminate|].
      split; [vm_compute; discriminate|].
      intros Ha; vm_compute in Ha; discriminate Ha.
    - vm_compute; reflexivity.
    - apply map_this_inj; vm_compute; reflexivity.
    - right. vm_compute; reflexivity.
    - right. split; vm_compute; reflexivity.
    - vm_compute; reflexivity.
    - vm_compute; reflexivity.
    - intros Ha; vm_compute in Ha; discriminate Ha. }
  split; [split; [exact H1|]|split; [split; [exact H2|split; [|split]]|
          split; [split; [exact H3|split; [|split; [|split]]]|
                  split; [exact H4|split; [|split]]]]].
  - exact (round_trip_of_a_restorable_partition (fun x => x) (fun x => x)
             (fun _ => zeros_behind) (fun _ => sevens_behind) (example_nodenet 1)
             (init 9 true 1 1 1) 3 1 H1).
  - apply Qc_is_canon; vm_compute; reflexivity.
  - apply Qc_is_canon; vm_compute; reflexivity.
  - exact (round_trip_of_a_restorable_partition (fun x => x) (fun x => x)
             (fun _ => zeros_behind) (fun _ => sevens_behind) (example_nodenet 1)
             (init 9 true 1 1 1) 2 1 H2).
  - vm_compute; reflexivity.
  - vm_compute; reflexivity.
  - vm_compute; reflexivity.
  - exact (round_trip_of_a_restorable_partition (fun x => x) (fun x => x)
             (fun _ => zeros_behind) (fun _ => sevens_behind) (example_nodenet 1)
             (init 9 true 1 1 1) 2 0 H3).
  - vm_compute; reflexivity.
  - vm_compute; reflexivity.
  - exact (round_trip_of_a_restorable_partition (fun x => x) (fun x => x)
             (fun _ => zeros_behind) (fun _ => sevens_behind) (example_nodenet 1)
             (init 9 true 1 1 1) 2 1 H4).
Defined.

(** *** What else the archive does not restore *)

(** An activator without a type: [create_node] sets
    [has_directional_activators], no nodespace names the activator, and
    [load_data] recomputes the flag as false.  The original writes [a[0] = 1]
    in every tick, the loaded partition does not. *)
Definition untyped_activator_example : Partition :=
  snd ((create_register ;;
        create_node (example_nodenet 0) "Activator" 1 None None None None)
         (init 1 false 3 8 2)).

Example untyped_activator_is_not_restored :
  let P := untyped_activator_example in
  let loaded := load_data (example_nodenet 0) (Some (save P)) (init 1 false 3 8 2) in
  let after := fun p => ticks (fun x => x) (fun x => x) (fun _ => zeros_behind) 1 0 p in
  activator_flags P = (true, false)
  /\ activator_flags (snd loaded) = (false, false)
  /\ fst loaded = Ok tt
  /\ fst (after P) = Ok tt
  /\ fst (after (snd loaded)) = Ok tt
  /\ elf (snd (after P)) V.a 0 = 1%Qc
  /\ elf (snd (after (snd loaded))) V.a 0 = 0%Qc.
Proof.
  cbv zeta.
  split; [vm_compute; reflexivity|]. split; [vm_compute; reflexivity|].
  split; [vm_compute; reflexivity|]. split; [vm_compute; reflexivity|].
  split; [vm_compute; reflexivity|].
  split; apply Qc_is_canon; vm_compute; reflexivity.
Qed.

(** A Pipe and an activator of its por gates that holds 1/2, before any
    tick: [a[0]] is 0 and the factors are 1; [load_data] writes [a[0] = 1]
    and reads the factors off [a]. *)
Definition activator_example : Partition :=
  snd ((create_register ;;
        create_pipe ;;
        create_activator "por" ;;
        group_nodes_by_ids (example_nodenet 0) "s0011" (3 :: nil) "act" "gen" ;;
        set_activations "s0011" "act" (lit 1 2 :: nil))
         (init 1 false 3 8 2)).

Example fresh_activators_are_not_restored :
  let P := activator_example in
  let loaded := load_data (example_nodenet 0) (Some (save P)) (init 1 false 3 8 2) in
  fst loaded = Ok tt
  /\ elf P V.a 0 = 0%Qc /\ elf (snd loaded) V.a 0 = 1%Qc
  /\ elf P V.g_factor 3 = 1%Qc /\ elf (snd loaded) V.g_factor 3 = lit 1 2.
Proof.
  cbv zeta. split; [vm_compute; reflexivity|].
  split; [apply Qc_is_canon; vm_compute; reflexivity|].
  split; [apply Qc_is_canon; vm_compute; reflexivity|].
  split; apply Qc_is_canon; vm_compute; reflexivity.
Qed.

(** Link flags that are not the ones of the weights (see C3): three
    registers and a Pipe (elements 4 to 10 of 40); the first two registers
    are linked to the por slot, the third, which keeps the activation 1, to
    the sub slot; after a tick the weight of the first link is set to zero,
    which clears the por-linked flags.  In the next tick the sub gate of the
    original yields 1; the loaded partition has the flags rebuilt from the
    weights, its sub gate waits for por and yields 0. *)
Definition stale_links_example : Partition :=
  snd ((create_register ;; create_register ;; create_register ;; create_pipe ;;
        set_link_weight (example_nodenet 0) 1 "gen" 4 "por" 1%Qc ;;
        set_link_weight (example_nodenet 0) 2 "gen" 4 "por" 1%Qc ;;
        set_link_weight (example_nodenet 0) 3 "gen" 4 "sub" 1%Qc ;;
        set_link_weight (example_nodenet 0) 3 "gen" 3 "gen" 1%Qc ;;
        group_nodes_by_ids (example_nodenet 0) "s0011" (3 :: nil) "c" "gen" ;;
        set_activations "s0011" "c" (1%Qc :: nil) ;;
        tick (fun x => x) (fun x => x) (fun _ => zeros_behind) 0 ;;
        set_link_weight (example_nodenet 1) 1 "gen" 4 "por" 0%Qc)
         (init 1 false 5 8 3)).

Example stale_link_flags_are_not_restored :
  let P := stale_links_example in
  let loaded := load_data (example_nodenet 1) (Some (save P)) (init 1 false 5 8 3) in
  let after := fun p => ticks (fun x => x) (fun x => x) (fun _ => zeros_behind) 1 1 p in
  getb P V.por_ret_dirty = false
  /\ eli P V.n_node_porlinked 7 = 0
  /\ option_map (fun flags => nth 7 flags 0) (por_linked_of P) = Some 1
  /\ fst loaded = Ok tt
  /\ eli (snd loaded) V.n_node_porlinked 7 = 1
  /\ fst (after P) = Ok tt
  /\ fst (after (snd loaded)) = Ok tt
  /\ elf (snd (after P)) V.a 7 = 1%Qc
  /\ elf (snd (after (snd loaded))) V.a 7 = 0%Qc.
Proof.
  cbv zeta.
  split; [vm_compute; reflexivity|]. split; [vm_compute; reflexivity|].
  split; [vm_compute; reflexivity|]. split; [vm_compute; reflexivity|].
  split; [vm_compute; reflexivity|]. split; [vm_compute; reflexivity|].
  split; [vm_compute; reflexivity|].
  split; apply Qc_is_canon; vm_compute; reflexivity.
Qed.

(** A Pipe whose rules read behind the buffer ([pipe_at_the_end], elements
    2 to 8 of 12): the tick depends on the memory behind the views, which
    the archive does not hold. *)
Example memory_behind_the_views_is_not_restored :
  let P := pipe_at_the_end in
  reads_within (geti P V.n_function_selector) (Z.to_nat (gets P V.NoE)) = false
  /\ fst (ticks (fun x => x) (fun x => x) (fun _ => zeros_behind) 1 1 P) = Ok tt
  /\ fst (ticks (fun x => x) (fun x => x) (fun _ => sevens_behind) 1 1 P) = Ok tt
  /\ elf (snd (ticks (fun x => x) (fun x => x) (fun _ => zeros_behind) 1 1 P)) V.a 3
     = 0%Qc
  /\ elf (snd (ticks (fun x => x) (fun x => x) (fun _ => sevens_behind) 1 1 P)) V.a 3
     = 1%Qc.
Proof.
  cbv zeta.
  split; [vm_compute; reflexivity|]. split; [vm_compute; reflexivity|].
  split; [vm_compute; reflexivity|].
  split; apply Qc_is_canon; vm_compute; reflexivity.
Qed.

(** * Further properties of the partition *)

(** ** The archive *)

(** X1: the three arrays [save] writes for a weight matrix of [NoE] rows and
    [NoE] columns are read back by the constructor [load_data] uses as the
    same matrix. *)
Theorem weights_survive_the_archive (p : Partition) :
  length (w p) = Z.to_nat (gets p V.NoE) ->
  Forall (fun row => length row = Z.to_nat (gets p V.NoE)) (w p) ->
  exists w_data w_indices w_indptr,
    ar_w_data (save p) = Some w_data
    /\ ar_w_indices (save p) = Some w_indices
    /\ ar_w_indptr (save p) = Some w_indptr
    /\ dense_of_csr (Z.to_nat (gets p V.NoE)) w_data w_indices w_indptr = Ok (w p).
Proof.
  intros Hrows Hcols. pose proof (csr_roundtrip Hrows Hcols) as H.
  unfold save. destruct (csr_of_dense (w p)) as [[w_data w_indices] w_indptr].
  exists w_data, w_indices, w_indptr. repeat split. exact H.
Qed.

Lemma weights_survive_the_archive_witness :
  exists w_data w_indices w_indptr,
    ar_w_data (save settled_example) = Some w_data
    /\ ar_w_indices (save settled_example) = Some w_indices
    /\ ar_w_indptr (save settled_example) = Some w_indptr
    /\ dense_of_csr (Z.to_nat (gets settled_example V.NoE)) w_data w_indices w_indptr
       = Ok (w settled_example).
Proof.
  apply weights_survive_the_archive.
  - vm_compute; reflexivity.
  - apply forallb_length_Forall. vm_compute; reflexivity.
Defined.

(** ** What a tick depends on *)

(** X2: [N] ticks read nothing but the numerical state and the presence of
    activators: two coherent partitions that agree on them (and may differ in
    [a_prev], the step counter, the shifted views and the memory behind
    them, the capability flags that cover the selectors, a compilation or a
    rebuild of the link flags that is due, the allocation tables, the groups,
    the links from other partitions) both complete their ticks, and end in
    step, with the same numerical state. *)
Theorem ticks_read_the_numerical_state (sigmoid tanh : Qc -> Qc)
    (behind behind' : Z -> Memory) (N : nat) (current_step : Z) (p q : Partition) :
  in_step p q ->
  exists p' q',
    ticks sigmoid tanh behind N current_step p = (Ok tt, p')
    /\ ticks sigmoid tanh behind' N current_step q = (Ok tt, q')
    /\ numerical_state p' = numerical_state q'
    /\ in_step p' q'.
Proof.
  intros H.
  destruct (@ticks_in_step sigmoid tanh behind behind' N current_step p q H)
    as (p' & q' & Hp & Hq & Hpq).
  exists p', q'. split; [exact Hp|]. split; [exact Hq|]. split; [apply Hpq|exact Hpq].
Qed.

(** a partition with another history: other [a_prev], step counter, groups
    and allocation table, no graph compiled, the link flags due for a
    rebuild *)
Definition retold (p : Partition) : Partition :=
  setb V.por_ret_dirty true
    (setb V.has_new_usages true
       (set_calculate_nodes_usages None
          (sets V.t 77
             (setf V.a_prev []
                (set_nodegroups []
                   (seti V.allocated_node_parents [] p)))))).

Lemma in_step_retold (p : Partition) : coherent p -> in_step p (retold p).
Proof.
  intros H. split; [reflexivity|]. split; [reflexivity|]. split; [exact H|].
  split; [exact (proj1 H)|]. split; left; reflexivity.
Qed.

Definition settled_example_retold : Partition := retold settled_example.

Lemma ticks_read_the_numerical_state_witness :
  in_step settled_example settled_example_retold
  /\ calculate_nodes_usages settled_example_retold = None
  /\ getf settled_example_retold V.a_prev <> getf settled_example V.a_prev
  /\ exists p' q',
       ticks (fun x => x) (fun x => x) (fun _ => zeros_behind) 2 5 settled_example
       = (Ok tt, p')
       /\ ticks (fun x => x) (fun x => x) (fun _ => sevens_behind) 2 5
            settled_example_retold
          = (Ok tt, q')
       /\ numerical_state p' = numerical_state q'
       /\ in_step p' q'.
Proof.
  assert (H : in_step settled_example settled_example_retold).
  { apply in_step_retold.
    split; [|split].
    - unfold well_formed.
      split; [vm_compute; reflexivity|]. split; [vm_compute; reflexivity|].
      split; [vm_compute; reflexivity|]. split; [vm_compute; reflexivity|].
      split; [vm_compute; reflexivity|]. split; [vm_compute; reflexivity|].
      split; [vm_compute; reflexivity|]. split; [vm_compute; discriminate|].
      split; [vm_compute; discriminate|].
      intros Ha; vm_compute in Ha; discriminate Ha.
    - right. vm_compute; reflexivity.
    - right. split; vm_compute; reflexivity. }
  split; [exact H|]. split; [reflexivity|]. split; [vm_compute; discriminate|].
  exact (ticks_read_the_numerical_state (fun x => x) (fun x => x)
           (fun _ => zeros_behind) (fun _ => sevens_behind) 2 5 H).
Defined.

(** X3: with the graph compiled, nothing due for a rebuild and no
    activators, ticks do not raise, and the partition stays so. *)
Theorem quiet_ticks_return (sigmoid tanh : Qc -> Qc) (behind : Z -> Memory) (N : nat)
    (current_step : Z) (p : Partition) :
  quiet p ->
  fst (ticks sigmoid tanh behind N current_step p) = Ok tt
  /\ quiet (snd (ticks sigmoid tanh behind N current_step p)).
Proof.
  intros H.
  destruct (@ticks_return sigmoid tanh behind N current_step p H) as (p' & E & H').
  rewrite E. split; [reflexivity|exact H'].
Qed.

Lemma quiet_ticks_return_witness :
  fst (ticks (fun x => x) (fun x => x) (fun _ => sevens_behind) 4 0 settled_example)
  = Ok tt
  /\ quiet (snd (ticks (fun x => x) (fun x => x) (fun _ => sevens_behind) 4 0
                  settled_example)).
Proof.
  apply quiet_ticks_return.
  split; [vm_compute; reflexivity|]. split; [vm_compute; reflexivity|].
  split; [vm_compute; reflexivity|]. vm_compute. discriminate.
Defined.

(** ** Activators *)

Lemma ok_pair {A : Type} (r : outcome A * Partition) (x : A) :
  fst r = Ok x -> r = (Ok x, snd r).
Proof. destruct r as [o p]. cbn [fst snd]. intros ->. reflexivity. Qed.

Lemma gather_spec {A : Type} (d : A) (x : list A) (indices : list Z) (r : list A) :
  gather d x indices = Some r ->
  length r = length indices
  /\ forall i, (i < length indices)%nat ->
       exists n, py_index (length x) (nth i indices 0) = Some n
                 /\ nth i r d = nth n x d.
Proof.
  revert r. induction indices as [|j tl IH]; intros r H; cbn [gather] in H.
  - injection H as <-. split; [reflexivity|]. intros i Hi. cbn [length] in Hi. lia.
  - destruct (py_index (length x) j) as [n|] eqn:Ej; [|discriminate].
    destruct (gather d x tl) as [r'|]; [|discriminate]. injection H as <-.
    destruct (IH r' eq_refl) as [Hl Hn]. split; [cbn [length]; lia|].
    intros [|i] Hi; cbn [nth length] in *.
    + exists n. split; [exact Ej|reflexivity].
    + apply Hn. lia.
Qed.

(** X4: when [calculate_g_factors] returns, [a[0]] is 1 and the factor of
    every element is the activation of its activator, read after [a[0]]
    was set; an element without activator (activator element 0) has factor
    1. *)
Theorem g_factor_is_the_activation_of_the_activator (p p' : Partition) :
  calculate_g_factors p = (Ok tt, p') ->
  getf p' V.a = set_nth 0 1%Qc (getf p V.a)
  /\ nth 0 (getf p' V.a) 0%Qc = 1%Qc
  /\ length (getf p' V.g_factor) = length (geti p V.allocated_elements_to_activators)
  /\ forall i e, (i < length (geti p V.allocated_elements_to_activators))%nat ->
       nth i (geti p V.allocated_elements_to_activators) 0 = e ->
       (0 <= e < Z.of_nat (length (getf p V.a)) ->
        nth i (getf p' V.g_factor) 0%Qc = nth (Z.to_nat e) (getf p' V.a) 0%Qc)
       /\ (e = 0 -> nth i (getf p' V.g_factor) 0%Qc = 1%Qc).
Proof.
  unfold calculate_g_factors, setf_at, bind, read. intros H.
  destruct (py_index (length (getf p V.a)) 0) as [n|] eqn:E0; [|discriminate].
  assert (Hn : n = 0%nat /\ (0 < length (getf p V.a))%nat).
  { unfold py_index in E0.
    destruct ((0 <=? 0) && (0 <? Z.of_nat (length (getf p V.a)))) eqn:Eb.
    - injection E0 as <-. split; [reflexivity|].
      apply andb_prop in Eb. destruct Eb as [_ Eb]. apply Z.ltb_lt in Eb. lia.
    - destruct ((- Z.of_nat (length (getf p V.a)) <=? 0) && (0 <? 0)) eqn:Eb';
        [|discriminate]. apply andb_prop in Eb'. destruct Eb' as [_ Eb']. discriminate. }
  destruct Hn as [-> Hlen].
  rewrite getf_setf in H. cbn [fvar_beq] in H.
  change (geti (setf V.a (set_nth 0 1%Qc (getf p V.a)) p)
            V.allocated_elements_to_activators)
    with (geti p V.allocated_elements_to_activators) in H.
  destruct (gather 0%Qc (set_nth 0 1%Qc (getf p V.a))
              (geti p V.allocated_elements_to_activators)) as [g|] eqn:Eg;
    cbn [of_option ret raise modify] in H; [|discriminate].
  injection H as <-. rewrite !getf_setf. cbn [fvar_beq].
  assert (H1 : nth 0 (set_nth 0 1%Qc (getf p V.a)) 0%Qc = 1%Qc)
    by (destruct (getf p V.a); [cbn [length] in Hlen; lia|reflexivity]).
  assert (Hl : length (set_nth 0 1%Qc (getf p V.a)) = length (getf p V.a))
    by (destruct (getf p V.a); reflexivity).
  destruct (gather_spec _ _ _ Eg) as [Hg Hi].
  split; [reflexivity|]. split; [exact H1|]. split; [exact Hg|].
  intros i e Hlt He'. destruct (Hi i Hlt) as (n & En & Hv). rewrite He' in En.
  rewrite Hl in En. split.
  - intros He. unfold py_index in En.
    replace ((0 <=? e) && (e <? Z.of_nat (length (getf p V.a)))) with true in En
      by (symmetry; apply andb_true_intro; split; [apply Z.leb_le|apply Z.ltb_lt]; lia).
    injection En as <-. exact Hv.
  - intros He. rewrite He in En. rewrite E0 in En. injection En as <-.
    rewrite Hv. exact H1.
Qed.

(** In [activator_example] the por gate of the Pipe (element 3) has the
    activator at element 9, which holds 1/2: its factor becomes 1/2, the
    factors of the elements without activator become 1. *)
Lemma g_factor_is_the_activation_of_the_activator_witness :
  let p := activator_example in
  let p' := snd (calculate_g_factors p) in
  (getf p' V.a = set_nth 0 1%Qc (getf p V.a)
   /\ nth 0 (getf p' V.a) 0%Qc = 1%Qc
   /\ length (getf p' V.g_factor) = length (geti p V.allocated_elements_to_activators)
   /\ forall i e, (i < length (geti p V.allocated_elements_to_activators))%nat ->
        nth i (geti p V.allocated_elements_to_activators) 0 = e ->
        (0 <= e < Z.of_nat (length (getf p V.a)) ->
         nth i (getf p' V.g_factor) 0%Qc = nth (Z.to_nat e) (getf p' V.a) 0%Qc)
        /\ (e = 0 -> nth i (getf p' V.g_factor) 0%Qc = 1%Qc))
  /\ nth 3 (geti p V.allocated_elements_to_activators) 0 = 9
  /\ nth 9 (getf p V.a) 0%Qc = lit 1 2
  /\ nth 3 (getf p V.g_factor) 0%Qc = 1%Qc
  /\ nth 3 (getf p' V.g_factor) 0%Qc = lit 1 2
  /\ nth 4 (getf p' V.g_factor) 0%Qc = 1%Qc.
Proof.
  cbv zeta.
  assert (E : calculate_g_factors activator_example
              = (Ok tt, snd (calculate_g_factors activator_example)))
    by (apply ok_pair; vm_compute; reflexivity).
  pose proof (@g_factor_is_the_activation_of_the_activator _ _ E) as H.
  split; [exact H|].
  destruct H as (_ & _ & _ & H).
  assert (H3 : nth 3 (geti activator_example V.allocated_elements_to_activators) 0 = 9)
    by (vm_compute; reflexivity).
  assert (H9 : nth 9 (getf activator_example V.a) 0%Qc = lit 1 2)
    by (apply Qc_is_canon; vm_compute; reflexivity).
  split; [exact H3|]. split; [exact H9|].
  split; [apply Qc_is_canon; vm_compute; reflexivity|].
  split.
  - destruct (H 3%nat 9) as [H' _]; [vm_compute; lia|exact H3|].
    rewrite H' by (vm_compute; split; [discriminate|reflexivity]).
    apply Qc_is_canon; vm_compute; reflexivity.
  - destruct (H 4%nat 0) as [_ H']; [vm_compute; lia|vm_compute; reflexivity|].
    exact (H' eq_refl).
Defined.

(** ** Growth *)

Lemma grow_vec_app {A : Type} (fill : A) (n k : nat) (l : list A) :
  (length l + k)%nat = n -> grow_vec fill n l = l ++ repeat fill k.
Proof.
  intros H. unfold grow_vec. rewrite firstn_all2 by lia. f_equal. f_equal. lia.
Qed.

(** the tables indexed by node id *)
Definition node_table (v : V.ivar) : bool :=
  match v with
  | V.allocated_nodes | V.allocated_node_parents | V.allocated_node_offsets
  | V.nodes_last_changed => true
  | _ => false
  end.

(** X5: [grow_number_of_nodes] by [growby >= 0] returns, adds [growby] to
    [NoN], appends [growby] zeros to each table indexed by node id that had
    [NoN] entries (so every node keeps its type, parent, offset and change
    step, and the new ids are free), leaves the other integer arrays, the
    float arrays and the weights as they are, and asks for a new graph. *)
Theorem grow_number_of_nodes_keeps_the_nodes (growby : Z) (p : Partition) :
  0 <= growby ->
  let r := grow_number_of_nodes growby p in
  fst r = Ok tt
  /\ gets (snd r) V.NoN = gets p V.NoN + growby
  /\ (forall v, node_table v = true ->
        Z.of_nat (length (geti p v)) = gets p V.NoN ->
        geti (snd r) v = geti p v ++ zerosZ (Z.to_nat growby))
  /\ (forall v, node_table v = false -> geti (snd r) v = geti p v)
  /\ (forall v, getf (snd r) v = getf p v)
  /\ w (snd r) = w p
  /\ getb (snd r) V.has_new_usages = true.
Proof.
  intros Hg. cbv zeta. unfold grow_number_of_nodes, bind, modify. cbn [fst snd].
  unfold grow_i. split; [reflexivity|]. split; [reflexivity|].
  split; [|split; [|split; [|split]]].
  - intros v Hv Hlen.
    assert (E : (length (geti p v) + Z.to_nat growby)%nat
                = Z.to_nat (gets p V.NoN + growby)) by lia.
    destruct v; try discriminate Hv; store_read; apply grow_vec_app; exact E.
  - intros v Hv. destruct v; try discriminate Hv; reflexivity.
  - reflexivity.
  - reflexivity.
  - reflexivity.
Qed.

Lemma grow_number_of_nodes_keeps_the_nodes_witness :
  let p := settled_example in
  let r := grow_number_of_nodes 2 p in
  fst r = Ok tt
  /\ gets (snd r) V.NoN = gets p V.NoN + 2
  /\ (forall v, node_table v = true ->
        Z.of_nat (length (geti p v)) = gets p V.NoN ->
        geti (snd r) v = geti p v ++ zerosZ (Z.to_nat 2))
  /\ (forall v, node_table v = false -> geti (snd r) v = geti p v)
  /\ (forall v, getf (snd r) v = getf p v)
  /\ w (snd r) = w p
  /\ getb (snd r) V.has_new_usages = true.
Proof. cbv zeta. apply grow_number_of_nodes_keeps_the_nodes. lia. Defined.

(** the fill value of the float vectors *)
Definition element_default (v : V.fvar) : Qc :=
  match v with
  | V.g_factor | V.g_amplification | V.g_max | V.g_expect => 1%Qc
  | _ => 0%Qc
  end.

(** the integer vectors indexed by element that keep their entries *)
Definition element_table (v : V.ivar) : bool :=
  match v with
  | V.allocated_elements_to_nodes | V.allocated_elements_to_activators
  | V.g_function_selector | V.g_countdown | V.g_wait | V.n_function_selector => true
  | _ => false
  end.

Definition element_table_default (v : V.ivar) : Z :=
  match v with V.g_wait => 1 | _ => 0 end.

Lemma grow_matrix_app (n k : nat) (m : list (list Qc)) :
  (length m + k)%nat = n -> Forall (fun row => (length row + k)%nat = n) m ->
  grow_matrix n m = map (fun row => row ++ zeros k) m ++ repeat (zeros n) k.
Proof.
  intros Hm Hrows. unfold grow_matrix.
  rewrite (@grow_vec_app _ (zeros n) n k) by (rewrite length_map; exact Hm).
  f_equal. apply map_ext_in. intros row Hin.
  rewrite Forall_forall in Hrows. apply grow_vec_app. exact (Hrows row Hin).
Qed.

(** reads through the growth steps *)
Ltac grow_read :=
  unfold geti, getf, gets, getb in *;
  cbn [iv sv fv bv w grow_i grow_f geti getf
       seti sets setf setb set_w set_a_shifted set_g_theta_shifted
       upd get_flag set_flag ivar_beq svar_beq fvar_beq bvar_beq].

(** X6: [grow_number_of_elements] by [growby >= 0] on a partition whose
    weight matrix is [NoE] by [NoE] returns and keeps every weight: each row
    gets [growby] zeros appended and [growby] zero rows follow.  Float
    vectors of length [NoE] get [growby] default entries appended (1 for
    factor, amplification, maximum and expectation, 0 otherwise), the
    integer vectors of the elements likewise (1 for the wait time), the
    link flags are all reset to 0, and a rebuild of them is requested only
    if the partition has Pipes. *)
Theorem grow_number_of_elements_keeps_the_weights (growby : Z) (p : Partition) :
  0 <= growby -> 0 <= gets p V.NoE ->
  length (w p) = Z.to_nat (gets p V.NoE) ->
  Forall (fun row => length row = Z.to_nat (gets p V.NoE)) (w p) ->
  let k := Z.to_nat growby in
  let r := grow_number_of_elements growby p in
  fst r = Ok tt
  /\ gets (snd r) V.NoE = gets p V.NoE + growby
  /\ w (snd r)
     = map (fun row => row ++ zeros k) (w p)
       ++ repeat (zeros (Z.to_nat (gets p V.NoE + growby))) k
  /\ (forall v, Z.of_nat (length (getf p v)) = gets p V.NoE ->
        getf (snd r) v = getf p v ++ repeat (element_default v) k)
  /\ (forall v, element_table v = true ->
        Z.of_nat (length (geti p v)) = gets p V.NoE ->
        geti (snd r) v = geti p v ++ repeat (element_table_default v) k)
  /\ geti (snd r) V.n_node_porlinked = zerosZ (Z.to_nat (gets p V.NoE + growby))
  /\ geti (snd r) V.n_node_retlinked = zerosZ (Z.to_nat (gets p V.NoE + growby))
  /\ getb (snd r) V.has_new_usages = true
  /\ getb (snd r) V.por_ret_dirty = (getb p V.has_pipes || getb p V.por_ret_dirty).
Proof.
  intros Hg Hn Hrows Hcols. cbv zeta.
  unfold grow_number_of_elements, bind, modify, read. cbv zeta.
  match goal with
  | |- context [when ?b _] =>
      replace b with (getb p V.has_pipes) by reflexivity
  end.
  destruct (getb p V.has_pipes) eqn:Ep; cbn [when modify fst snd orb].
  all: split; [reflexivity|]; split; [reflexivity|].
  all: split; [grow_read; apply grow_matrix_app;
               [lia|eapply Forall_impl; [|exact Hcols]; cbv beta; intros; lia]|].
  all: split; [intros v Hlen;
               assert (E : (length (getf p v) + Z.to_nat growby)%nat
                           = Z.to_nat (gets p V.NoE + growby)) by lia;
               destruct v; grow_read; apply grow_vec_app; exact E|].
  all: split; [intros v Hv Hlen;
               assert (E : (length (geti p v) + Z.to_nat growby)%nat
                           = Z.to_nat (gets p V.NoE + growby)) by lia;
               destruct v; try discriminate Hv; grow_read; apply grow_vec_app; exact E|].
  all: repeat split; try reflexivity.
Qed.

Lemma grow_number_of_elements_keeps_the_weights_witness :
  let p := settled_example in
  let k := Z.to_nat 3 in
  let r := grow_number_of_elements 3 p in
  fst r = Ok tt
  /\ gets (snd r) V.NoE = gets p V.NoE + 3
  /\ w (snd r)
     = map (fun row => row ++ zeros k) (w p)
       ++ repeat (zeros (Z.to_nat (gets p V.NoE + 3))) k
  /\ (forall v, Z.of_nat (length (getf p v)) = gets p V.NoE ->
        getf (snd r) v = getf p v ++ repeat (element_default v) k)
  /\ (forall v, element_table v = true ->
        Z.of_nat (length (geti p v)) = gets p V.NoE ->
        geti (snd r) v = geti p v ++ repeat (element_table_default v) k)
  /\ geti (snd r) V.n_node_porlinked = zerosZ (Z.to_nat (gets p V.NoE + 3))
  /\ geti (snd r) V.n_node_retlinked = zerosZ (Z.to_nat (gets p V.NoE + 3))
  /\ getb (snd r) V.has_new_usages = true
  /\ getb (snd r) V.por_ret_dirty = (getb p V.has_pipes || getb p V.por_ret_dirty).
Proof.
  cbv zeta. apply grow_number_of_elements_keeps_the_weights.
  - lia.
  - vm_compute. discriminate.
  - vm_compute; reflexivity.
  - apply forallb_length_Forall. vm_compute; reflexivity.
Defined.

Lemma count_nonzero_app_zeros (l : list Z) (k : nat) :
  count_nonzero (l ++ repeat 0 k) = count_nonzero l.
Proof.
  unfold count_nonzero. rewrite filter_app.
  replace (filter (fun y => negb (y =? 0)) (repeat 0 k)) with (@nil Z).
  - rewrite app_nil_r. reflexivity.
  - induction k as [|k IH]; [reflexivity|]. cbn [repeat filter Z.eqb negb]. exact IH.
Qed.

Lemma count_nonzero_bounds (l : list Z) : 0 <= count_nonzero l <= Z.of_nat (length l).
Proof.
  unfold count_nonzero. pose proof (filter_length_le (fun y => negb (y =? 0)) l). lia.
Qed.

(** the ids and the elements that are not in use *)
Definition free_nodes (p : Partition) : Z :=
  gets p V.NoN - count_nonzero (geti p V.allocated_nodes).
Definition free_elements (p : Partition) : Z :=
  gets p V.NoE - count_nonzero (geti p V.allocated_elements_to_nodes).

Lemma grow_number_of_nodes_free (growby : Z) (p : Partition) :
  0 <= growby ->
  Z.of_nat (length (geti p V.allocated_nodes)) = gets p V.NoN ->
  let p' := snd (grow_number_of_nodes growby p) in
  fst (grow_number_of_nodes growby p) = Ok tt
  /\ free_nodes p' = free_nodes p + growby
  /\ free_elements p' = free_elements p
  /\ gets p' V.NoE = gets p V.NoE
  /\ geti p' V.allocated_elements_to_nodes = geti p V.allocated_elements_to_nodes.
Proof.
  intros Hg Hlen. cbv zeta. unfold grow_number_of_nodes, bind, modify. cbn [fst snd].
  split; [reflexivity|]. split; [|repeat split].
  unfold free_nodes. grow_read. unfold geti in *.
  rewrite (@grow_vec_app _ 0 _ (Z.to_nat growby)) by lia.
  rewrite count_nonzero_app_zeros. lia.
Qed.

Lemma grow_number_of_elements_free (growby : Z) (p : Partition) :
  0 <= growby ->
  Z.of_nat (length (geti p V.allocated_elements_to_nodes)) = gets p V.NoE ->
  let p' := snd (grow_number_of_elements growby p) in
  fst (grow_number_of_elements growby p) = Ok tt
  /\ free_elements p' = free_elements p + growby
  /\ free_nodes p' = free_nodes p.
Proof.
  intros Hg Hlen. cbv zeta. unfold grow_number_of_elements, bind, modify, read. cbv zeta.
  match goal with
  | |- context [when ?b _] => destruct b
  end; cbn [when modify ret fst snd].
  all: split; [reflexivity|]; split; [|reflexivity].
  all: unfold free_elements; grow_read; unfold geti in *.
  all: rewrite (@grow_vec_app _ 0 _ (Z.to_nat growby)) by lia.
  all: rewrite count_nonzero_app_zeros; lia.
Qed.

(** X7: after [announce_nodes n avg] on a partition whose allocation
    tables have [NoN] and [NoE] entries, at least [n] node ids and at least
    [n * avg] elements are free; the call returns. *)
Theorem announce_nodes_makes_room (number_of_nodes average_elements_per_node : Z)
    (p : Partition) :
  Z.of_nat (length (geti p V.allocated_nodes)) = gets p V.NoN ->
  Z.of_nat (length (geti p V.allocated_elements_to_nodes)) = gets p V.NoE ->
  let r := announce_nodes number_of_nodes average_elements_per_node p in
  fst r = Ok tt
  /\ number_of_nodes <= free_nodes (snd r)
  /\ number_of_nodes * average_elements_per_node <= free_elements (snd r).
Proof.
  intros Hn He. cbv zeta. unfold announce_nodes, bind, read. cbv zeta.
  fold (free_nodes p). fold (free_elements p).
  set (m := number_of_nodes * average_elements_per_node).
  set (g1 := number_of_nodes - free_nodes p + (number_of_nodes - free_nodes p) / 3).
  set (g2 := m - free_elements p + (m - free_elements p) / 3).
  assert (G1 : (number_of_nodes >? free_nodes p) = true ->
               number_of_nodes - free_nodes p <= g1).
  { intros E. apply Z.gtb_lt in E.
    assert (0 <= (number_of_nodes - free_nodes p) / 3) by (apply Z.div_pos; lia).
    subst g1. lia. }
  assert (G2 : (m >? free_elements p) = true -> m - free_elements p <= g2).
  { intros E. apply Z.gtb_lt in E.
    assert (0 <= (m - free_elements p) / 3) by (apply Z.div_pos; lia).
    subst g2. lia. }
  clearbody g1 g2 m.
  destruct (number_of_nodes >? free_nodes p) eqn:E1; cbn [when].
  - specialize (G1 eq_refl). apply Z.gtb_lt in E1.
    assert (G1' : 0 <= g1) by lia.
    destruct (@grow_number_of_nodes_free _ p G1' Hn) as (R1 & F1 & F2 & F3 & F4).
    destruct (grow_number_of_nodes g1 p) as [o1 p1]. cbn [fst snd] in *. subst o1.
    destruct (m >? free_elements p) eqn:E2; cbn [when]; unfold ret.
    + specialize (G2 eq_refl). apply Z.gtb_lt in E2.
      assert (G2' : 0 <= g2) by lia.
      assert (He1 : Z.of_nat (length (geti p1 V.allocated_elements_to_nodes))
                    = gets p1 V.NoE) by (rewrite F4, F3; exact He).
      destruct (@grow_number_of_elements_free _ p1 G2' He1) as (R2 & F5 & F6).
      destruct (grow_number_of_elements g2 p1) as [o2 p2]. cbn [fst snd] in *. subst o2.
      split; [reflexivity|]. lia.
    + cbn [fst snd]. split; [reflexivity|].
      rewrite Z.gtb_ltb in E2. apply Z.ltb_ge in E2. lia.
  - unfold ret. rewrite Z.gtb_ltb in E1. apply Z.ltb_ge in E1.
    destruct (m >? free_elements p) eqn:E2; cbn [when]; unfold ret.
    + specialize (G2 eq_refl). apply Z.gtb_lt in E2.
      assert (G2' : 0 <= g2) by lia.
      destruct (@grow_number_of_elements_free _ p G2' He) as (R2 & F5 & F6).
      destruct (grow_number_of_elements g2 p) as [o2 p2]. cbn [fst snd] in *. subst o2.
      split; [reflexivity|]. lia.
    + cbn [fst snd]. split; [reflexivity|].
      rewrite Z.gtb_ltb in E2. apply Z.ltb_ge in E2. lia.
Qed.

Lemma announce_nodes_makes_room_witness :
  let r := announce_nodes 5 7 settled_example in
  fst r = Ok tt
  /\ 5 <= free_nodes (snd r)
  /\ 5 * 7 <= free_elements (snd r).
Proof.
  cbv zeta. apply announce_nodes_makes_room; vm_compute; reflexivity.
Defined.

(** ** What a tick leaves alone *)

(** the weights, the gate parameters, the function selectors, the
    allocation tables, the groups and the links from other partitions *)
Definition configuration (p : Partition) :=
  (w p,
   (getf p V.g_theta, getf p V.g_threshold, getf p V.g_amplification, getf p V.g_min,
    getf p V.g_max, getf p V.g_expect),
   (geti p V.g_function_selector, geti p V.g_wait, geti p V.n_function_selector,
    geti p V.allocated_elements_to_activators),
   (geti p V.allocated_nodes, geti p V.allocated_node_offsets,
    geti p V.allocated_node_parents, geti p V.allocated_elements_to_nodes,
    geti p V.allocated_nodespaces),
   (gets p V.NoN, gets p V.NoE, gets p V.NoNS),
   nodegroups p, inlinks p).

Section TickKeeps.

Variables sigmoid tanh : Qc -> Qc.

Lemma keeps_configuration_calculate_nodes (behind : Memory) :
  keeps configuration (calculate_nodes sigmoid tanh behind).
Proof.
  intros p. unfold calculate_nodes. destruct (calculate_nodes_usages p) as [u|]; [|reflexivity].
  cbn [snd]. unfold calculate_nodes_updates, theano_function.
  destruct (u_pipes u); reflexivity.
Qed.

Variable behind : Z -> Memory.

Lemma keeps_configuration_tick (current_step : Z) :
  keeps configuration (tick sigmoid tanh behind current_step).
Proof.
  unfold tick, calculate, compile_propagate, compile_calculate_nodes, rebuild_shifted,
    rebuild_por_linked, rebuild_ret_linked, calculate_g_factors.
  cbv zeta.
  repeat (first [keeps_step | apply keeps_configuration_calculate_nodes]).
Qed.

Lemma keeps_configuration_ticks (N : nat) (current_step : Z) :
  keeps configuration (ticks sigmoid tanh behind N current_step).
Proof.
  revert current_step. induction N as [|N IH]; intros current_step; cbn [ticks].
  - apply keeps_ret.
  - apply keeps_bind; [apply keeps_configuration_tick|intros _; apply IH].
Qed.

End TickKeeps.

(** X8: ticks never change the weights, the gate parameters ([g_theta],
    threshold, amplification, minimum, maximum, expectation, wait), the
    function selectors, the activator assignment, the allocation tables
    and sizes, the groups or the links from other partitions, whether they
    return or raise. *)
Theorem ticks_keep_the_configuration (sigmoid tanh : Qc -> Qc) (behind : Z -> Memory)
    (N : nat) (current_step : Z) (p : Partition) :
  configuration (snd (ticks sigmoid tanh behind N current_step p)) = configuration p.
Proof. apply keeps_configuration_ticks. Qed.

(** ** The limits of a gate *)

Lemma T_clip_bounds (x lo hi : Qc) : (lo <= hi -> lo <= T_clip x lo hi <= hi)%Qc.
Proof.
  intros H. unfold T_clip, Qc_ltb.
  destruct (Qle_bool lo x) eqn:E1; cbn [negb].
  - destruct (Qle_bool hi x) eqn:E2; cbn [negb].
    + apply Qle_bool_iff in E1.
      destruct (Qle_bool x hi) eqn:E3; cbn [negb].
      * apply Qle_bool_iff in E3. split; [exact E1|exact E3].
      * split; [exact H|apply Qcle_refl].
    + destruct (Qle_bool x hi) eqn:E3; cbn [negb].
      * apply Qle_bool_iff in E1, E3. split; [exact E1|exact E3].
      * split; [exact H|apply Qcle_refl].
  - split; [apply Qcle_refl|exact H].
Qed.

(** X9: when [calculate_nodes] returns, the new activation of every
    element whose minimum is not above its maximum lies between the two;
    the limits themselves are not changed. *)
Theorem activations_stay_within_the_limits (sigmoid tanh : Qc -> Qc) (behind : Memory)
    (p p' : Partition) (i : nat) :
  calculate_nodes sigmoid tanh behind p = (Ok tt, p') ->
  (i < length (getf p V.a))%nat ->
  (elf p V.g_min i <= elf p V.g_max i)%Qc ->
  (elf p V.g_min i <= elf p' V.a i <= elf p V.g_max i)%Qc
  /\ getf p' V.g_min = getf p V.g_min /\ getf p' V.g_max = getf p V.g_max.
Proof.
  unfold calculate_nodes. intros H Hi Hle.
  destruct (calculate_nodes_usages p) as [u|]; [|discriminate].
  injection H as <-. split.
  - assert (E : elf (theano_function (calculate_nodes_updates sigmoid tanh behind u) p) V.a i
                = gatefunctions_at sigmoid tanh behind u p i).
    { unfold elf. rewrite calculate_nodes_a.
      rewrite (nth_indep _ 0%Qc (gatefunctions_at sigmoid tanh behind u p 0))
        by (rewrite length_map, length_seq; exact Hi).
      rewrite map_nth, seq_nth by exact Hi. reflexivity. }
    rewrite E. unfold gatefunctions_at, gatefunctions, limited_gate_function_output.
    apply T_clip_bounds. exact Hle.
  - unfold calculate_nodes_updates, theano_function.
    destruct (u_pipes u); split; reflexivity.
Qed.

Lemma activations_stay_within_the_limits_witness :
  let p := settled_example in
  let p' := snd (calculate_nodes (fun x => x) (fun x => x) sevens_behind p) in
  (elf p V.g_min 1 <= elf p' V.a 1 <= elf p V.g_max 1)%Qc
  /\ getf p' V.g_min = getf p V.g_min /\ getf p' V.g_max = getf p V.g_max.
Proof.
  cbv zeta.
  apply (@activations_stay_within_the_limits (fun x => x) (fun x => x) sevens_behind
           settled_example _ 1).
  - apply ok_pair. vm_compute. reflexivity.
  - vm_compute. lia.
  - unfold Qcle. vm_compute. discriminate.
Defined.
